(** * MothurAmpliconTablePlot: taxonomy parsing and abundance aggregation

    A shallow embedding of [pylib/taxonomy.py], [pylib/shared_table.py],
    of the aggregation call made by [get_mothur_taxonomy_abundance.py] and
    of the choice of the taxa made by [plot_mothur_taxonomy_abundance.py],
    followed by the properties of the specification that concern them and
    by further properties of the sources.

    Conventions of the embedding:
    - Python exceptions are values of [exn]; a computation that may raise
      returns [result A];
    - [str] is [string], a sequence of 8-bit characters (the inputs of
      interest are ASCII: rank names, taxon names, decimal digits, the
      separators [;], [(] and [)]), and the digit class of [re] is the
      ASCII one;
    - Python [int] is [Z]; the interpreter's recursion limit is not
      modelled;
    - numpy is a parameter: the scalar type of the arrays and its
      operations are the class [Scalar]. [Float64] is its instance on
      the binary64 floats of IEEE 754; [Exact], an instance on exact
      rationals, serves to evaluate the examples;
    - table objects are mutable and live in a store; methods take the
      location of [self] and thread the store. Arrays and tag lists are
      only rebound, never written in place, by the methods modelled here,
      so they are values.

    The file has three parts: the embedding of the sources (one module per
    source file or library), the vocabulary of the statements and the
    example inputs, and the properties. *)

From Stdlib Require Import ZArith QArith Qcanon Ascii String List Lia Permutation
  Sorted.
From Stdlib Require Import DecimalString DecimalZ DecimalN DecimalFacts.
From Stdlib Require PrimFloat Uint63.
From Equations Require Import Equations.
From stdpp Require Import gmap strings list.

Set Default Proof Using "Type".
#[local] Arguments String.append !s1 s2 : simpl nomatch.

(** ** Python builtins used by the sources *)
Module Py.

(** The exceptions the sources raise or provoke. [Unallocated] is not a
    Python exception: it is the answer of the embedding when a location
    holds no object, which a Python reference never does. *)
Inductive exn :=
| ValueError (msg : string)
| KeyError (key : string)
| IndexError
| TypeError (msg : string)
| Unallocated.

(** [LookupError] is the builtin base class of [IndexError] and
    [KeyError]. *)
Definition is_LookupError (e : exn) : bool :=
  match e with
  | KeyError _ | IndexError => true
  | _ => false
  end.

Inductive result (A : Type) :=
| Ok (a : A)
| Err (e : exn).
Arguments Ok {A} a.
Arguments Err {A} e.

(** Sequencing: an exception ends the computation. *)
#[global] Instance result_bind : MBind result := λ A B k r,
  match r with
  | Ok a => k a
  | Err e => Err e
  end.

(** [[f(x) for x in l]], which stops at the first exception. *)
Fixpoint map_result {A B} (f : A → result B) (l : list A) : result (list B) :=
  match l with
  | [] => Ok []
  | x :: t => y ← f x; ys ← map_result f t; Ok (y :: ys)
  end.

(** [x[i]] on a list, with Python's negative indices. *)
Definition list_getitem {A} (l : list A) (i : Z) : result A :=
  let n := Z.of_nat (length l) in
  let j := if (i <? 0)%Z then (n + i)%Z else i in
  if ((0 <=? j) && (j <? n))%Z
  then match l !! Z.to_nat j with
       | Some x => Ok x
       | None => Err IndexError
       end
  else Err IndexError.

(** The position [x[i]] denotes, for an index in range. *)
Definition list_index {A} (l : list A) (i : Z) : nat :=
  Z.to_nat (if (i <? 0)%Z then (Z.of_nat (length l) + i)%Z else i).

(** Truthiness of a [str]: non-empty. *)
Definition str_truthy (s : string) : bool :=
  match s with
  | EmptyString => false
  | String _ _ => true
  end.

(** [s.rstrip(c)] for a one-character set [c]. *)
Fixpoint rstrip (c : ascii) (s : string) : string :=
  match s with
  | EmptyString => EmptyString
  | String a s' =>
      match rstrip c s' with
      | EmptyString => if Ascii.eqb a c then EmptyString else String a EmptyString
      | r => String a r
      end
  end.

(** [s.split(c)] for a one-character separator [c]. *)
Fixpoint split (c : ascii) (s : string) : list string :=
  match s with
  | EmptyString => [EmptyString]
  | String a s' =>
      if Ascii.eqb a c then EmptyString :: split c s'
      else match split c s' with
           | h :: t => String a h :: t
           | [] => [String a EmptyString]
           end
  end.

(** [sep.join(l)]. *)
Fixpoint join (sep : string) (l : list string) : string :=
  match l with
  | [] => EmptyString
  | [x] => x
  | x :: t => x +:+ sep +:+ join sep t
  end.

(** [int(s)] on a string of decimal digits (the only use in the sources
    is on a group matched by [\d+]). *)
Definition int_of_digits (s : string) : Z :=
  match NilEmpty.uint_of_string s with
  | Some d => Z.of_uint d
  | None => 0%Z
  end.

(** ["%u" % n]. *)
Definition format_u (n : Z) : string :=
  NilEmpty.string_of_int (Z.to_int n).

(** [len(x)] where [x] is an [int] object: [int] has no [__len__]. *)
Definition len_of_int (n : Z) : result Z :=
  Err (TypeError "object of type 'int' has no len()").

(** The characters that [str.isspace] accepts, among the first 256. *)
Definition is_space (a : ascii) : bool :=
  let n := nat_of_ascii a in
  ((9 <=? n)%nat && (n <=? 13)%nat) || ((28 <=? n)%nat && (n <=? 32)%nat)
  || (n =? 133)%nat || (n =? 160)%nat.

(** [s.rstrip()] *)
Fixpoint rstrip_ws (s : string) : string :=
  match s with
  | EmptyString => EmptyString
  | String a s' =>
      match rstrip_ws s' with
      | EmptyString => if is_space a then EmptyString else String a EmptyString
      | r => String a r
      end
  end.

(** The characters that [int] skips around a literal, among the first
    256: the tabulation to the carriage return and the space, and the two
    spaces beyond 127 that [str.isspace] accepts. The separators 28 to 31
    are not among them, although [str.isspace] accepts them. *)
Definition is_int_space (a : ascii) : bool :=
  let n := nat_of_ascii a in
  ((9 <=? n)%nat && (n <=? 13)%nat) || (n =? 32)%nat
  || (n =? 133)%nat || (n =? 160)%nat.

(** What [int] leaves of its argument once the characters that it skips
    at the end are gone. *)
Fixpoint int_rstrip (s : string) : string :=
  match s with
  | EmptyString => EmptyString
  | String a s' =>
      match int_rstrip s' with
      | EmptyString => if is_int_space a then EmptyString else String a EmptyString
      | r => String a r
      end
  end.

(** The same at the start. *)
Fixpoint int_lstrip (s : string) : string :=
  match s with
  | EmptyString => EmptyString
  | String a s' => if is_int_space a then int_lstrip s' else s
  end.

Definition int_strip (s : string) : string := int_rstrip (int_lstrip s).

(** The ASCII digits. *)
Definition is_digit (a : ascii) : bool :=
  let n := nat_of_ascii a in (48 <=? n)%nat && (n <=? 57)%nat.

(** The digits of a decimal literal [digit (["_"] digit)*], without the
    underscores; [prev] tells that the previous character was a digit. *)
Fixpoint literal_digits (prev : bool) (s : string) : option string :=
  match s with
  | EmptyString => if prev then Some EmptyString else None
  | String a s' =>
      if is_digit a
      then match literal_digits true s' with
           | Some ds => Some (String a ds)
           | None => None
           end
      else if Ascii.eqb a "_"%char && prev then literal_digits false s'
      else None
  end.

(** The sign of a literal (whether it is negative) and what follows. *)
Definition split_sign (s : string) : bool * string :=
  match s with
  | String a r =>
      if Ascii.eqb a "-"%char then (true, r)
      else if Ascii.eqb a "+"%char then (false, r)
      else (false, s)
  | EmptyString => (false, s)
  end.

(** [int(s)] for a [str], in base 10: surrounding whitespace (that of
    [is_int_space], not that of [str.isspace]), an optional sign, digits
    with single underscores between them. The message of the
    [ValueError], which quotes the argument, is not reproduced, and the
    limit that recent interpreters put on the number of digits is not
    modelled. *)
Definition int_str (s : string) : result Z :=
  let sign_body := split_sign (int_strip s) in
  match literal_digits false sign_body.2 with
  | Some ds =>
      Ok (if sign_body.1 then (- int_of_digits ds)%Z else int_of_digits ds)
  | None => Err (ValueError "invalid literal for int() with base 10")
  end.

(** [str(n)] for an [int] *)
Definition str_int (n : Z) : string :=
  NilEmpty.string_of_int (Z.to_int n).

(** The tabulation character. *)
Definition tab : ascii := "009"%char.

End Py.
Import Py.

(** ** The fragment of [re] needed by [TAX_REGEX] *)
Module Re.

(** A pattern is a sequence of items; repetition applies to character
    classes only. *)
Inductive item :=
| Bol                                (* ^ *)
| Eol                                (* $ *)
| GroupOpen                          (* ( *)
| GroupClose                         (* ) *)
| Lit (c : ascii)                    (* \c *)
| Star (cls : ascii → bool)          (* cls* , greedy *)
| Plus (cls : ascii → bool).         (* cls+ , greedy *)

Definition newline : ascii := "010"%char.

(** [.] without DOTALL. *)
Definition dot (a : ascii) : bool := negb (Ascii.eqb a newline).

(** [\d], on ASCII input. *)
Definition digit (a : ascii) : bool :=
  let n := nat_of_ascii a in (48 <=? n)%nat && (n <=? 57)%nat.

(** Greedy repetition with backtracking: take one more character when
    the class allows and the rest of the pattern then matches; otherwise
    hand the current position to the rest of the pattern. *)
Fixpoint greedy {R} (cls : ascii → bool) (k : nat → string → option R)
    (pos : nat) (s : string) : option R :=
  match s with
  | String a s' =>
      if cls a
      then match greedy cls k (S pos) s' with
           | Some r => Some r
           | None => k pos s
           end
      else k pos s
  | EmptyString => k pos s
  end.

(** The text between the start of a group ([o], the input that remained
    when the group opened) and its end ([s], the input that remains). *)
Definition captured (o s : string) : string :=
  substring 0 (String.length o - String.length s) o.

(** [run items pos opens caps s]: match [items] against [s], the input
    from position [pos] on; [opens] are the groups still open, [caps] the
    closed ones (most recent first). *)
Fixpoint run (items : list item) (pos : nat) (opens caps : list string)
    (s : string) : option (list string) :=
  match items with
  | [] => Some (rev caps)
  | Bol :: k => if (pos =? 0)%nat then run k pos opens caps s else None
  | Eol :: k =>
      match s with
      | EmptyString => run k pos opens caps s
      | String a EmptyString =>
          if Ascii.eqb a newline then run k pos opens caps s else None
      | _ => None
      end
  | GroupOpen :: k => run k pos (s :: opens) caps s
  | GroupClose :: k =>
      match opens with
      | o :: os => run k pos os (captured o s :: caps) s
      | [] => None
      end
  | Lit c :: k =>
      match s with
      | String a s' => if Ascii.eqb a c then run k (S pos) opens caps s' else None
      | EmptyString => None
      end
  | Star cls :: k => greedy cls (fun p t => run k p opens caps t) pos s
  | Plus cls :: k =>
      match s with
      | String a s' =>
          if cls a then greedy cls (fun p t => run k p opens caps t) (S pos) s'
          else None
      | EmptyString => None
      end
  end.

(** [pattern.match(s)]: the groups of the match, if any. *)
Definition re_match (p : list item) (s : string) : option (list string) :=
  run p 0 [] [] s.

End Re.

(** ** pylib/taxonomy.py *)
Module Taxonomy.

(** [class MothurTaxonomy]; [_uniq_name] is the attribute that
    [set_unique_taxon_name] creates ([None] until then). *)
Record MothurTaxonomy := mkTaxonomy {
  taxon_name : string;
  bootstrap : Z;
  _uniq_name : option string;
}.

(** [TAX_REGEX]: start of input, a group of any characters, an opening
    parenthesis, a group of one or more digits, a closing parenthesis,
    end of input. *)
Definition TAX_REGEX : list Re.item :=
  [Re.Bol; Re.GroupOpen; Re.Star Re.dot; Re.GroupClose; Re.Lit "("%char;
   Re.GroupOpen; Re.Plus Re.digit; Re.GroupClose; Re.Lit ")"%char; Re.Eol].

(** [getattr(self, "_uniq_name", None) or self.taxon_name] *)
Definition unique_taxon_name (t : MothurTaxonomy) : string :=
  match _uniq_name t with
  | Some s => if str_truthy s then s else taxon_name t
  | None => taxon_name t
  end.

(** [set_unique_taxon_name]: the taxon after the assignment of
    [_uniq_name]. *)
Definition set_unique_taxon_name (t : MothurTaxonomy) (s : string) : MothurTaxonomy :=
  {| taxon_name := taxon_name t; bootstrap := bootstrap t; _uniq_name := Some s |}.

(** [is_empty_taxon]: [not self.taxon_name] *)
Definition is_empty_taxon (t : MothurTaxonomy) : bool :=
  negb (str_truthy (taxon_name t)).

(** [__bool__] *)
Definition taxon_bool (t : MothurTaxonomy) : bool := negb (is_empty_taxon t).

(** [MothurTaxonomy.from_str] *)
Definition taxonomy_from_str (s : string) : result MothurTaxonomy :=
  if negb (str_truthy s) then Ok (mkTaxonomy "" 0 None)
  else match Re.re_match TAX_REGEX s with
       | Some [g1; g2] => Ok (mkTaxonomy g1 (int_of_digits g2) None)
       | _ => Err (ValueError ("taxon string in invalid format: '" +:+ s +:+ "'"))
       end.

(** [MothurTaxonomy.to_str]: ["%s(%u)" % (taxon_name, bootstrap)] *)
Definition taxonomy_to_str (t : MothurTaxonomy) : string :=
  taxon_name t +:+ "(" +:+ format_u (bootstrap t) +:+ ")".

(** [class MothurLineage(list)] *)
Abbreviation MothurLineage := (list MothurTaxonomy).

(** [RANK] *)
Definition RANK : list string :=
  ["kingdom"; "phylum"; "class"; "order"; "family"; "genus"; "species"].

(** [RANK_ID = {v: i for (i, v) in enumerate(RANK)}] *)
Definition RANK_ID : gmap string Z :=
  list_to_map (imap (fun i v => (v, Z.of_nat i)) RANK).

(** [depth]: [len(self)] *)
Definition depth (self : MothurLineage) : Z := Z.of_nat (length self).

(** The argument [rank] of [get_taxon_by_rank]: an [int], a [str], or an
    object of another type. *)
Inductive rank_arg :=
| RInt (i : Z)
| RStr (s : string)
| ROther.

(** [_get_by_id]: the taxon, or [None]. *)
Definition _get_by_id (self : MothurLineage) (rank_id : Z)
    : result (option MothurTaxonomy) :=
  if (rank_id <? depth self)%Z
  then t ← list_getitem self rank_id; Ok (Some t)
  else Ok None.

(** [_get_by_name] *)
Definition _get_by_name (self : MothurLineage) (rank_name : string)
    : result (option MothurTaxonomy) :=
  match RANK_ID !! rank_name with
  | None => Err (ValueError ("invalid rank name: '" +:+ rank_name +:+ "'"))
  | Some i => _get_by_id self i
  end.

(** [get_taxon_by_rank], which is also [__getitem__]. *)
Definition get_taxon_by_rank (self : MothurLineage) (rank : rank_arg)
    : result (option MothurTaxonomy) :=
  match rank with
  | RInt i => _get_by_id self i
  | RStr s => _get_by_name self s
  | ROther => Err IndexError
  end.

(** [if _last_known]: neither [None] nor the empty string. *)
Definition last_known_truthy (l : option string) : bool :=
  match l with
  | Some s => str_truthy s
  | None => false
  end.

(** A value together with the equation that names it, for the recursion
    below. *)
Definition inspect {A} (a : A) : {b : A | a = b} := exist _ a eq_refl.

Lemma get_by_id_some_lt (self : MothurLineage) (i : Z) (t : MothurTaxonomy) :
  _get_by_id self i = Ok (Some t) → (i < depth self)%Z.
Proof.
  unfold _get_by_id. destruct (Z.ltb_spec i (depth self)); [done|discriminate].
Qed.

(** [set_unique_taxon_names(self, *, _from = 0, _last_known = None)].
    The method mutates the taxa of [self] and returns [None]; the
    embedding returns the lineage after the call. The taxon that
    [taxon.set_unique_taxon_name] writes is the object that the list holds
    at [_from] (the taxa of a parsed lineage are distinct objects), so the
    write is the update of that position. [if not taxon] holds for [None]
    and for a taxon whose [__bool__] is false. The recursion ends because
    [_from] approaches [depth]. *)
Equations? set_unique_taxon_names (self : MothurLineage) (_from : Z)
    (_last_known : option string) : result MothurLineage
    by wf (Z.to_nat (depth self - _from)) lt :=
  set_unique_taxon_names self _from _last_known
    with inspect (get_taxon_by_rank self (RInt _from)) => {
    | exist _ (Err e) _ := Err e
    | exist _ (Ok None) _ := Ok self
    | exist _ (Ok (Some taxon)) Hget :=
        if negb (taxon_bool taxon) then Ok self
        else if String.prefix "uncultured" (taxon_name taxon)
        then
          match (if last_known_truthy _last_known
                 then r ← list_getitem RANK _from;
                      Ok (default "" _last_known +:+ "_" +:+ r)
                 else Ok "unknown") with
          | Err e => Err e
          | Ok uniq_name =>
              set_unique_taxon_names
                (<[list_index self _from := set_unique_taxon_name taxon uniq_name]> self)
                (_from + 1) _last_known
          end
        else set_unique_taxon_names self (_from + 1) (Some (taxon_name taxon))
    }.
Proof.
  - apply get_by_id_some_lt in Hget. unfold depth in *.
    rewrite length_insert. lia.
  - apply get_by_id_some_lt in Hget. lia.
Qed.

(** [MothurLineage.from_str] *)
Definition lineage_from_str (s : string) : result MothurLineage :=
  let sp := split ";"%char (rstrip ";"%char s) in
  new ← map_result taxonomy_from_str sp;
  set_unique_taxon_names new 0 None.

(** [MothurLineage.to_str] *)
Definition lineage_to_str (self : MothurLineage) : string :=
  join ";" (map taxonomy_to_str self) +:+ ";".

(** [class MothurOtuTaxonomy]: a line of the taxonomy file. *)
Record MothurOtuTaxonomy := mkOtuTaxonomy {
  otu_name : string;
  size : Z;
  taxonomy : MothurLineage;
}.

(** [MothurOtuTaxonomy.from_str] *)
Definition otu_from_str (s : string) : result MothurOtuTaxonomy :=
  let sp := split tab s in
  name ← list_getitem sp 0;
  size_str ← list_getitem sp 1;
  size ← int_str size_str;
  lineage_str ← list_getitem sp 2;
  lineage ← lineage_from_str lineage_str;
  Ok (mkOtuTaxonomy name size lineage).

(** [MothurOtuTaxonomy.to_str] *)
Definition otu_to_str (self : MothurOtuTaxonomy) : string :=
  join (String tab "")
    [otu_name self; str_int (size self); lineage_to_str (taxonomy self)].

(** The header line of a taxonomy file. *)
Definition taxonomy_header : string :=
  "OTU" +:+ String tab ("Size" +:+ String tab "Taxonomy").

(** The loop of [MothurOtuTaxonomyDict.from_file] over the lines that the
    iteration of the file yields (each with its line terminator). *)
Fixpoint otu_dict_add_lines (lines : list string)
    (new : gmap string MothurOtuTaxonomy)
    : result (gmap string MothurOtuTaxonomy) :=
  match lines with
  | [] => Ok new
  | line :: lines' =>
      let line := rstrip_ws line in
      if String.eqb line taxonomy_header
      then otu_dict_add_lines lines' new
      else
        otu ← otu_from_str line;
        otu_dict_add_lines lines' (<[otu_name otu := otu]> new)
  end.

(** [MothurOtuTaxonomyDict.from_file], on the lines of the file: the
    dictionary starts empty. *)
Definition otu_dict_from_lines (lines : list string)
    : result (gmap string MothurOtuTaxonomy) :=
  otu_dict_add_lines lines ∅.

End Taxonomy.
Import Taxonomy.

(** ** The fragment of numpy used by [pylib/shared_table.py] *)
Module Numpy.

(** The scalar type of an array (int64 counts, float64 fractions) with
    the operations the sources apply to it. numpy itself is not part of
    the repository: its operations are the fields of this class, and all
    that is assumed of [argsort] is that it returns a permutation of the
    positions. *)
Class Scalar (num : Type) := {
  zero : num;
  add : num → num → num;
  true_divide : num → num → num;
  of_int : Z → num;
  sum : list num → num;
  mean : list num → num;
  argsort : list num → list nat;
  argsort_perm : ∀ v, Permutation (argsort v) (seq 0 (length v));
}.

Section arrays.
Context {num : Type} `{Scalar num}.

(** A 2-D array: its rows, each of [ncols] entries; the shape is
    [(length rows, ncols)]. *)
Record ndarray := mk_ndarray {
  ncols : nat;
  rows : list (list num);
}.

Definition nrows (a : ndarray) : nat := length (rows a).

Definition wf_ndarray (a : ndarray) : Prop :=
  Forall (fun r => length r = ncols a) (rows a).

(** [numpy.zeros(n)] *)
Definition zeros (n : nat) : list num := replicate n zero.

(** [numpy.zeros((nrow, ncol))]; also the model of [numpy.empty], whose
    content is unspecified. *)
Definition zeros2 (nrow ncol : nat) : ndarray :=
  mk_ndarray ncol (replicate nrow (zeros ncol)).

(** [a[:, i]] for [0 <= i] *)
Definition get_col (a : ndarray) (i : nat) : result (list num) :=
  if (i <? ncols a)%nat
  then Ok ((fun r => default zero (r !! i)) <$> rows a)
  else Err IndexError.

(** [a[:, i] = v] for [0 <= i] and a 1-D [v]; a [v] of another length
    than the number of rows cannot be stored (broadcasting of a
    one-element [v] is not modelled). *)
Definition set_col (a : ndarray) (i : nat) (v : list num) : result ndarray :=
  if negb (i <? ncols a)%nat then Err IndexError
  else if negb (length v =? nrows a)%nat
  then Err (ValueError "could not broadcast input array")
  else Ok (mk_ndarray (ncols a) (zip_with (fun r x => <[i := x]> r) (rows a) v)).

(** [u += v] on 1-D arrays of the same length *)
Definition iadd (u v : list num) : list num := zip_with add u v.

(** [l[idx]] with an integer index array *)
Definition take_idx {A} (l : list A) (idx : list nat) : result (list A) :=
  map_result (fun i => match l !! i with
                       | Some x => Ok x
                       | None => Err IndexError
                       end) idx.

(** [a[:, idx]] *)
Definition take_cols (a : ndarray) (idx : list nat) : result ndarray :=
  rs ← map_result (fun r => take_idx r idx) (rows a);
  Ok (mk_ndarray (length idx) rs).

(** [a.mean(axis = 0)] *)
Definition mean_axis0 (a : ndarray) : list num :=
  (fun j => mean ((fun r => default zero (r !! j)) <$> rows a))
    <$> seq 0 (ncols a).

(** [a.sum(axis = 1, keepdims = True)] *)
Definition sum_axis1 (a : ndarray) : list num := sum <$> rows a.

(** [a / s] where [s] has one entry per row of [a] *)
Definition divide_rows (a : ndarray) (s : list num) : ndarray :=
  mk_ndarray (ncols a)
    (zip_with (fun r d => (fun x => true_divide x d) <$> r) (rows a) s).

(** [numpy.arange(n, 0, -1)] *)
Definition arange_down (n : Z) : list num :=
  (fun k => of_int (n - Z.of_nat k)) <$> seq 0 (Z.to_nat n).

(** [r[idx] = vals], for [idx] and [vals] of the same length *)
Definition scatter (r : list num) (idx : list nat) (vals : list num) : list num :=
  foldl (fun r' p => <[p.1 := p.2]> r') r (zip idx vals).

End arrays.
Arguments ndarray num : clear implicits.

End Numpy.
Import Numpy.

(** ** pylib/shared_table.py *)
Module SharedTable.

(** Locations of table objects. *)
Abbreviation loc := positive.

Section tables.
Context {num : Type} `{Scalar num}.

(** [class TaggedTable]; [shared_attrs] holds the attributes [label]
    and [num_otus] that the subclass [MothurSharedTable] adds. *)
Record TaggedTable := mkTable {
  row_tag : list string;
  col_tag : list string;
  data : ndarray num;
  shared_attrs : option (list string * list Z);
}.

(** The store of table objects. *)
Abbreviation heap := (gmap loc TaggedTable).

Definition load (self : loc) (h : heap) : result TaggedTable :=
  match h !! self with
  | Some t => Ok t
  | None => Err Unallocated
  end.

(** A new object. *)
Definition alloc (t : TaggedTable) (h : heap) : loc * heap :=
  let l := fresh (dom h) in (l, <[l := t]> h).

(** [copy.deepcopy(self)] *)
Definition deepcopy (self : loc) (h : heap) : result (loc * heap) :=
  t ← load self h; Ok (alloc t h).

(** [TaggedTable.__init__] *)
Definition TaggedTable_init (row_tag col_tag : list string)
    (data : ndarray num) : result TaggedTable :=
  if negb (length row_tag =? nrows data)%nat
  then Err (ValueError
    "row_tag and data (1st dimension) must be of the same length")
  else match rows data with
       | [] => Err IndexError
       | _ :: _ =>
           if negb (length col_tag =? ncols data)%nat
           then Err (ValueError
             "col_tag and data (2nd dimension) must be of the same length")
           else Ok (mkTable row_tag col_tag data None)
       end.

(** The attributes that [MothurSharedTable.__init__] sets after the
    constructor of the base class. *)
Definition with_shared_attrs (t : TaggedTable) (label : list string)
    (num_otus : list Z) : TaggedTable :=
  mkTable (row_tag t) (col_tag t) (data t) (Some (label, num_otus)).

(** [MothurSharedTable.__init__] *)
Definition MothurSharedTable_init (label group : list string)
    (num_otus : list Z) (otu : list string) (data : ndarray num)
    : result TaggedTable :=
  if negb ((length label =? length group)%nat
           && (length group =? length num_otus)%nat
           && (length num_otus =? nrows data)%nat)
  then Err (ValueError
    "label, group, num_otus and data (1st dimension) must be of the same length")
  else match rows data with
       | [] => Err IndexError
       | _ :: _ =>
           if negb (length otu =? ncols data)%nat
           then Err (ValueError
             "otu and data (2nd dimension) must be of the same length")
           else
             t ← TaggedTable_init group otu data;
             Ok (with_shared_attrs t label num_otus)
       end.

(** [normalize_rows] *)
Definition normalize_rows (self : loc) (inplace : bool) (h : heap)
    : result (loc * heap) :=
  r ← (if inplace then Ok (self, h) else deepcopy self h);
  t ← load r.1 r.2;
  let data' := divide_rows (data t) (sum_axis1 (data t)) in
  Ok (r.1, <[r.1 := mkTable (row_tag t) (col_tag t) data' (shared_attrs t)]> r.2).

(** The branch [by_average] of [_get_sorted_index]. *)
Definition sorted_index_by_average (data : ndarray num) : list nat :=
  let sort_data := mean_axis0 data in
  rev (argsort sort_data).

(** [_get_sorted_index]; the branch [by_rank] ends with a call of the
    method on the branch [by_average]. *)
Definition _get_sorted_index (data : ndarray num) (method : string)
    : result (list nat) :=
  if String.eqb method "by_average" then Ok (sorted_index_by_average data)
  else if String.eqb method "by_rank" then
    let ncol := Z.of_nat (ncols data) in
    let ranks := zeros2 (nrows data) (ncols data) in
    rs ← map_result
           (fun rd : list num * list num =>
              n ← len_of_int ncol;
              Ok (scatter rd.1 (argsort rd.2) (arange_down n)))
           (zip (rows ranks) (rows data));
    Ok (sorted_index_by_average (mk_ndarray (ncols data) rs))
  else Err (ValueError ("invalid sort method: '" +:+ method +:+ "'")).

(** [sort_cols_descend] *)
Definition sort_cols_descend (self : loc) (method : string)
    (inplace : bool) (h : heap) : result (loc * heap) :=
  r ← (if inplace then Ok (self, h) else deepcopy self h);
  t ← load r.1 r.2;
  idx ← _get_sorted_index (data t) method;
  col_tag' ← take_idx (col_tag t) idx;
  data' ← take_cols (data t) idx;
  Ok (r.1, <[r.1 := mkTable (row_tag t) col_tag' data' (shared_attrs t)]> r.2).

(** The [defaultdict] [tax_data]: keys in order of first insertion,
    a missing key standing for [numpy.zeros(nrow)]. *)
Abbreviation tax_dict := (list (string * list num)).

(** [d[k]] *)
Fixpoint dd_get (nrow : nat) (d : tax_dict) (k : string) : list num :=
  match d with
  | [] => zeros nrow
  | p :: d' => if decide (p.1 = k) then p.2 else dd_get nrow d' k
  end.

(** [d[k] += v] *)
Fixpoint dd_iadd (nrow : nat) (d : tax_dict) (k : string) (v : list num)
    : tax_dict :=
  match d with
  | [] => [(k, iadd (zeros nrow) v)]
  | p :: d' =>
      if decide (p.1 = k) then (k, iadd p.2 v) :: d'
      else p :: dd_iadd nrow d' k v
  end.

(** The loop over the OTU columns, from column [i] on. *)
Fixpoint accumulate (t : TaggedTable)
    (otu_tax_dict : gmap string MothurOtuTaxonomy) (tax_rank : rank_arg)
    (i : nat) (otus : list string) (tax_data : tax_dict) : result tax_dict :=
  match otus with
  | [] => Ok tax_data
  | o :: otus' =>
      rec ← match otu_tax_dict !! o with
            | Some rec => Ok rec
            | None => Err (KeyError o)
            end;
      tax ← get_taxon_by_rank (taxonomy rec) tax_rank;
      match tax with
      | Some tax' =>
          if negb (taxon_bool tax')
          then accumulate t otu_tax_dict tax_rank (S i) otus' tax_data
          else
            col ← get_col (data t) i;
            accumulate t otu_tax_dict tax_rank (S i) otus'
              (dd_iadd (nrows (data t)) tax_data (unique_taxon_name tax') col)
      | None => accumulate t otu_tax_dict tax_rank (S i) otus' tax_data
      end
  end.

(** The loop that stores the columns, from column [i] on. *)
Fixpoint fill_cols (nrow : nat) (tax_data : tax_dict) (i : nat)
    (keys : list string) (d : ndarray num) : result (ndarray num) :=
  match keys with
  | [] => Ok d
  | k :: keys' =>
      d' ← set_col d i (dd_get nrow tax_data k);
      fill_cols nrow tax_data (S i) keys' d'
  end.

(** [MothurSharedTable.group_by_taxonomy(self, otu_tax_dict, tax_rank)] *)
Definition group_by_taxonomy (self : loc)
    (otu_tax_dict : gmap string MothurOtuTaxonomy) (tax_rank : rank_arg)
    (h : heap) : result (loc * heap) :=
  t ← load self h;
  let nrow := nrows (data t) in
  tax_data ← accumulate t otu_tax_dict tax_rank 0 (col_tag t) [];
  let col_tag' := tax_data.*1 in
  data' ← fill_cols nrow tax_data 0 col_tag' (zeros2 nrow (length col_tag'));
  ret ← TaggedTable_init (row_tag t) col_tag' data';
  let r := alloc ret h in
  r' ← sort_cols_descend r.1 "by_average" true r.2;
  Ok (r.1, r'.2).

End tables.
Arguments TaggedTable num : clear implicits.

End SharedTable.
Import SharedTable.

(** ** get_mothur_taxonomy_abundance.py *)
Module Main.

(** The parameters of [group_by_taxonomy]. *)
Definition group_by_taxonomy_params : list string :=
  ["self"; "otu_tax_dict"; "tax_rank"].

(** Binding of the keyword arguments of a call to a function without a
    [**kw] parameter: a keyword that names no parameter is refused. *)
Definition bind_keywords (fname : string) (params keywords : list string)
    : result unit :=
  match list_find (fun k => k ∉ params) keywords with
  | Some (_, k) =>
      Err (TypeError (fname +:+ "() got an unexpected keyword argument '"
                      +:+ k +:+ "'"))
  | None => Ok ()
  end.

(** The two statements of [main] that compute the abundances: the
    normalization, then the call
    [group_by_taxonomy(taxonomy, tax_rank = ..., min_bootstrap = ...)]. *)
Definition main_abundance {num} `{Scalar num} (otu_count : loc)
    (taxonomy : gmap string MothurOtuTaxonomy) (tax_rank : string)
    (min_bootstrap : Z) (h : gmap loc (TaggedTable num))
    : result (loc * gmap loc (TaggedTable num)) :=
  otu_abund ← normalize_rows otu_count false h;
  _ ← bind_keywords "group_by_taxonomy" group_by_taxonomy_params
        ["tax_rank"; "min_bootstrap"];
  group_by_taxonomy otu_abund.1 taxonomy (RStr tax_rank) otu_abund.2.

End Main.
Import Main.

(** ** plot_mothur_taxonomy_abundance.py: the choice of the taxa to plot *)
Module Plot.

Section filters.
Context {num : Type} `{Scalar num}.

(** [l[:k]], for a list or a 1-D array *)
Definition slice_to {A} (l : list A) (k : Z) : list A :=
  if (k <? 0)%Z then take (Z.to_nat (Z.of_nat (length l) + k)) l
  else take (Z.to_nat k) l.

(** [dst[...] = src] where the target has [n] places: the lengths agree,
    or [src] has one element, which is repeated. *)
Definition assign_slice {A} (n : nat) (src : list A) : result (list A) :=
  if (length src =? n)%nat then Ok src
  else match src with
       | [x] => Ok (replicate n x)
       | _ => Err (ValueError "could not broadcast input array")
       end.

(** [numpy.hstack([a[:, :n], a[:, n:].sum(axis = 1, keepdims = True)])]
    for [0 <= n] *)
Definition hstack_head_rest (a : ndarray num) (n : nat) : ndarray num :=
  mk_ndarray (Nat.min n (ncols a) + 1)
    ((fun r => take n r ++ [sum (drop n r)]) <$> rows a).

(** [_filter_taxons_by_max_n] *)
Definition _filter_taxons_by_max_n (tax_abund : loc) (max_n_taxons : Z)
    (h : gmap loc (TaggedTable num)) : result (loc * gmap loc (TaggedTable num)) :=
  t ← load tax_abund h;
  let ncol := Z.of_nat (ncols (data t)) in
  p ← (if (max_n_taxons <? ncol)%Z
       then
         let ncol := (max_n_taxons + 1)%Z in
         if (ncol <? 0)%Z
         then Err (ValueError "negative dimensions are not allowed")
         else
           let src := slice_to (col_tag t) max_n_taxons in
           head ← assign_slice
                    (length (slice_to (replicate (Z.to_nat ncol) "") max_n_taxons))
                    src;
           if (max_n_taxons <? 0)%Z then Err IndexError
           else
             Ok (head ++ ["[all others classified]"],
                 hstack_head_rest (data t) (Z.to_nat max_n_taxons))
       else Ok (col_tag t, data t));
  ret ← TaggedTable_init (row_tag t) p.1 p.2;
  Ok (alloc ret h).

(** [user_tax_order = {k: i for (i, k) in enumerate(user_tax)}] *)
Definition user_tax_order (user_tax : list string) : gmap string nat :=
  foldl (fun m p => <[p.2 := p.1]> m) ∅ (imap pair user_tax).

(** The loop of [_filter_taxons_by_list] over the columns [i], [i + 1],
    ... of the table, whose tags are [tags]. *)
Fixpoint copy_listed (t : TaggedTable num) (order : gmap string nat)
    (i : nat) (tags : list string) (d : ndarray num) : result (ndarray num) :=
  match tags with
  | [] => Ok d
  | tag :: tags' =>
      match order !! tag with
      | Some j =>
          col ← get_col (data t) i;
          d' ← set_col d j col;
          copy_listed t order (S i) tags' d'
      | None => copy_listed t order (S i) tags' d
      end
  end.

(** [_filter_taxons_by_list], where [user_tax] is the list of the lines
    read from the file [taxon_list]. *)
Definition _filter_taxons_by_list (tax_abund : loc) (user_tax : list string)
    (h : gmap loc (TaggedTable num)) : result (loc * gmap loc (TaggedTable num)) :=
  t ← load tax_abund h;
  let order := user_tax_order user_tax in
  let nrow := length (row_tag t) in
  data' ← copy_listed t order 0 (col_tag t) (zeros2 nrow (length user_tax));
  ret ← TaggedTable_init (row_tag t) user_tax data';
  Ok (alloc ret h).

End filters.

End Plot.
Import Plot.

(** ** An instance for the examples: exact rationals

    Counts and fractions as rationals, with a stable insertion sort for
    [argsort]. The instance serves to evaluate the examples, which hold
    small counts, and to show that the hypotheses of the general results
    can be met. It is not a model of the arithmetic of numpy: it does
    not round as float64 does and does not wrap around as int64 does,
    its division by zero gives zero where numpy gives [nan] or [inf],
    and numpy does not promise the order that this [argsort] gives to
    equal entries. The properties of the sources are stated for every
    instance of [Scalar]; on this one they are only evaluated. *)
Module Exact.

Fixpoint insert_key (x : Q * nat) (l : list (Q * nat)) : list (Q * nat) :=
  match l with
  | [] => [x]
  | y :: l' => if Qle_bool x.1 y.1 then x :: l else y :: insert_key x l'
  end.

Definition sort_keys (l : list (Q * nat)) : list (Q * nat) :=
  foldr insert_key [] l.

Definition argsort_Q (v : list Q) : list nat :=
  (sort_keys (zip v (seq 0 (length v)))).*2.

Definition sum_Q (v : list Q) : Q := foldr Qplus (0#1)%Q v.

Definition mean_Q (v : list Q) : Q :=
  Qdiv (sum_Q v) (inject_Z (Z.of_nat (length v))).

Lemma insert_key_perm x l : Permutation (insert_key x l) (x :: l).
Proof.
  induction l as [|y l IH]; simpl; [done|].
  destruct (Qle_bool x.1 y.1); [done|].
  rewrite IH. apply perm_swap.
Qed.

Lemma sort_keys_perm l : Permutation (sort_keys l) l.
Proof.
  induction l as [|x l IH]; simpl; [done|].
  by rewrite insert_key_perm, IH.
Qed.

Lemma argsort_Q_perm (v : list Q) :
  Permutation (argsort_Q v) (seq 0 (length v)).
Proof.
  unfold argsort_Q. rewrite sort_keys_perm.
  rewrite snd_zip; [done|]. by rewrite length_seq.
Qed.

#[global] Instance Q_scalar : Scalar Q := {|
  zero := (0#1)%Q;
  add := Qplus;
  true_divide := Qdiv;
  of_int := inject_Z;
  sum := sum_Q;
  mean := mean_Q;
  argsort := argsort_Q;
  argsort_perm := argsort_Q_perm;
|}.

End Exact.
Import Exact.

(** ** An instance: float64

    The float64 of numpy is the binary64 of IEEE 754, which the
    primitive floats of the kernel implement: [add] and [true_divide]
    are the correctly rounded operations, and a division by zero gives
    [inf] or [nan]. [sum] and [mean] add from left to right, starting
    from zero, which is how numpy adds fewer than eight entries. (numpy
    adds more entries in blocks, with a result that may differ in the
    last digits: the instance stands for numpy on tables of fewer than
    eight rows and columns.) [argsort] puts [nan] last, as numpy does;
    it keeps equal entries in the order of their positions. *)
Module Float64.

(** The float64 of an integer smaller than [2^63] in absolute value
    (the nearest one, from [2^53] on). *)
Definition of_Z (z : Z) : PrimFloat.float :=
  match z with
  | Z0 => PrimFloat.zero
  | Zpos p => PrimFloat.of_uint63 (Uint63.of_Z (Zpos p))
  | Zneg p => PrimFloat.opp (PrimFloat.of_uint63 (Uint63.of_Z (Zpos p)))
  end.

Definition sum_float (v : list PrimFloat.float) : PrimFloat.float :=
  foldl PrimFloat.add PrimFloat.zero v.

Definition mean_float (v : list PrimFloat.float) : PrimFloat.float :=
  PrimFloat.div (sum_float v) (of_Z (Z.of_nat (length v))).

(** The order in which numpy sorts: by value, [nan] after all values. *)
Definition sort_leb (x y : PrimFloat.float) : bool :=
  PrimFloat.is_nan y || PrimFloat.leb x y.

Fixpoint insert_float (x : PrimFloat.float * nat)
    (l : list (PrimFloat.float * nat)) : list (PrimFloat.float * nat) :=
  match l with
  | [] => [x]
  | y :: l' => if sort_leb x.1 y.1 then x :: l else y :: insert_float x l'
  end.

Definition argsort_float (v : list PrimFloat.float) : list nat :=
  (foldr insert_float [] (zip v (seq 0 (length v)))).*2.

Lemma insert_float_perm x l : Permutation (insert_float x l) (x :: l).
Proof.
  induction l as [|y l IH]; simpl; [done|].
  destruct (sort_leb x.1 y.1); [done|].
  rewrite IH. apply perm_swap.
Qed.

Lemma argsort_float_perm (v : list PrimFloat.float) :
  Permutation (argsort_float v) (seq 0 (length v)).
Proof.
  unfold argsort_float.
  assert (Hsort : ∀ l, Permutation (foldr insert_float [] l) l).
  { induction l as [|x l IH]; simpl; [done|].
    by rewrite insert_float_perm, IH. }
  rewrite Hsort, snd_zip; [done|]. by rewrite length_seq.
Qed.

#[global] Instance float_scalar : Scalar PrimFloat.float := {|
  zero := PrimFloat.zero;
  add := PrimFloat.add;
  true_divide := PrimFloat.div;
  of_int := of_Z;
  sum := sum_float;
  mean := mean_float;
  argsort := argsort_float;
  argsort_perm := argsort_float_perm;
|}.

End Float64.
Import Float64.

(** * Vocabulary of the statements *)

(** ** Strings and lineages *)

(** Every character of [s] satisfies [P]. *)
Fixpoint string_forall (P : ascii → bool) (s : string) : bool :=
  match s with
  | EmptyString => true
  | String a s' => P a && string_forall P s'
  end.

(** The character [c] does not occur in the string. *)
Definition no_char (c : ascii) : string → bool :=
  string_forall (fun a => negb (Ascii.eqb a c)).

(** The walk of [set_unique_taxon_names], written by recursion on the
    taxa from rank [_from] on; [set_unique_taxon_names_suffix] below shows
    that the method computes this. *)
Fixpoint resolve_suffix (_from : nat) (_last_known : option string)
    (suf : list MothurTaxonomy) : result (list MothurTaxonomy) :=
  match suf with
  | [] => Ok []
  | taxon :: rest =>
      if negb (taxon_bool taxon) then Ok suf
      else if String.prefix "uncultured" (taxon_name taxon)
      then
        match (if last_known_truthy _last_known
               then r ← list_getitem RANK (Z.of_nat _from);
                    Ok (default "" _last_known +:+ "_" +:+ r)
               else Ok "unknown") with
        | Err e => Err e
        | Ok uniq_name =>
            rest' ← resolve_suffix (S _from) _last_known rest;
            Ok (set_unique_taxon_name taxon uniq_name :: rest')
        end
      else
        rest' ← resolve_suffix (S _from) (Some (taxon_name taxon)) rest;
        Ok (taxon :: rest')
  end.

(** [name.startswith("uncultured")] *)
Definition is_uncultured (name : string) : bool :=
  String.prefix "uncultured" name.

(** The most recent name, among [names], that does not start with
    [uncultured]. *)
Definition last_known_name (names : list string) : option string :=
  last (filter (fun n => is_uncultured n = false) names).

(** The resolved name the rule gives to an [uncultured] taxon at rank [i]
    of a lineage with raw names [names]. *)
Definition rule_resolved_name (names : list string) (i : nat) : option string :=
  match last_known_name (take i names) with
  | Some k => r ← RANK !! i; Some (k +:+ "_" +:+ r)
  | None => Some "unknown"
  end.

(** Every [uncultured] taxon of the lineage carries the name of the rule. *)
Definition resolved_by_rule (l : MothurLineage) : Prop :=
  ∀ i t, l !! i = Some t → is_uncultured (taxon_name t) = true →
         Some (unique_taxon_name t) = rule_resolved_name (taxon_name <$> l) i.

(** The raw content of a taxon: what the lineage string holds. *)
Definition raw (t : MothurTaxonomy) : string * Z := (taxon_name t, bootstrap t).

(** [n] semicolons. *)
Fixpoint semicolons (n : nat) : string :=
  match n with
  | 0 => ""
  | S n => String ";"%char (semicolons n)
  end.

(** A segment [name(conf)], with the confidence in canonical decimal. *)
Definition segment_str (p : string * Z) : string :=
  p.1 +:+ "(" +:+ format_u p.2 +:+ ")".

(** The lineage string of a list of (name, confidence) pairs. *)
Definition lineage_str (segs : list (string * Z)) : string :=
  join ";" (segment_str <$> segs) +:+ ";".

(** A name that a segment can carry: no semicolon and no line break; a
    confidence: a natural number. *)
Definition well_formed_segment (p : string * Z) : Prop :=
  no_char ";"%char p.1 = true ∧ string_forall Re.dot p.1 = true ∧ (0 <= p.2)%Z.

(** The round trip of the specification, at the string [s]. *)
Definition round_trip (s : string) : Prop :=
  ∃ l, lineage_from_str s = Ok l ∧ lineage_to_str l = s.

(** A rank selector that names one of the seven ranks, or is a
    non-negative rank id. *)
Definition valid_rank (r : rank_arg) : Prop :=
  match r with
  | RInt i => (0 <= i)%Z
  | RStr s => s ∈ RANK
  | ROther => False
  end.

(** ** Arrays and tables *)

Section table_vocabulary.
Context {num : Type} `{Scalar num}.

(** Column [i] of an array, as [get_col] returns it. *)
Definition column (a : ndarray num) (i : nat) : list num :=
  (fun r => default zero (r !! i)) <$> rows a.

(** The accumulation of a list of (name, column) contributions. *)
Definition dd_accumulate (nrow : nat) (d cs : list (string * list num))
    : list (string * list num) :=
  foldl (fun d' p => dd_iadd nrow d' p.1 p.2) d cs.

(** The columns contributed under the name [k]. *)
Definition contributions (k : string) (cs : list (string * list num))
    : list (list num) :=
  (filter (fun p => p.1 = k) cs).*2.

(** The invariant that the constructors establish. *)
Definition wf_table (t : TaggedTable num) : Prop :=
  wf_ndarray (data t) ∧
  length (row_tag t) = nrows (data t) ∧
  length (col_tag t) = ncols (data t) ∧
  0 < nrows (data t).


End table_vocabulary.

Section aggregation_vocabulary.
Context {num : Type} `{Scalar num}.
Variables (t : TaggedTable num)
          (otu_tax_dict : gmap string MothurOtuTaxonomy)
          (tax_rank : rank_arg).

(** The resolved name under which an OTU is counted at the target rank:
    none when the OTU is unknown, or when its taxon at the rank is absent
    ([None], or a taxon with an empty name). *)
Definition classified (o : string) : option string :=
  match otu_tax_dict !! o with
  | Some rec =>
      match get_taxon_by_rank (taxonomy rec) tax_rank with
      | Ok (Some tax) =>
          if taxon_bool tax then Some (unique_taxon_name tax) else None
      | _ => None
      end
  | None => None
  end.

(** The (name, column) pairs of the classified OTUs among [otus], the
    OTUs of the columns [i], [i + 1], ... *)
Fixpoint otu_contributions (i : nat) (otus : list string)
    : list (string * list num) :=
  match otus with
  | [] => []
  | o :: otus' =>
      match classified o with
      | Some k => (k, column (data t) i) :: otu_contributions (S i) otus'
      | None => otu_contributions (S i) otus'
      end
  end.

(** The input columns of the OTUs that resolve to the name [k]. *)
Fixpoint columns_resolving_to (k : string) (i : nat) (otus : list string)
    : list (list num) :=
  match otus with
  | [] => []
  | o :: otus' =>
      if decide (classified o = Some k)
      then column (data t) i :: columns_resolving_to k (S i) otus'
      else columns_resolving_to k (S i) otus'
  end.

(** The elementwise sum of these columns, as the code accumulates it. *)
Definition column_sum (k : string) : list num :=
  foldl iadd (zeros (nrows (data t))) (columns_resolving_to k 0 (col_tag t)).

End aggregation_vocabulary.

(** ** Example inputs *)

(** The lineage of the scenario of the specification. *)
Definition scenario_lineage : MothurLineage :=
  [mkTaxonomy "Bacteria" 100 None;
   mkTaxonomy "uncultured" 80 (Some "Bacteria_phylum");
   mkTaxonomy "uncultured" 70 (Some "Bacteria_class")].

(** A lineage classified down to the genus [g] (the depth that mothur
    gives by default), with confidence [conf] at the genus. *)
Definition genus_lineage (g : string) (conf : Z) : MothurLineage :=
  [mkTaxonomy "Bacteria" 100 None; mkTaxonomy "Proteobacteria" 100 None;
   mkTaxonomy "Gammaproteobacteria" 100 None;
   mkTaxonomy "Pseudomonadales" 100 None; mkTaxonomy "Moraxellaceae" 100 None;
   mkTaxonomy g conf None].

(** The scenario of the specification: two samples, three OTUs, the
    first two of genus Alpha and the third of genus Beta. *)
Definition scenario_taxonomy : gmap string MothurOtuTaxonomy :=
  list_to_map
    [("Otu1", mkOtuTaxonomy "Otu1" 5 (genus_lineage "Alpha" 100));
     ("Otu2", mkOtuTaxonomy "Otu2" 7 (genus_lineage "Alpha" 100));
     ("Otu3", mkOtuTaxonomy "Otu3" 9 (genus_lineage "Beta" 100))].

(** Its count table, and a store that holds it. *)
Definition scenario_counts : TaggedTable Q :=
  mkTable ["s1"; "s2"] ["Otu1"; "Otu2"; "Otu3"]
    (mk_ndarray 3 [[1#1; 2#1; 3#1]; [4#1; 5#1; 6#1]])%Q
    (Some (["0.03"; "0.03"], [3%Z; 3%Z])).

Definition scenario_heap : gmap loc (TaggedTable Q) :=
  {[ 1%positive := scenario_counts ]}.

(** The same reference without its third OTU. *)
Definition scenario_taxonomy_short : gmap string MothurOtuTaxonomy :=
  list_to_map
    [("Otu1", mkOtuTaxonomy "Otu1" 5 (genus_lineage "Alpha" 100));
     ("Otu2", mkOtuTaxonomy "Otu2" 7 (genus_lineage "Alpha" 100))].

(** One sample and one OTU, of genus Alpha with confidence 85. *)
Definition low_confidence_taxonomy : gmap string MothurOtuTaxonomy :=
  list_to_map [("Otu1", mkOtuTaxonomy "Otu1" 7 (genus_lineage "Alpha" 85))].

(** A store with the count table of this OTU. *)
Definition low_confidence_heap : gmap loc (TaggedTable Q) :=
  {[ 1%positive :=
       mkTable ["s1"] ["Otu1"] (mk_ndarray 1 [[7#1]])%Q (Some (["0.03"], [1%Z])) ]}.



(** ** Vocabulary of the further properties *)

(** The number of occurrences of [c] in [s]. *)
Fixpoint count_char (c : ascii) (s : string) : nat :=
  match s with
  | EmptyString => 0
  | String a s' => (if Ascii.eqb a c then 1 else 0) + count_char c s'
  end.

(** A lineage of eight taxa, one more than there are ranks, whose last
    taxon is [uncultured]. *)
Definition eight_taxa : MothurLineage :=
  genus_lineage "Acinetobacter" 100
  ++ [mkTaxonomy "Acinetobacter_sp" 90 None; mkTaxonomy "uncultured" 80 None].

(** ** Lines of the taxonomy file *)

(** An OTU record that its line represents faithfully: a name without
    tabulation, and a lineage of one to seven taxa whose names have no
    semicolon, line break or tabulation and whose confidences are natural
    numbers. *)
Definition well_formed_record (r : MothurOtuTaxonomy) : Prop :=
  no_char tab (otu_name r) = true ∧
  taxonomy r ≠ [] ∧
  length (taxonomy r) <= length RANK ∧
  Forall (fun t => well_formed_segment (raw t) ∧
                   no_char tab (taxon_name t) = true) (taxonomy r).

(** The line is the header, up to trailing whitespace. *)
Definition is_header (line : string) : bool :=
  String.eqb (rstrip_ws line) taxonomy_header.

(** The record that a line of the file holds, if it is not the header
    and can be parsed. *)
Definition line_record (line : string) : option MothurOtuTaxonomy :=
  if is_header line then None
  else match otu_from_str (rstrip_ws line) with
       | Ok r => Some r
       | Err _ => None
       end.

(** A line that the reader accepts. *)
Definition readable (line : string) : Prop :=
  is_header line = true ∨ is_Some (line_record line).

(** The records of the lines, in the order of the file. *)
Definition records (lines : list string) : list MothurOtuTaxonomy :=
  omap line_record lines.

(** The record of the scenario's first OTU, and its line. *)
Definition scenario_record : MothurOtuTaxonomy :=
  mkOtuTaxonomy "Otu1" 5 (genus_lineage "Alpha" 100).

Definition scenario_line : string :=
  "Otu1" +:+ String tab ("5" +:+ String tab
    "Bacteria(100);Proteobacteria(100);Gammaproteobacteria(100);Pseudomonadales(100);Moraxellaceae(100);Alpha(100);").

(** A file with the header and two lines for the same OTU, the second of
    which is the line of the scenario. *)
Definition scenario_lines : list string :=
  [taxonomy_header +:+ String "010" "";
   "Otu1" +:+ String tab ("7" +:+ String tab "Archaea(90);") +:+ String "010" "";
   scenario_line +:+ String "010" ""].

(** The order of the keys that [argsort_Q] sorts: by value. *)
Definition key_le (x y : Q * nat) : Prop := Qle x.1 y.1.

Section numpy_vocabulary.
Context {num : Type} `{Scalar num}.

(** [argsort] lists the positions by ascending value, for the order [le]
    of the values: what numpy promises of it, with the order of the
    integers for int64 and, for float64, the order of the numbers
    followed by [nan]. *)
Definition ascending_argsort (le : num → num → Prop) : Prop :=
  ∀ (v : list num) (a b i i' : nat),
    a <= b → argsort v !! a = Some i → argsort v !! b = Some i' →
    ∃ x x', v !! i = Some x ∧ v !! i' = Some x' ∧ le x x'.

(** The addition of the data is associative and commutative, [zero] is
    neutral for it, and [sum] adds up with it. The int64 of numpy is so,
    also where it wraps around; float64, which rounds, is not. *)
Definition exact_addition : Prop :=
  (∀ x y z : num, add x (add y z) = add (add x y) z) ∧
  (∀ x y : num, add x y = add y x) ∧
  (∀ x : num, add zero x = x) ∧
  (∀ l : list num, sum l = foldr add zero l).

(** Entry [i] of a 1-D array, zero out of range. *)
Definition at_row (i : nat) (c : list num) : num := default zero (c !! i).

(** The entries that a row [r] of the table [t] holds for the OTUs that
    are classified at the rank. *)
Definition classified_entries (t : TaggedTable num)
    (otu_tax_dict : gmap string MothurOtuTaxonomy) (tax_rank : rank_arg)
    (r : list num) : list num :=
  (filter (fun p => is_Some (classified otu_tax_dict tax_rank p.1))
     (zip (col_tag t) r)).*2.

End numpy_vocabulary.

(** A table with one sample and no OTU, and a store that holds it. *)
Definition empty_table : TaggedTable Q :=
  mkTable ["s1"] [] (mk_ndarray 0 [[]]) (Some (["0.03"], [0%Z])).

Definition empty_heap : gmap loc (TaggedTable Q) :=
  {[ 1%positive := empty_table ]}.

(** The column, among the columns [i], [i + 1], ... with the tags
    [tags], that the loop of [_filter_taxons_by_list] copies last to the
    column [j] of the result. *)
Fixpoint last_source (order : gmap string nat) (i : nat) (tags : list string)
    (j : nat) : option nat :=
  match tags with
  | [] => None
  | tag :: tags' =>
      match last_source order (S i) tags' j with
      | Some p => Some p
      | None => if decide (order !! tag = Some j) then Some i else None
      end
  end.

(** * Properties *)

(** ** Strings *)

Lemma string_length_app (a b : string) :
  String.length (a +:+ b) = String.length a + String.length b.
Proof. induction a as [|c a IH]; simpl; [done|by rewrite IH]. Qed.

Lemma string_app_assoc (a b c : string) : (a +:+ b) +:+ c = a +:+ (b +:+ c).
Proof. induction a as [|x a IH]; simpl; [done|by rewrite IH]. Qed.

Lemma string_app_nil_r (a : string) : a +:+ "" = a.
Proof. induction a as [|x a IH]; simpl; [done|by rewrite IH]. Qed.

Lemma string_app_snoc (a : string) (c : ascii) (b : string) :
  (a +:+ String c "") +:+ b = a +:+ String c b.
Proof. by rewrite string_app_assoc. Qed.

Lemma substring_app_prefix (a b : string) :
  substring 0 (String.length a) (a +:+ b) = a.
Proof. induction a as [|c a IH]; simpl; [by destruct b|by rewrite IH]. Qed.

Lemma captured_app (a b : string) : Re.captured (a +:+ b) b = a.
Proof.
  unfold Re.captured. rewrite string_length_app.
  replace (String.length a + String.length b - String.length b)
    with (String.length a) by lia.
  apply substring_app_prefix.
Qed.

Lemma string_forall_app P a b :
  string_forall P (a +:+ b) = string_forall P a && string_forall P b.
Proof. induction a as [|c a IH]; simpl; [done|]. by rewrite IH, andb_assoc. Qed.

Lemma string_forall_impl (P Q : ascii → bool) s :
  (∀ a, P a = true → Q a = true) →
  string_forall P s = true → string_forall Q s = true.
Proof.
  intros HPQ. induction s as [|c s IH]; simpl; [done|].
  rewrite !andb_true_iff. intros [??]. auto.
Qed.

(** ** Decimal numerals *)

Lemma string_of_uint_digits (d : Decimal.uint) :
  string_forall Re.digit (NilEmpty.string_of_uint d) = true.
Proof. induction d; simpl; auto. Qed.

Lemma format_u_nonneg (n : Z) :
  (0 <= n)%Z →
  ∃ d, Z.to_int n = Decimal.Pos d ∧ d ≠ Decimal.Nil ∧
       format_u n = NilEmpty.string_of_uint d.
Proof.
  intros Hn. unfold format_u. destruct n as [|p|p]; [| |lia].
  - exists (Decimal.D0 Decimal.Nil). by repeat split.
  - exists (Pos.to_uint p). split; [done|]. split; [|done].
    apply DecimalPos.Unsigned.to_uint_nonnil.
Qed.

Lemma format_u_digits (n : Z) :
  (0 <= n)%Z → string_forall Re.digit (format_u n) = true.
Proof.
  intros (d & _ & _ & ->)%format_u_nonneg. apply string_of_uint_digits.
Qed.

Lemma format_u_nonempty (n : Z) :
  (0 <= n)%Z → ∃ a s, format_u n = String a s.
Proof.
  intros (d & _ & Hd & ->)%format_u_nonneg.
  destruct d; simpl; try done; eauto.
Qed.

Lemma int_of_digits_format_u (n : Z) :
  (0 <= n)%Z → int_of_digits (format_u n) = n.
Proof.
  intros Hn. destruct (format_u_nonneg n Hn) as (d & Hd & _ & ->).
  unfold int_of_digits. rewrite NilEmpty.usu.
  rewrite <- (DecimalZ.of_to n), Hd. done.
Qed.

(** ** The taxon pattern on a well-formed segment *)

Section tax_regex.
Variables (o : string) (ds : string).

Let k_name : nat → string → option (list string) :=
  fun p t => Re.run [Re.GroupClose; Re.Lit "("%char; Re.GroupOpen;
                     Re.Plus Re.digit; Re.GroupClose; Re.Lit ")"%char; Re.Eol]
               p [o] [] t.

Lemma k_name_no_paren pos t :
  string_forall (fun a => negb (Ascii.eqb a "("%char)) t = true →
  k_name pos t = None.
Proof.
  unfold k_name. destruct t as [|a t]; simpl; [done|].
  intros [Ha _]%andb_true_iff. by destruct (Ascii.eqb a "(").
Qed.

Lemma greedy_dot_no_paren pos t :
  string_forall (fun a => negb (Ascii.eqb a "("%char)) t = true →
  Re.greedy Re.dot k_name pos t = None.
Proof.
  revert pos. induction t as [|a t IH]; intros pos Ht.
  - by apply k_name_no_paren.
  - cbn [Re.greedy]. rewrite (k_name_no_paren pos (String a t) Ht).
    simpl in Ht. apply andb_true_iff in Ht as [_ Ht].
    rewrite (IH _ Ht). by destruct (Re.dot a).
Qed.

Lemma greedy_digits (c1 : string) pos pre t :
  string_forall Re.digit t = true →
  Re.greedy Re.digit
    (fun p u => Re.run [Re.GroupClose; Re.Lit ")"%char; Re.Eol] p
                  [pre +:+ t +:+ ")"] [c1] u)
    pos (t +:+ ")")
  = Some [c1; pre +:+ t].
Proof.
  revert pos pre. induction t as [|a t IH]; intros pos pre Ht.
  - simpl. rewrite <- (string_app_nil_r pre) at 2.
    change ")" with ("" +:+ ")") at 1.
    rewrite <- string_app_assoc, captured_app. by rewrite !string_app_nil_r.
  - simpl in Ht. apply andb_true_iff in Ht as [Ha Ht].
    cbn [Re.greedy append]. rewrite Ha.
    specialize (IH (S pos) (pre +:+ String a "") Ht).
    rewrite !string_app_snoc in IH. by rewrite IH.
Qed.
End tax_regex.

Lemma greedy_name (o ds : string) (d : ascii) (ds' : string) pre name pos :
  ds = String d ds' →
  string_forall Re.digit ds = true →
  string_forall Re.dot name = true →
  o = pre +:+ name +:+ "(" +:+ ds +:+ ")" →
  Re.greedy Re.dot
    (fun p t => Re.run [Re.GroupClose; Re.Lit "("%char; Re.GroupOpen;
                        Re.Plus Re.digit; Re.GroupClose; Re.Lit ")"%char; Re.Eol]
                  p [o] [] t)
    pos (name +:+ "(" +:+ ds +:+ ")")
  = Some [pre +:+ name; ds].
Proof.
  intros Hds Hdig. revert pre pos.
  induction name as [|a name IH]; intros pre pos Hname Ho.
  - change ("" +:+ "(" +:+ ds +:+ ")") with (String "("%char (ds +:+ ")")) in *.
    cbn [Re.greedy]. change (Re.dot "(") with true. cbv iota.
    rewrite greedy_dot_no_paren; last first.
    { rewrite string_forall_app, andb_true_iff. split; [|done].
      eapply string_forall_impl; [|exact Hdig].
      intros a. unfold Re.digit. destruct (Ascii.eqb_spec a "("); [by subst|done]. }
    cbn [Re.run]. change (Ascii.eqb "(" "(") with true. cbv iota.
    rewrite Ho, captured_app, string_app_nil_r.
    rewrite Hds in Hdig |- *. simpl in Hdig.
    apply andb_true_iff in Hdig as [Hd Hdig].
    cbn [append]. rewrite Hd.
    change (String d (ds' +:+ ")")) with (String d "" +:+ ds' +:+ ")").
    exact (greedy_digits pre (S (S pos)) (String d "") ds' Hdig).
  - simpl in Hname. apply andb_true_iff in Hname as [Ha Hname].
    change (String a name +:+ "(" +:+ ds +:+ ")")
      with (String a (name +:+ "(" +:+ ds +:+ ")")).
    cbn [Re.greedy]. rewrite Ha.
    rewrite (IH (pre +:+ String a "") (S pos) Hname).
    + by rewrite string_app_snoc.
    + by rewrite string_app_snoc.
Qed.

Lemma tax_regex_match (name ds : string) :
  string_forall Re.dot name = true →
  string_forall Re.digit ds = true →
  ds ≠ "" →
  Re.re_match TAX_REGEX (name +:+ "(" +:+ ds +:+ ")") = Some [name; ds].
Proof.
  intros Hname Hdig Hne. destruct ds as [|d ds']; [done|].
  exact (greedy_name _ _ d ds' "" name 0 eq_refl Hdig Hname eq_refl).
Qed.

(** A [name(conf)] segment parses to its name and confidence. *)
Lemma taxonomy_from_str_segment (name : string) (n : Z) :
  string_forall Re.dot name = true →
  (0 <= n)%Z →
  taxonomy_from_str (name +:+ "(" +:+ format_u n +:+ ")")
  = Ok (mkTaxonomy name n None).
Proof.
  intros Hname Hn. unfold taxonomy_from_str.
  replace (str_truthy (name +:+ "(" +:+ format_u n +:+ ")")) with true
    by (by destruct name).
  destruct (format_u_nonempty n Hn) as (a & s & Hfmt).
  rewrite tax_regex_match; [|done|by apply format_u_digits|by rewrite Hfmt].
  by rewrite int_of_digits_format_u.
Qed.

(** ** [rstrip], [split] and [join] *)

Lemma rstrip_snoc_same c s : rstrip c (s +:+ String c "") = rstrip c s.
Proof.
  induction s as [|a s IH]; simpl.
  - by rewrite Ascii.eqb_refl.
  - by rewrite IH.
Qed.

Lemma rstrip_snoc_other c x s :
  Ascii.eqb x c = false → rstrip c (s +:+ String x "") = s +:+ String x "".
Proof.
  intros Hx. induction s as [|a s IH]; simpl.
  - by rewrite Hx.
  - rewrite IH. by destruct s.
Qed.

Lemma split_no_char c s : no_char c s = true → split c s = [s].
Proof.
  induction s as [|a s IH]; simpl; [done|].
  intros [Ha Hs]%andb_true_iff. apply negb_true_iff in Ha.
  by rewrite Ha, IH.
Qed.

Lemma split_app_sep c a b :
  no_char c a = true → split c (a +:+ String c b) = a :: split c b.
Proof.
  induction a as [|x a IH]; simpl.
  - by rewrite Ascii.eqb_refl.
  - intros [Hx Ha]%andb_true_iff. apply negb_true_iff in Hx.
    by rewrite Hx, IH.
Qed.

Lemma split_join c (l : list string) :
  l ≠ [] → Forall (fun x => no_char c x = true) l →
  split c (join (String c "") l) = l.
Proof.
  induction l as [|x l IH]; [done|]. intros _ Hl.
  apply Forall_cons in Hl as [Hx Hl]. destruct l as [|y l].
  - simpl. by apply split_no_char.
  - change (join (String c "") (x :: y :: l))
      with (x +:+ String c (join (String c "") (y :: l))).
    rewrite split_app_sep by done. by rewrite IH.
Qed.

Lemma join_ends_with sep (x : ascii) (l : list string) :
  l ≠ [] → Forall (fun s => ∃ s', s = s' +:+ String x "") l →
  ∃ b, join sep l = b +:+ String x "".
Proof.
  induction l as [|s l IH]; [done|]. intros _ Hl.
  apply Forall_cons in Hl as [[s' ->] Hl]. destruct l as [|y l].
  - by exists s'.
  - destruct IH as [b Hb]; [done|done|].
    exists ((s' +:+ String x "") +:+ sep +:+ b).
    change (join sep ((s' +:+ String x "") :: y :: l))
      with ((s' +:+ String x "") +:+ sep +:+ join sep (y :: l)).
    by rewrite Hb, !string_app_assoc.
Qed.

(** ** The disambiguation walk *)

#[local] Arguments list_getitem : simpl never.

Lemma set_unique_taxon_names_unfold (self : MothurLineage) (_from : Z)
    (_last_known : option string) :
  set_unique_taxon_names self _from _last_known =
  match get_taxon_by_rank self (RInt _from) with
  | Err e => Err e
  | Ok None => Ok self
  | Ok (Some taxon) =>
      if negb (taxon_bool taxon) then Ok self
      else if String.prefix "uncultured" (taxon_name taxon)
      then
        match (if last_known_truthy _last_known
               then r ← list_getitem RANK _from;
                    Ok (default "" _last_known +:+ "_" +:+ r)
               else Ok "unknown") with
        | Err e => Err e
        | Ok uniq_name =>
            set_unique_taxon_names
              (<[list_index self _from := set_unique_taxon_name taxon uniq_name]> self)
              (_from + 1) _last_known
        end
      else set_unique_taxon_names self (_from + 1) (Some (taxon_name taxon))
  end.
Proof.
  rewrite set_unique_taxon_names_equation_1.
  destruct (inspect (get_taxon_by_rank self (RInt _from))) as [[[t|]|e] Hr].
  - rewrite set_unique_taxon_names_clause_1_equation_1. by rewrite Hr.
  - rewrite set_unique_taxon_names_clause_1_equation_2. by rewrite Hr.
  - rewrite set_unique_taxon_names_clause_1_equation_3. by rewrite Hr.
Qed.

Lemma list_getitem_app_middle {A} (pre : list A) (x : A) (rest : list A) :
  list_getitem (pre ++ x :: rest) (Z.of_nat (length pre)) = Ok x.
Proof.
  unfold list_getitem. rewrite length_app. simpl.
  destruct (Z.ltb_spec (Z.of_nat (length pre)) 0); [lia|].
  destruct (Z.leb_spec 0 (Z.of_nat (length pre))); [|lia].
  destruct (Z.ltb_spec (Z.of_nat (length pre))
              (Z.of_nat (length pre + S (length rest)))); [|lia].
  simpl. rewrite Nat2Z.id. by rewrite list_lookup_middle.
Qed.

Lemma get_taxon_by_rank_middle (pre : MothurLineage) t rest :
  get_taxon_by_rank (pre ++ t :: rest) (RInt (Z.of_nat (length pre)))
  = Ok (Some t).
Proof.
  simpl. unfold _get_by_id, depth.
  destruct (Z.ltb_spec (Z.of_nat (length pre))
              (Z.of_nat (length (pre ++ t :: rest)))) as [_|H].
  - by rewrite list_getitem_app_middle.
  - rewrite length_app in H. simpl in H. lia.
Qed.

Lemma get_taxon_by_rank_end (self : MothurLineage) :
  get_taxon_by_rank self (RInt (Z.of_nat (length self))) = Ok None.
Proof.
  simpl. unfold _get_by_id, depth.
  by destruct (Z.ltb_spec (Z.of_nat (length self)) (Z.of_nat (length self))); [lia|].
Qed.

Lemma set_unique_taxon_names_suffix (pre suf : MothurLineage) last :
  set_unique_taxon_names (pre ++ suf) (Z.of_nat (length pre)) last
  = (rest' ← resolve_suffix (length pre) last suf; Ok (pre ++ rest')).
Proof.
  revert pre last. induction suf as [|t rest IH]; intros pre last.
  - rewrite set_unique_taxon_names_unfold, app_nil_r.
    rewrite get_taxon_by_rank_end. simpl. by rewrite app_nil_r.
  - rewrite set_unique_taxon_names_unfold, get_taxon_by_rank_middle.
    cbn [resolve_suffix].
    destruct (negb (taxon_bool t)); [done|].
    assert (Hnext : (Z.of_nat (length pre) + 1)%Z
                    = Z.of_nat (length (pre ++ [t]))).
    { rewrite length_app. simpl. lia. }
    destruct (String.prefix "uncultured" (taxon_name t)).
    + destruct (if last_known_truthy last then _ else _) as [u|e]; [|done].
      assert (Hidx : list_index (pre ++ t :: rest) (Z.of_nat (length pre))
                     = length pre).
      { unfold list_index.
        destruct (Z.ltb_spec (Z.of_nat (length pre)) 0); lia. }
      rewrite Hidx, Hnext.
      replace (<[length pre:=set_unique_taxon_name t u]> (pre ++ t :: rest))
        with ((pre ++ [set_unique_taxon_name t u]) ++ rest).
      2:{ rewrite <- (Nat.add_0_r (length pre)), insert_app_r.
          by rewrite <- app_assoc. }
      rewrite length_app. simpl length at 2.
      replace (length pre + 1) with (length (pre ++ [set_unique_taxon_name t u]))
        by (by rewrite length_app).
      rewrite IH. rewrite length_app, Nat.add_1_r.
      destruct (resolve_suffix _ _ _); simpl; [|done].
      by rewrite <- app_assoc.
    + rewrite Hnext.
      replace (pre ++ t :: rest) with ((pre ++ [t]) ++ rest)
        by (by rewrite <- app_assoc).
      rewrite IH. rewrite length_app, Nat.add_1_r.
      destruct (resolve_suffix _ _ _); simpl; [|done].
      by rewrite <- app_assoc.
Qed.

Lemma set_unique_taxon_names_resolve (self : MothurLineage) :
  set_unique_taxon_names self 0 None = resolve_suffix 0 None self.
Proof.
  pose proof (set_unique_taxon_names_suffix [] self None) as H.
  simpl in H. change (Z.of_nat 0) with 0%Z in H.
  rewrite H. by destruct (resolve_suffix 0 None self).
Qed.

(** *** The rule of the specification, stated on the list of raw names *)

Lemma list_getitem_lookup {A} (l : list A) (i : nat) (x : A) :
  list_getitem l (Z.of_nat i) = Ok x → l !! i = Some x.
Proof.
  unfold list_getitem.
  destruct (Z.ltb_spec (Z.of_nat i) 0); [lia|].
  destruct (_ && _); [|done]. rewrite Nat2Z.id.
  destruct (l !! i); [|done]. by intros [= ->].
Qed.

Lemma list_getitem_lookup_lt {A} (l : list A) (i : nat) :
  i < length l → ∃ x, list_getitem l (Z.of_nat i) = Ok x.
Proof.
  intros Hi. unfold list_getitem.
  destruct (Z.ltb_spec (Z.of_nat i) 0); [lia|].
  destruct (Z.leb_spec 0 (Z.of_nat i)); [|lia].
  destruct (Z.ltb_spec (Z.of_nat i) (Z.of_nat (length l))); [|lia].
  simpl. rewrite Nat2Z.id.
  destruct (lookup_lt_is_Some_2 l i Hi) as [x ->]. eauto.
Qed.

Lemma last_known_name_snoc_uncultured names n :
  is_uncultured n = true →
  last_known_name (names ++ [n]) = last_known_name names.
Proof.
  intros Hn. unfold last_known_name. rewrite filter_app.
  rewrite (filter_cons_False _ n []) by (by rewrite Hn).
  by rewrite filter_nil, app_nil_r.
Qed.

Lemma last_known_name_snoc_known names n :
  is_uncultured n = false →
  last_known_name (names ++ [n]) = Some n.
Proof.
  intros Hn. unfold last_known_name. rewrite filter_app.
  rewrite (filter_cons_True _ n []) by done.
  by rewrite filter_nil, last_snoc.
Qed.

Lemma last_known_name_nonempty names k :
  Forall (fun n => n ≠ "") names →
  last_known_name names = Some k → str_truthy k = true.
Proof.
  intros Hne Hk.
  assert (k ∈ names) as Hin.
  { unfold last_known_name in Hk. apply last_Some in Hk as [l' Hl'].
    assert (k ∈ filter (λ n : string, is_uncultured n = false) names) as Hf
      by (rewrite Hl'; set_solver).
    by apply list_elem_of_filter in Hf as [_ ?]. }
  rewrite Forall_forall in Hne. specialize (Hne k Hin). by destruct k.
Qed.

Lemma taxon_bool_nonempty t : taxon_bool t = true → taxon_name t ≠ "".
Proof.
  unfold taxon_bool, is_empty_taxon. destruct (taxon_name t); [done|done].
Qed.

Lemma taxon_bool_empty t : taxon_bool t = false → taxon_name t = "".
Proof.
  unfold taxon_bool, is_empty_taxon. by destruct (taxon_name t).
Qed.

Lemma resolve_suffix_rule (pre_names : list string) (suf suf' : MothurLineage)
    (i : nat) (t : MothurTaxonomy) :
  Forall (fun n => n ≠ "") pre_names →
  resolve_suffix (length pre_names) (last_known_name pre_names) suf = Ok suf' →
  suf' !! i = Some t →
  Forall (fun t' => taxon_name t' ≠ "") (take i suf) →
  is_uncultured (taxon_name t) = true →
  Some (unique_taxon_name t)
  = rule_resolved_name (pre_names ++ (taxon_name <$> suf)) (length pre_names + i).
Proof.
  revert pre_names suf' i.
  induction suf as [|t0 rest IH]; intros pre_names suf' i Hpre Hres Hi Hne Hunc.
  { simpl in Hres. injection Hres as <-. done. }
  cbn [resolve_suffix] in Hres.
  destruct (taxon_bool t0) eqn:Hb0; simpl in Hres.
  2:{ injection Hres as <-. apply taxon_bool_empty in Hb0.
      destruct i as [|i]; simpl in *.
      - injection Hi as <-. by rewrite Hb0 in Hunc.
      - by apply Forall_cons in Hne as [? _]. }
  pose proof (taxon_bool_nonempty _ Hb0) as Hn0.
  assert (Hpre' : Forall (fun n => n ≠ "") (pre_names ++ [taxon_name t0])).
  { apply Forall_app. split; [done|]. by apply Forall_singleton. }
  assert (Hstep : ∀ i', rule_resolved_name
                    ((pre_names ++ [taxon_name t0]) ++ (taxon_name <$> rest))
                    (length (pre_names ++ [taxon_name t0]) + i')
                  = rule_resolved_name
                      (pre_names ++ (taxon_name <$> t0 :: rest))
                      (length pre_names + S i')).
  { intros i'. rewrite <- app_assoc, length_app. simpl.
    by replace (length pre_names + 1 + i') with (length pre_names + S i') by lia. }
  change (String.prefix "uncultured" (taxon_name t0))
    with (is_uncultured (taxon_name t0)) in Hres.
  replace (S (length pre_names)) with (length (pre_names ++ [taxon_name t0]))
    in Hres by (rewrite length_app; simpl; lia).
  destruct (is_uncultured (taxon_name t0)) eqn:Hu0.
  - pose proof (last_known_name_snoc_uncultured pre_names _ Hu0) as Hsnoc.
    destruct (last_known_name pre_names) as [k|] eqn:Hk.
    + pose proof (last_known_name_nonempty _ _ Hpre Hk) as Hkne.
      cbn [last_known_truthy] in Hres. rewrite Hkne in Hres.
      destruct (list_getitem RANK (Z.of_nat (length pre_names))) as [r|e] eqn:Hr;
        simpl in Hres; [|done].
      apply list_getitem_lookup in Hr.
      rewrite <- Hsnoc in Hres.
      destruct (resolve_suffix _ _ rest) as [rest'|] eqn:Hrest; simpl in Hres;
        [|done].
      injection Hres as <-. destruct i as [|i]; simpl in Hi.
      * injection Hi as <-. unfold rule_resolved_name.
        rewrite Nat.add_0_r, take_app_length, Hk, Hr. simpl.
        unfold unique_taxon_name. simpl. by destruct k.
      * rewrite <- Hstep. apply (IH _ rest'); try done.
        simpl in Hne. by apply Forall_cons in Hne as [_ ?].
    + cbn [last_known_truthy] in Hres. rewrite <- Hsnoc in Hres.
      destruct (resolve_suffix _ _ rest) as [rest'|] eqn:Hrest; simpl in Hres;
        [|done].
      injection Hres as <-. destruct i as [|i]; simpl in Hi.
      * injection Hi as <-. unfold rule_resolved_name.
        by rewrite Nat.add_0_r, take_app_length, Hk.
      * rewrite <- Hstep. apply (IH _ rest'); try done.
        simpl in Hne. by apply Forall_cons in Hne as [_ ?].
  - rewrite <- (last_known_name_snoc_known pre_names (taxon_name t0) Hu0) in Hres.
    destruct (resolve_suffix _ _ rest) as [rest'|] eqn:Hrest; simpl in Hres;
      [|done].
    injection Hres as <-. destruct i as [|i]; simpl in Hi.
    + injection Hi as <-. by rewrite Hu0 in Hunc.
    + rewrite <- Hstep. apply (IH _ rest'); try done.
      simpl in Hne. by apply Forall_cons in Hne as [_ ?].
Qed.

(** The walk only writes [_uniq_name]: it keeps the length, the raw names
    and the confidences. *)
Lemma resolve_suffix_raw (f : nat) last (suf suf' : MothurLineage) :
  resolve_suffix f last suf = Ok suf' → raw <$> suf' = raw <$> suf.
Proof.
  revert f last suf'. induction suf as [|t0 rest IH]; intros f last suf' Hres.
  { simpl in Hres. by injection Hres as <-. }
  cbn [resolve_suffix] in Hres.
  destruct (negb (taxon_bool t0)); [by injection Hres as <-|].
  destruct (String.prefix "uncultured" (taxon_name t0)).
  - destruct (if last_known_truthy last then _ else _) as [u|e]; [|done].
    destruct (resolve_suffix _ _ rest) as [rest'|] eqn:Hrest; simpl in Hres;
      [|done].
    injection Hres as <-. by rewrite !fmap_cons, (IH _ _ _ Hrest).
  - destruct (resolve_suffix _ _ rest) as [rest'|] eqn:Hrest; simpl in Hres;
      [|done].
    injection Hres as <-. by rewrite !fmap_cons, (IH _ _ _ Hrest).
Qed.

Lemma resolve_suffix_names (f : nat) last (suf suf' : MothurLineage) :
  resolve_suffix f last suf = Ok suf' →
  taxon_name <$> suf' = taxon_name <$> suf.
Proof.
  intros Hres%resolve_suffix_raw.
  change taxon_name with (fst ∘ raw). by rewrite !list_fmap_compose, Hres.
Qed.

(** A second walk over the result of a first one changes nothing. *)
Lemma resolve_suffix_idempotent (f : nat) last (suf suf' : MothurLineage) :
  resolve_suffix f last suf = Ok suf' →
  resolve_suffix f last suf' = Ok suf'.
Proof.
  revert f last suf'. induction suf as [|t0 rest IH]; intros f last suf' Hres.
  { simpl in Hres. by injection Hres as <-. }
  cbn [resolve_suffix] in Hres.
  destruct (negb (taxon_bool t0)) eqn:Hb0.
  { injection Hres as <-. cbn [resolve_suffix]. by rewrite Hb0. }
  destruct (String.prefix "uncultured" (taxon_name t0)) eqn:Hu0.
  - destruct (if last_known_truthy last then _ else _) as [u|e] eqn:Hu; [|done].
    destruct (resolve_suffix _ _ rest) as [rest'|] eqn:Hrest; simpl in Hres;
      [|done].
    injection Hres as <-. cbn [resolve_suffix].
    change (taxon_bool (set_unique_taxon_name t0 u)) with (taxon_bool t0).
    change (taxon_name (set_unique_taxon_name t0 u)) with (taxon_name t0).
    rewrite Hb0, Hu0, Hu, (IH _ _ _ Hrest). done.
  - destruct (resolve_suffix _ _ rest) as [rest'|] eqn:Hrest; simpl in Hres;
      [|done].
    injection Hres as <-. cbn [resolve_suffix].
    rewrite Hb0, Hu0, (IH _ _ _ Hrest). done.
Qed.

(** Within the seven ranks the walk cannot fail. *)
Lemma resolve_suffix_total (f : nat) last (suf : MothurLineage) :
  f + length suf <= length RANK →
  ∃ suf', resolve_suffix f last suf = Ok suf'.
Proof.
  change (length RANK) with 7.
  revert f last. induction suf as [|t0 rest IH]; intros f last Hlen.
  { by eexists. }
  simpl in Hlen. cbn [resolve_suffix].
  destruct (negb (taxon_bool t0)); [by eexists|].
  destruct (String.prefix "uncultured" (taxon_name t0)).
  - destruct (list_getitem_lookup_lt RANK f) as [r Hr];
      [change (length RANK) with 7; lia|].
    rewrite Hr. destruct (IH (S f) last) as [rest' ->]; [lia|].
    destruct (last_known_truthy last); simpl; by eexists.
  - destruct (IH (S f) (Some (taxon_name t0))) as [rest' ->]; [lia|].
    simpl. by eexists.
Qed.

(** Taxa the walk does not rename keep their raw name as resolved name:
    those whose name does not start with [uncultured], and those at or
    after the first taxon with an empty name. *)
Lemma resolve_suffix_unresolved (f : nat) last (suf suf' : MothurLineage)
    (i : nat) (t : MothurTaxonomy) :
  Forall (fun t' => _uniq_name t' = None) suf →
  resolve_suffix f last suf = Ok suf' →
  suf' !! i = Some t →
  is_uncultured (taxon_name t) = false ∨
  Exists (fun t' => taxon_name t' = "") (take (S i) suf) →
  unique_taxon_name t = taxon_name t.
Proof.
  revert f last suf' i.
  induction suf as [|t0 rest IH]; intros f last suf' i Hfresh Hres Hi Hcase.
  { simpl in Hres. by injection Hres as <-. }
  apply Forall_cons in Hfresh as [Hf0 Hfresh].
  assert (Hraw : ∀ j t', (t0 :: rest) !! j = Some t' →
                         unique_taxon_name t' = taxon_name t').
  { intros j t' Hj. apply list_elem_of_lookup_2 in Hj.
    assert (_uniq_name t' = None) as Hn.
    { apply elem_of_cons in Hj as [->|Hj]; [done|].
      rewrite Forall_forall in Hfresh. by apply Hfresh. }
    unfold unique_taxon_name. by rewrite Hn. }
  cbn [resolve_suffix] in Hres.
  destruct (taxon_bool t0) eqn:Hb0; simpl in Hres.
  2:{ injection Hres as <-. by eapply Hraw. }
  pose proof (taxon_bool_nonempty _ Hb0) as Hn0.
  assert (Htail : ∀ i', is_uncultured (taxon_name t) = false ∨
             Exists (fun t' => taxon_name t' = "") (take (S (S i')) (t0 :: rest)) →
             is_uncultured (taxon_name t) = false ∨
             Exists (fun t' => taxon_name t' = "") (take (S i') rest)).
  { intros i' [?|Hex]; [by left|right].
    rewrite firstn_cons in Hex. by apply Exists_cons in Hex as [?|?]. }
  change (String.prefix "uncultured" (taxon_name t0))
    with (is_uncultured (taxon_name t0)) in Hres.
  destruct (is_uncultured (taxon_name t0)) eqn:Hu0.
  - destruct (if last_known_truthy last then _ else _) as [u|e]; [|done].
    destruct (resolve_suffix _ _ rest) as [rest'|] eqn:Hrest; simpl in Hres;
      [|done].
    injection Hres as <-. destruct i as [|i]; simpl in Hi.
    + injection Hi as <-. simpl in Hcase. destruct Hcase as [Hc|Hc].
      * by rewrite Hu0 in Hc.
      * apply Exists_cons in Hc as [?|Hc]; [done|]. by apply Exists_nil in Hc.
    + eapply IH; eauto.
  - destruct (resolve_suffix _ _ rest) as [rest'|] eqn:Hrest; simpl in Hres;
      [|done].
    injection Hres as <-. destruct i as [|i]; simpl in Hi.
    + injection Hi as <-. by apply (Hraw 0).
    + eapply IH; eauto.
Qed.

(** Parsing the segments yields taxa without [_uniq_name]. *)
Lemma taxonomy_from_str_fresh s t :
  taxonomy_from_str s = Ok t → _uniq_name t = None.
Proof.
  unfold taxonomy_from_str. destruct (negb (str_truthy s)).
  - by intros [= <-].
  - destruct (Re.re_match TAX_REGEX s) as [[|g1 [|g2 [|]]]|]; try done.
    by intros [= <-].
Qed.

Lemma map_result_fresh (sp : list string) (l : MothurLineage) :
  map_result taxonomy_from_str sp = Ok l →
  Forall (fun t => _uniq_name t = None) l.
Proof.
  revert l. induction sp as [|s sp IH]; intros l Hl; simpl in Hl.
  { by injection Hl as <-. }
  destruct (taxonomy_from_str s) as [t|] eqn:Ht; simpl in Hl; [|done].
  destruct (map_result taxonomy_from_str sp) as [l'|]; simpl in Hl; [|done].
  injection Hl as <-. constructor; [by eapply taxonomy_from_str_fresh|by apply IH].
Qed.

(** What [lineage_from_str] computes, in terms of the walk on the suffix. *)
Lemma lineage_from_str_inv (s : string) (l : MothurLineage) :
  lineage_from_str s = Ok l →
  ∃ new, map_result taxonomy_from_str (split ";"%char (rstrip ";"%char s)) = Ok new ∧
         resolve_suffix 0 None new = Ok l.
Proof.
  unfold lineage_from_str.
  destruct (map_result _ _) as [new|]; simpl; [|done].
  rewrite set_unique_taxon_names_resolve. eauto.
Qed.

(** ** Rank lookup *)

Lemma RANK_ID_None (name : string) : name ∉ RANK → RANK_ID !! name = None.
Proof.
  intros Hn. unfold RANK_ID. apply not_elem_of_list_to_map_1.
  by change ((imap (λ (i : nat) (v : string), (v, Z.of_nat i)) RANK).*1) with RANK.
Qed.

Lemma RANK_ID_Some (name : string) (i : nat) :
  RANK !! i = Some name → RANK_ID !! name = Some (Z.of_nat i).
Proof.
  intros Hi. do 7 (destruct i as [|i]; [by injection Hi as <-|]). done.
Qed.

(** ** Taxonomy claims *)

(** C8. Looking a taxon up by a rank name outside the seven rank names
    raises the error for an invalid rank name (a [ValueError] whose
    message says so); looking up by an integer rank id at or beyond the
    depth of the lineage, or by the name of such a rank, returns [None]
    (the absent taxon) and raises nothing. *)
Theorem get_taxon_by_rank_invalid_or_absent (self : MothurLineage) :
  (∀ name, name ∉ RANK →
     get_taxon_by_rank self (RStr name)
     = Err (ValueError ("invalid rank name: '" +:+ name +:+ "'"))) ∧
  (∀ i : Z, (depth self <= i)%Z → get_taxon_by_rank self (RInt i) = Ok None) ∧
  (∀ name (i : nat), RANK !! i = Some name → length self <= i →
     get_taxon_by_rank self (RStr name) = Ok None).
Proof.
  repeat split.
  - intros name Hn. simpl. unfold _get_by_name. by rewrite RANK_ID_None.
  - intros i Hi. simpl. unfold _get_by_id.
    by destruct (Z.ltb_spec i (depth self)); [lia|].
  - intros name i Hname Hi. simpl. unfold _get_by_name, _get_by_id, depth.
    rewrite (RANK_ID_Some name i Hname).
    by destruct (Z.ltb_spec (Z.of_nat i) (Z.of_nat (length self))); [lia|].
Qed.

Lemma get_taxon_by_rank_invalid_or_absent_witness :
  get_taxon_by_rank (genus_lineage "Acinetobacter" 100) (RStr "strain")
  = Err (ValueError "invalid rank name: 'strain'") ∧
  get_taxon_by_rank (genus_lineage "Acinetobacter" 100) (RInt 6) = Ok None ∧
  get_taxon_by_rank (genus_lineage "Acinetobacter" 100) (RStr "species") = Ok None.
Proof.
  destruct (get_taxon_by_rank_invalid_or_absent (genus_lineage "Acinetobacter" 100))
    as (Hname & Hint & Hdeep).
  split; [|split].
  - apply (Hname "strain"). apply (bool_decide_unpack _). by vm_compute.
  - apply (Hint 6%Z). unfold depth. simpl. lia.
  - apply (Hdeep "species" 6); [reflexivity|simpl; lia].
Defined.

Lemma Forall_take_names (i : nat) (l l' : MothurLineage) :
  taxon_name <$> l = taxon_name <$> l' →
  Forall (fun t => taxon_name t ≠ "") (take i l) →
  Forall (fun t => taxon_name t ≠ "") (take i l').
Proof.
  intros Hnames H.
  apply (Forall_fmap taxon_name (fun n => n ≠ "")).
  apply (Forall_fmap taxon_name (fun n => n ≠ "")) in H.
  by rewrite fmap_take, <- Hnames, <- fmap_take.
Qed.

Lemma Exists_take_names (i : nat) (l l' : MothurLineage) :
  taxon_name <$> l = taxon_name <$> l' →
  Exists (fun t => taxon_name t = "") (take i l) →
  Exists (fun t => taxon_name t = "") (take i l').
Proof.
  intros Hnames H.
  apply (Exists_fmap taxon_name (fun n => n = "")).
  apply (Exists_fmap taxon_name (fun n => n = "")) in H.
  by rewrite fmap_take, <- Hnames, <- fmap_take.
Qed.

(** The rule on the part of a lineage that the walk reaches. For every
    lineage obtained by parsing, the walk goes through the ranks in order
    up to the first taxon with an empty name: a taxon before that point
    whose raw name starts with
    [uncultured] gets the most recent earlier name that does not start
    with [uncultured], followed by an underscore and the name of its own
    rank, or [unknown] when there is no such earlier name; every other
    taxon (one whose name does not start with [uncultured], or one at or
    after the first empty name) keeps its raw name as resolved name. The
    scenario resolves to [Bacteria_phylum] and [Bacteria_class]. *)
Theorem set_unique_taxon_names_rule (s : string) (l : MothurLineage) :
  lineage_from_str s = Ok l →
  (∀ i t, l !! i = Some t →
     Forall (fun t' => taxon_name t' ≠ "") (take i l) →
     is_uncultured (taxon_name t) = true →
     Some (unique_taxon_name t) = rule_resolved_name (taxon_name <$> l) i) ∧
  (∀ i t, l !! i = Some t →
     is_uncultured (taxon_name t) = false ∨
     Exists (fun t' => taxon_name t' = "") (take (S i) l) →
     unique_taxon_name t = taxon_name t) ∧
  lineage_from_str "Bacteria(100);uncultured(80);uncultured(70);"
  = Ok scenario_lineage.
Proof.
  intros (new & Hnew & Hres)%lineage_from_str_inv.
  pose proof (resolve_suffix_names _ _ _ _ Hres) as Hnames.
  split; [|split].
  - intros i t Hi Hne Hunc. rewrite Hnames.
    apply (resolve_suffix_rule [] new l i t); try done.
    by apply (Forall_take_names i l new).
  - intros i t Hi Hcase.
    apply (resolve_suffix_unresolved 0 None new l i t); try done.
    + by eapply map_result_fresh.
    + destruct Hcase as [?|Hex]; [by left|right].
      by apply (Exists_take_names (S i) l new).
  - by vm_compute.
Qed.

Lemma set_unique_taxon_names_rule_witness :
  Some "Bacteria_class"
  = rule_resolved_name ["Bacteria"; "uncultured"; "uncultured"] 2.
Proof.
  assert (Hparse : lineage_from_str "Bacteria(100);uncultured(80);uncultured(70);"
                   = Ok scenario_lineage) by (by vm_compute).
  destruct (set_unique_taxon_names_rule _ _ Hparse) as (Hrule & _ & _).
  apply (Hrule 2 (mkTaxonomy "uncultured" 70 (Some "Bacteria_class")));
    [reflexivity| |reflexivity].
  repeat constructor; discriminate.
Defined.

(** C3, on the code. The walk of [set_unique_taxon_names] ends at the
    first falsy taxon, which the comment of the guard expects to be
    [None] but which is also a taxon with an empty name: parsing
    [Bacteria(100);;uncultured(80);] gives the three taxa of the string,
    the walk stops at rank 1, and the taxon at rank 2, whose raw name is
    [uncultured], is left without a resolved name of its own, so that
    its resolved name is [uncultured] and the lineage does not follow
    the rule of the claim. *)
Theorem uncultured_after_empty_name_not_resolved :
  ∃ l, lineage_from_str "Bacteria(100);;uncultured(80);" = Ok l ∧
       l !! 2 = Some (mkTaxonomy "uncultured" 80 None) ∧
       unique_taxon_name <$> l = ["Bacteria"; ""; "uncultured"] ∧
       ¬ resolved_by_rule l.
Proof.
  exists [mkTaxonomy "Bacteria" 100 None; mkTaxonomy "" 0 None;
          mkTaxonomy "uncultured" 80 None].
  split; [by vm_compute|]. split; [done|]. split; [done|].
  intros H. specialize (H 2 _ eq_refl eq_refl). vm_compute in H. discriminate.
Qed.

(** C9. Running the disambiguation a second time on a parsed (hence
    already resolved) lineage succeeds and returns the same lineage, so
    every resolved name is the one of the first run. *)
Theorem set_unique_taxon_names_idempotent (s : string) (l : MothurLineage) :
  lineage_from_str s = Ok l →
  ∃ l', set_unique_taxon_names l 0 None = Ok l' ∧
        unique_taxon_name <$> l' = unique_taxon_name <$> l ∧ l' = l.
Proof.
  intros (new & _ & Hres)%lineage_from_str_inv. exists l.
  rewrite set_unique_taxon_names_resolve.
  by rewrite (resolve_suffix_idempotent _ _ _ _ Hres).
Qed.

Lemma set_unique_taxon_names_idempotent_witness :
  ∃ l', set_unique_taxon_names scenario_lineage 0 None = Ok l' ∧
        unique_taxon_name <$> l' = ["Bacteria"; "Bacteria_phylum"; "Bacteria_class"] ∧
        l' = scenario_lineage.
Proof.
  apply (set_unique_taxon_names_idempotent
           "Bacteria(100);uncultured(80);uncultured(70);").
  by vm_compute.
Defined.

Lemma rstrip_semicolons (s : string) (n : nat) :
  rstrip ";"%char (s +:+ semicolons n) = rstrip ";"%char s.
Proof.
  revert s. induction n as [|n IH]; intros s; simpl.
  - by rewrite string_app_nil_r.
  - rewrite <- string_app_snoc, IH. apply rstrip_snoc_same.
Qed.

(** C10. Parsing [s] and parsing [s] followed by a semicolon give the
    same result (the same lineage, or the same error), and so does [s]
    followed by any number of semicolons: [rstrip] removes them all before
    the split. *)
Theorem lineage_from_str_trailing_semicolons (s : string) :
  lineage_from_str (s +:+ ";") = lineage_from_str s ∧
  ∀ n, lineage_from_str (s +:+ semicolons n) = lineage_from_str s.
Proof.
  assert (H : ∀ n, lineage_from_str (s +:+ semicolons n) = lineage_from_str s).
  { intros n. unfold lineage_from_str. by rewrite rstrip_semicolons. }
  split; [exact (H 1)|exact H].
Qed.

(** ** Round trip through the lineage string *)

Lemma no_char_segment_str (p : string * Z) :
  well_formed_segment p → no_char ";"%char (segment_str p) = true.
Proof.
  intros (Hname & _ & Hconf). unfold segment_str, no_char in *.
  rewrite !string_forall_app, Hname. simpl.
  rewrite andb_true_r.
  eapply string_forall_impl; [|by apply format_u_digits].
  intros a. unfold Re.digit. by destruct (Ascii.eqb_spec a ";") as [->|].
Qed.

Lemma segment_str_ends (p : string * Z) :
  ∃ s', segment_str p = s' +:+ String ")"%char "".
Proof.
  exists (p.1 +:+ "(" +:+ format_u p.2). unfold segment_str.
  by rewrite !string_app_assoc.
Qed.

Lemma map_result_segments (segs : list (string * Z)) :
  Forall well_formed_segment segs →
  map_result taxonomy_from_str (segment_str <$> segs)
  = Ok ((fun p => mkTaxonomy p.1 p.2 None) <$> segs).
Proof.
  induction 1 as [|p segs (_ & Hdot & Hconf) _ IH]; [done|].
  rewrite !fmap_cons. cbn [map_result].
  rewrite (taxonomy_from_str_segment p.1 p.2 Hdot Hconf
           : taxonomy_from_str (segment_str p) = _).
  simpl. by rewrite IH.
Qed.

Lemma lineage_to_str_raw (l : MothurLineage) :
  lineage_to_str l = lineage_str (raw <$> l).
Proof.
  unfold lineage_to_str, lineage_str. by rewrite <- list_fmap_compose.
Qed.

(** C6, as the code has it. For a lineage string made of one to seven
    segments [name(conf);], with names free of semicolons and line breaks
    and confidences written in canonical decimal, parsing succeeds and
    serializing the parsed lineage gives the string back; the parsed taxa
    carry exactly the raw names and confidences of the segments (resolved
    names do not appear in the string). *)
Theorem lineage_str_round_trip (segs : list (string * Z)) :
  segs ≠ [] →
  length segs <= length RANK →
  Forall well_formed_segment segs →
  ∃ l, lineage_from_str (lineage_str segs) = Ok l ∧
       lineage_to_str l = lineage_str segs ∧
       raw <$> l = segs.
Proof.
  intros Hne Hlen Hwf. unfold lineage_from_str, lineage_str.
  assert (Hne' : segment_str <$> segs ≠ []) by (by destruct segs).
  rewrite (rstrip_snoc_same ";"%char).
  destruct (join_ends_with ";" ")"%char (segment_str <$> segs)) as [b Hb];
    [done| |].
  { apply Forall_fmap, Forall_forall. intros p _. apply segment_str_ends. }
  rewrite Hb, rstrip_snoc_other by done. rewrite <- Hb.
  rewrite split_join; [|done|].
  2:{ apply Forall_fmap. eapply Forall_impl; [exact Hwf|].
      intros p Hp. by apply no_char_segment_str. }
  rewrite map_result_segments by done. simpl.
  rewrite set_unique_taxon_names_resolve.
  destruct (resolve_suffix_total 0 None
              ((fun p => mkTaxonomy p.1 p.2 None) <$> segs)) as [l Hl].
  { by rewrite length_fmap. }
  exists l. split; [done|].
  assert (Hraw : raw <$> l = segs).
  { rewrite (resolve_suffix_raw _ _ _ _ Hl), <- list_fmap_compose.
    rewrite <- (list_fmap_id segs) at 2. apply list_fmap_ext.
    by intros i [name conf] _. }
  split; [|done]. by rewrite lineage_to_str_raw, Hraw.
Qed.

Lemma lineage_str_round_trip_witness :
  ∃ l, lineage_from_str "Bacteria(100);uncultured(80);uncultured(70);" = Ok l ∧
       lineage_to_str l = "Bacteria(100);uncultured(80);uncultured(70);" ∧
       raw <$> l = [("Bacteria", 100%Z); ("uncultured", 80%Z); ("uncultured", 70%Z)].
Proof.
  apply (lineage_str_round_trip
           [("Bacteria", 100%Z); ("uncultured", 80%Z); ("uncultured", 70%Z)]).
  - discriminate.
  - simpl. lia.
  - repeat constructor; simpl; lia.
Defined.

(** C6 as stated fails: a confidence written with leading zeros is a
    valid [name(int)] segment for the parser, and serialization prints the
    integer without them. *)
Lemma leading_zeros_not_restored :
  Re.re_match TAX_REGEX "Bacteria(007)" = Some ["Bacteria"; "007"] ∧
  lineage_from_str "Bacteria(007);" = Ok [mkTaxonomy "Bacteria" 7 None] ∧
  lineage_to_str [mkTaxonomy "Bacteria" 7 None] = "Bacteria(7);" ∧
  ¬ round_trip "Bacteria(007);".
Proof.
  split; [by vm_compute|]. split; [by vm_compute|]. split; [by vm_compute|].
  intros (l & Hl & Hstr).
  assert (Hparse : lineage_from_str "Bacteria(007);"
                   = Ok [mkTaxonomy "Bacteria" 7 None]) by (by vm_compute).
  rewrite Hparse in Hl. injection Hl as <-. vm_compute in Hstr. discriminate.
Qed.

Lemma bind_Ok {A B} (a : A) (k : A → result B) : (Ok a ≫= k) = k a.
Proof. done. Qed.

Lemma bind_Err {A B} (e : exn) (k : A → result B) : (Err e ≫= k) = Err e.
Proof. done. Qed.

(** ** Arrays *)

Section array_facts.
Context {num : Type} `{Scalar num}.

Lemma get_col_column (a : ndarray num) (i : nat) :
  i < ncols a → get_col a i = Ok (column a i).
Proof.
  intros Hi. unfold get_col.
  by destruct (Nat.ltb_spec i (ncols a)); [|lia].
Qed.

Lemma length_column (a : ndarray num) (i : nat) :
  length (column a i) = nrows a.
Proof. unfold column, nrows. by rewrite length_fmap. Qed.

Lemma length_iadd (u v : list num) (n : nat) :
  length u = n → length v = n → length (iadd u v) = n.
Proof. intros Hu Hv. unfold iadd. rewrite length_zip_with. lia. Qed.

Lemma length_zeros (n : nat) : length (zeros (num := num) n) = n.
Proof. apply length_replicate. Qed.

Lemma wf_zeros2 (nrow ncol : nat) :
  wf_ndarray (zeros2 (num := num) nrow ncol) ∧
  nrows (zeros2 (num := num) nrow ncol) = nrow ∧
  ncols (zeros2 (num := num) nrow ncol) = ncol.
Proof.
  unfold wf_ndarray, nrows, zeros2. simpl. split; [|split; [|done]].
  - apply Forall_replicate. apply length_zeros.
  - apply length_replicate.
Qed.

(** Storing a column. *)
Lemma column_store_eq (rs : list (list num)) (v : list num) (i n : nat) :
  Forall (fun r => length r = n) rs → i < n → length v = length rs →
  (fun r => default zero (r !! i)) <$> zip_with (fun r x => <[i := x]> r) rs v
  = v.
Proof.
  intros Hwf Hi. revert v.
  induction Hwf as [|r rs Hr _ IH]; intros [|x v] Hlen; try done.
  simpl in *. rewrite list_lookup_insert_eq by lia. simpl.
  rewrite IH; [done|lia].
Qed.

Lemma column_store_ne (rs : list (list num)) (v : list num) (i j : nat) :
  i ≠ j → length v = length rs →
  (fun r => default zero (r !! j)) <$> zip_with (fun r x => <[i := x]> r) rs v
  = (fun r => default zero (r !! j)) <$> rs.
Proof.
  intros Hij. revert v.
  induction rs as [|r rs IH]; intros [|x v] Hlen; try done.
  simpl in *. rewrite list_lookup_insert_ne by done.
  rewrite IH; [done|lia].
Qed.

Lemma set_col_spec (a : ndarray num) (i : nat) (v : list num) :
  wf_ndarray a → i < ncols a → length v = nrows a →
  ∃ a', set_col a i v = Ok a' ∧ wf_ndarray a' ∧
        nrows a' = nrows a ∧ ncols a' = ncols a ∧
        column a' i = v ∧ ∀ j, j ≠ i → column a' j = column a j.
Proof.
  intros Hwf Hi Hv. unfold set_col.
  destruct (Nat.ltb_spec i (ncols a)); [|lia]. simpl.
  rewrite Hv, Nat.eqb_refl. simpl. eexists. split; [done|].
  unfold wf_ndarray, nrows, column in *. simpl. repeat split.
  - clear Hi. revert v Hv.
    induction Hwf as [|r rs Hr _ IH]; intros [|x v] Hv; simpl; try done.
    constructor; [by rewrite length_insert|]. apply IH. simpl in Hv. lia.
  - rewrite length_zip_with. lia.
  - by eapply column_store_eq.
  - intros j Hj. by apply column_store_ne.
Qed.

(** Fancy indexing with in-range positions. *)
Lemma take_idx_spec {A} (l : list A) (idx : list nat) :
  Forall (fun i => i < length l) idx →
  ∃ l', take_idx l idx = Ok l' ∧ length l' = length idx ∧
        ∀ j i, idx !! j = Some i → l' !! j = l !! i.
Proof.
  induction 1 as [|i idx Hi _ (l' & Hl' & Hlen & Hlk)].
  { exists []. by repeat split. }
  destruct (lookup_lt_is_Some_2 l i Hi) as [x Hx].
  exists (x :: l'). unfold take_idx in *. cbn [map_result].
  rewrite Hx, Hl'. simpl. repeat split; [by rewrite Hlen|].
  intros [|j] i'; simpl; [by intros [= <-]|]. apply Hlk.
Qed.

Lemma take_cols_spec (a : ndarray num) (idx : list nat) :
  wf_ndarray a → Forall (fun i => i < ncols a) idx →
  ∃ a', take_cols a idx = Ok a' ∧ wf_ndarray a' ∧
        nrows a' = nrows a ∧ ncols a' = length idx ∧
        ∀ j i, idx !! j = Some i → column a' j = column a i.
Proof.
  intros Hwf Hidx. unfold take_cols.
  assert (∃ rs, map_result (fun r => take_idx r idx) (rows a) = Ok rs ∧
                Forall (fun r => length r = length idx) rs ∧
                length rs = length (rows a) ∧
                ∀ j i, idx !! j = Some i →
                  (fun r => default zero (r !! j)) <$> rs
                  = (fun r => default zero (r !! i)) <$> rows a)
    as (rs & -> & Hrs & Hlen & Hcol).
  { unfold wf_ndarray in Hwf.
    induction Hwf as [|r rs Hr _ (rs' & Hrs' & Hwf' & Hlen' & Hcol')].
    { exists []. by repeat split. }
    destruct (take_idx_spec r idx) as (r' & Hr' & Hlr' & Hlk').
    { by rewrite Hr. }
    exists (r' :: rs'). split; [cbn [map_result]; by rewrite Hr', Hrs'|].
    split; [by constructor|]. split; [simpl; by rewrite Hlen'|].
    intros j i Hji. rewrite !fmap_cons, (Hlk' j i Hji). f_equal.
    by apply Hcol'. }
  simpl. eexists. split; [done|]. by repeat split.
Qed.

End array_facts.

(** ** The dictionary of accumulated columns *)

Section tax_dict_facts.
Context {num : Type} `{Scalar num}.
Implicit Types (d : list (string * list num)) (k : string) (v : list num).

Lemma dd_iadd_keys nrow d k v :
  (dd_iadd nrow d k v).*1 = if decide (k ∈ d.*1) then d.*1 else d.*1 ++ [k].
Proof.
  induction d as [|[k' u] d IH]; cbn [dd_iadd fmap list_fmap fst app].
  { destruct (decide (k ∈ [])) as [Hin|_]; [by apply elem_of_nil in Hin|done]. }
  destruct (decide (k' = k)) as [->|Hne]; cbn [fmap list_fmap fst].
  - destruct (decide (k ∈ k :: d.*1)) as [_|Hnin]; [done|].
    exfalso. apply Hnin. by left.
  - rewrite IH. destruct (decide (k ∈ d.*1)) as [Hin|Hnin];
      destruct (decide (k ∈ k' :: d.*1)) as [Hin'|Hnin']; try done.
    + exfalso. apply Hnin'. by right.
    + by apply elem_of_cons in Hin' as [?|?].
Qed.

Lemma dd_get_iadd_eq nrow d k v :
  dd_get nrow (dd_iadd nrow d k v) k = iadd (dd_get nrow d k) v.
Proof.
  induction d as [|[k' u] d IH]; cbn [dd_iadd dd_get fst snd].
  { by destruct (decide (k = k)). }
  destruct (decide (k' = k)) as [->|Hne]; cbn [dd_get fst snd].
  - by destruct (decide (k = k)).
  - by destruct (decide (k' = k)).
Qed.

Lemma dd_get_iadd_ne nrow d k k' v :
  k' ≠ k → dd_get nrow (dd_iadd nrow d k v) k' = dd_get nrow d k'.
Proof.
  intros Hne. induction d as [|[k0 u] d IH]; cbn [dd_iadd dd_get fst snd].
  { by destruct (decide (k = k')). }
  destruct (decide (k0 = k)) as [->|Hne0]; cbn [dd_get fst snd].
  - by destruct (decide (k = k')).
  - destruct (decide (k0 = k')); [done|apply IH].
Qed.

Lemma dd_accumulate_keys_NoDup nrow d cs :
  NoDup d.*1 → NoDup (dd_accumulate nrow d cs).*1.
Proof.
  revert d. induction cs as [|[k v] cs IH]; intros d Hd; [done|].
  simpl. apply IH. rewrite dd_iadd_keys. simpl.
  destruct (decide (k ∈ d.*1)); [done|].
  apply NoDup_app. split; [done|]. split.
  - intros x Hx ->%list_elem_of_singleton. done.
  - apply NoDup_singleton.
Qed.

Lemma dd_accumulate_keys_elem nrow d cs k :
  k ∈ (dd_accumulate nrow d cs).*1 ↔ k ∈ d.*1 ∨ k ∈ cs.*1.
Proof.
  revert d. induction cs as [|[k' v] cs IH]; intros d; simpl.
  { split; [by left|]. intros [?|?%elem_of_nil]; done. }
  rewrite IH, dd_iadd_keys. simpl.
  destruct (decide (k' ∈ d.*1)) as [Hin|Hnin].
  - rewrite elem_of_cons. split; [tauto|].
    intros [?|[->|?]]; tauto.
  - rewrite elem_of_app, list_elem_of_singleton, elem_of_cons. tauto.
Qed.

Lemma dd_accumulate_get nrow d cs k :
  dd_get nrow (dd_accumulate nrow d cs) k
  = foldl iadd (dd_get nrow d k) (contributions k cs).
Proof.
  revert d. induction cs as [|[k' v] cs IH]; intros d; [done|].
  simpl. rewrite IH. unfold contributions.
  destruct (decide (k' = k)) as [->|Hne].
  - rewrite filter_cons_True by done. simpl. by rewrite dd_get_iadd_eq.
  - rewrite filter_cons_False by done. by rewrite dd_get_iadd_ne.
Qed.

Lemma length_foldl_iadd (n : nat) (u : list num) (vs : list (list num)) :
  length u = n → Forall (fun v => length v = n) vs →
  length (foldl iadd u vs) = n.
Proof.
  intros Hu Hvs. revert u Hu.
  induction Hvs as [|v vs Hv _ IH]; intros u Hu; [done|].
  simpl. apply IH. by apply length_iadd.
Qed.

Lemma dd_get_empty nrow k : dd_get nrow ([] : list (string * list num)) k = zeros nrow.
Proof. done. Qed.

End tax_dict_facts.

Lemma take_idx_omap {A} (l : list A) (idx : list nat) (l' : list A) :
  take_idx l idx = Ok l' → l' = omap (l !!.) idx.
Proof.
  revert l'. induction idx as [|i idx IH]; intros l'; unfold take_idx in *;
    cbn [map_result].
  { by intros [= <-]. }
  destruct (l !! i) as [x|] eqn:Hx; [|done]. rewrite bind_Ok.
  destruct (map_result _ idx) as [r|]; [|done]. rewrite bind_Ok.
  intros [= <-]. simpl. rewrite Hx. simpl. f_equal. by apply IH.
Qed.

Lemma omap_lookup_seq_app {A} (pre l : list A) :
  omap ((pre ++ l) !!.) (seq (length pre) (length l)) = l.
Proof.
  revert pre. induction l as [|x l IH]; intros pre; [done|].
  cbn [length seq omap list_omap]. rewrite list_lookup_middle by done.
  f_equal. specialize (IH (pre ++ [x])).
  rewrite <- app_assoc, length_app, Nat.add_1_r in IH. exact IH.
Qed.

Lemma omap_lookup_seq {A} (l : list A) :
  omap (l !!.) (seq 0 (length l)) = l.
Proof. apply (omap_lookup_seq_app [] l). Qed.

Lemma take_idx_Permutation {A} (l : list A) (idx : list nat) (l' : list A) :
  Permutation idx (seq 0 (length l)) → take_idx l idx = Ok l' →
  Permutation l' l.
Proof.
  intros Hperm ->%take_idx_omap. by rewrite Hperm, omap_lookup_seq.
Qed.

(** ** Tables *)

Lemma get_by_id_nonneg (l : MothurLineage) (i : Z) :
  (0 <= i)%Z → ∃ tax, _get_by_id l i = Ok tax.
Proof.
  intros Hi. unfold _get_by_id, depth.
  destruct (Z.ltb_spec i (Z.of_nat (length l))) as [Hlt|]; [|by eexists].
  destruct (list_getitem_lookup_lt l (Z.to_nat i)) as [x Hx]; [lia|].
  rewrite Z2Nat.id in Hx by done. rewrite Hx. by eexists.
Qed.

Lemma get_taxon_by_rank_valid (l : MothurLineage) (r : rank_arg) :
  valid_rank r → ∃ tax, get_taxon_by_rank l r = Ok tax.
Proof.
  destruct r as [i|s|]; simpl; [apply get_by_id_nonneg| |done].
  intros [i Hi]%list_elem_of_lookup_1. unfold _get_by_name.
  rewrite (RANK_ID_Some s i Hi). apply get_by_id_nonneg. lia.
Qed.

Section table_facts.
Context {num : Type} `{Scalar num}.

Lemma TaggedTable_init_wf (row_tag col_tag : list string) (a : ndarray num)
    (t : TaggedTable num) :
  wf_ndarray a → TaggedTable_init row_tag col_tag a = Ok t → wf_table t.
Proof.
  intros Hwf. unfold TaggedTable_init, wf_table.
  destruct (Nat.eqb_spec (length row_tag) (nrows a)) as [Hr|]; [|done].
  simpl. destruct (rows a) as [|r rs] eqn:Hrows; [done|].
  destruct (Nat.eqb_spec (length col_tag) (ncols a)) as [Hc|]; [|done].
  simpl. intros [= <-]. simpl. repeat split; try done.
  unfold nrows. rewrite Hrows. simpl. lia.
Qed.

Lemma TaggedTable_init_ok (row_tag col_tag : list string) (a : ndarray num) :
  length row_tag = nrows a → length col_tag = ncols a → 0 < nrows a →
  TaggedTable_init row_tag col_tag a = Ok (mkTable row_tag col_tag a None).
Proof.
  intros Hr Hc Hn. unfold TaggedTable_init, nrows in *.
  rewrite Hr, Hc, !Nat.eqb_refl. simpl.
  destruct (rows a); [simpl in Hn; lia|done].
Qed.

(** Sorting by average permutes the columns, tags and data alike. *)
Lemma sort_by_average_spec (t : TaggedTable num) :
  wf_table t →
  ∃ idx ct d,
    Permutation idx (seq 0 (ncols (data t))) ∧
    _get_sorted_index (data t) "by_average" = Ok idx ∧
    take_idx (col_tag t) idx = Ok ct ∧
    take_cols (data t) idx = Ok d ∧
    wf_table (mkTable (row_tag t) ct d (shared_attrs t)) ∧
    nrows d = nrows (data t) ∧
    Permutation ct (col_tag t) ∧
    ∀ j i, idx !! j = Some i →
           ct !! j = col_tag t !! i ∧ column d j = column (data t) i.
Proof.
  intros (Hwf & Hrow & Hcol & Hpos).
  set (idx := sorted_index_by_average (data t)).
  assert (Hperm : Permutation idx (seq 0 (ncols (data t)))).
  { unfold idx, sorted_index_by_average. rewrite <- Permutation_rev.
    rewrite argsort_perm. unfold mean_axis0.
    by rewrite length_fmap, length_seq. }
  assert (Hrange : Forall (fun i => i < ncols (data t)) idx).
  { rewrite Hperm. apply Forall_forall. intros i Hi.
    apply elem_of_seq in Hi. lia. }
  destruct (take_idx_spec (col_tag t) idx) as (ct & Hct & Hlct & Hlk).
  { by rewrite Hcol. }
  destruct (take_cols_spec (data t) idx Hwf Hrange)
    as (d & Hd & Hwfd & Hnr & Hnc & Hcols).
  exists idx, ct, d. repeat split; try done.
  - simpl. by rewrite Hrow, Hnr.
  - simpl. by rewrite Hlct, Hnc.
  - simpl. by rewrite Hnr.
  - apply (take_idx_Permutation _ idx); [by rewrite Hcol|done].
  - by apply Hlk.
  - by apply Hcols.
Qed.

Lemma sort_cols_descend_inplace (r : loc) (t : TaggedTable num)
    (h : gmap loc (TaggedTable num)) :
  h !! r = Some t → wf_table t →
  ∃ idx t',
    sort_cols_descend r "by_average" true h = Ok (r, <[r := t']> h) ∧
    Permutation idx (seq 0 (ncols (data t))) ∧
    row_tag t' = row_tag t ∧ wf_table t' ∧
    shared_attrs t' = shared_attrs t ∧
    Permutation (col_tag t') (col_tag t) ∧
    ∀ j i, idx !! j = Some i →
           col_tag t' !! j = col_tag t !! i ∧
           column (data t') j = column (data t) i.
Proof.
  intros Hr Hwf.
  destruct (sort_by_average_spec t Hwf)
    as (idx & ct & d & Hperm & Hidx & Hct & Hd & Hwf' & _ & Hpct & Hcols).
  exists idx, (mkTable (row_tag t) ct d (shared_attrs t)).
  split; [|done].
  unfold sort_cols_descend. rewrite !bind_Ok. cbn [fst snd].
  unfold load. rewrite Hr, bind_Ok, Hidx, bind_Ok, Hct, bind_Ok, Hd.
  by rewrite bind_Ok.
Qed.

End table_facts.

(** ** Aggregation *)

Section aggregation.
Context {num : Type} `{Scalar num}.
Variables (t : TaggedTable num)
          (otu_tax_dict : gmap string MothurOtuTaxonomy)
          (tax_rank : rank_arg).

Lemma contributions_otu k i otus :
  contributions k (otu_contributions t otu_tax_dict tax_rank i otus) = columns_resolving_to t otu_tax_dict tax_rank k i otus.
Proof.
  revert i. induction otus as [|o otus IH]; intros i; [done|].
  cbn [otu_contributions columns_resolving_to]. unfold contributions in *.
  destruct (classified otu_tax_dict tax_rank o) as [k'|].
  - destruct (decide (Some k' = Some k)) as [[= ->]|Hne].
    + rewrite filter_cons_True by done. simpl. by rewrite IH.
    + rewrite filter_cons_False by (simpl; congruence). apply IH.
  - destruct (decide (None = Some k)); [done|apply IH].
Qed.

Lemma otu_contributions_keys k i otus :
  k ∈ (otu_contributions t otu_tax_dict tax_rank i otus).*1 ↔ ∃ o, o ∈ otus ∧ classified otu_tax_dict tax_rank o = Some k.
Proof.
  revert i. induction otus as [|o otus IH]; intros i; simpl.
  { split; [by intros ?%elem_of_nil|by intros (? & ?%elem_of_nil & _)]. }
  destruct (classified otu_tax_dict tax_rank o) as [k'|] eqn:Ho; simpl.
  - rewrite elem_of_cons, IH. split.
    + intros [->|(o' & ? & ?)]; [exists o; split; [by left|done]|].
      exists o'. split; [by right|done].
    + intros (o' & [->|?]%elem_of_cons & Ho'); [left; congruence|].
      right. by exists o'.
  - rewrite IH. split.
    + intros (o' & ? & ?). exists o'. split; [by right|done].
    + intros (o' & [->|?]%elem_of_cons & Ho'); [congruence|by exists o'].
Qed.

Lemma otu_contributions_lengths i otus :
  Forall (fun p => length p.2 = nrows (data t)) (otu_contributions t otu_tax_dict tax_rank i otus).
Proof.
  revert i. induction otus as [|o otus IH]; intros i; simpl; [done|].
  destruct (classified otu_tax_dict tax_rank o); [|apply IH].
  constructor; [apply length_column|apply IH].
Qed.

(** The loop over the OTUs, when every OTU is known. *)
Lemma accumulate_ok i otus acc :
  Forall (fun o => is_Some (otu_tax_dict !! o)) otus →
  valid_rank tax_rank →
  i + length otus <= ncols (data t) →
  accumulate t otu_tax_dict tax_rank i otus acc
  = Ok (dd_accumulate (nrows (data t)) acc (otu_contributions t otu_tax_dict tax_rank i otus)).
Proof.
  intros Hknown Hrank. revert i acc.
  induction Hknown as [|o otus [rec Hrec] _ IH]; intros i acc Hlen; [done|].
  simpl in Hlen. cbn [accumulate otu_contributions]. unfold classified.
  rewrite Hrec, bind_Ok.
  destruct (get_taxon_by_rank_valid (taxonomy rec) tax_rank Hrank) as [tax ->].
  rewrite bind_Ok. destruct tax as [tax|]; [|apply IH; lia].
  destruct (taxon_bool tax); simpl; [|apply IH; lia].
  rewrite get_col_column by lia. rewrite bind_Ok. apply IH. lia.
Qed.

(** The loop stops with [KeyError] at the first unknown OTU. *)
Lemma accumulate_missing i pre o post acc :
  Forall (fun o => is_Some (otu_tax_dict !! o)) pre →
  otu_tax_dict !! o = None →
  valid_rank tax_rank →
  i + length pre <= ncols (data t) →
  accumulate t otu_tax_dict tax_rank i (pre ++ o :: post) acc
  = Err (KeyError o).
Proof.
  intros Hknown Ho Hrank. revert i acc.
  induction Hknown as [|o' pre [rec Hrec] _ IH]; intros i acc Hlen.
  { simpl. by rewrite Ho. }
  simpl in Hlen. cbn [accumulate app]. rewrite Hrec, bind_Ok.
  destruct (get_taxon_by_rank_valid (taxonomy rec) tax_rank Hrank) as [tax ->].
  rewrite bind_Ok. destruct tax as [tax|]; [|apply IH; lia].
  destruct (taxon_bool tax); simpl; [|apply IH; lia].
  rewrite get_col_column by lia. rewrite bind_Ok. apply IH. lia.
Qed.

(** With an unknown OTU among the columns the loop never completes,
    whatever the rank selector and the table. *)
Lemma accumulate_fails i otus o acc :
  o ∈ otus → otu_tax_dict !! o = None →
  ∃ e, accumulate t otu_tax_dict tax_rank i otus acc = Err e.
Proof.
  intros Hin Ho. revert i acc.
  induction otus as [|o' otus IH]; intros i acc.
  { by apply elem_of_nil in Hin. }
  cbn [accumulate].
  destruct (otu_tax_dict !! o') as [rec|] eqn:Hrec; [|by eexists].
  assert (o ∈ otus) as Hin'.
  { apply elem_of_cons in Hin as [->|?]; [congruence|done]. }
  rewrite bind_Ok.
  destruct (get_taxon_by_rank (taxonomy rec) tax_rank) as [tax|e];
    [|by eexists].
  rewrite bind_Ok. destruct tax as [tax|]; [|by apply IH].
  destruct (negb (taxon_bool tax)); [by apply IH|].
  destruct (get_col (data t) i) as [col|e]; [|by eexists].
  rewrite bind_Ok. by apply IH.
Qed.

Lemma first_unknown (otus : list string) (o : string) :
  o ∈ otus → otu_tax_dict !! o = None →
  ∃ pre o' post, otus = pre ++ o' :: post ∧
    Forall (fun o => is_Some (otu_tax_dict !! o)) pre ∧
    otu_tax_dict !! o' = None.
Proof.
  intros Hin Ho. induction otus as [|o0 otus IH].
  { by apply elem_of_nil in Hin. }
  destruct (otu_tax_dict !! o0) as [rec|] eqn:Hrec.
  - destruct IH as (pre & o' & post & -> & Hpre & Ho').
    { apply elem_of_cons in Hin as [->|?]; [congruence|done]. }
    exists (o0 :: pre), o', post. repeat split; [|done].
    constructor; [by eexists|done].
  - by exists [], o0, otus.
Qed.

End aggregation.

Section group_by.
Context {num : Type} `{Scalar num}.

(** The loop that stores the accumulated columns. *)
Lemma fill_cols_spec (nrow : nat) (td : list (string * list num)) (i : nat)
    (keys : list string) (d : ndarray num) :
  wf_ndarray d → nrows d = nrow → i + length keys <= ncols d →
  (∀ k, length (dd_get nrow td k) = nrow) →
  ∃ d', fill_cols nrow td i keys d = Ok d' ∧ wf_ndarray d' ∧
        nrows d' = nrow ∧ ncols d' = ncols d ∧
        (∀ j, j < i → column d' j = column d j) ∧
        (∀ j k, keys !! j = Some k → column d' (i + j) = dd_get nrow td k).
Proof.
  intros Hwf Hnr Hlen Hval. revert i d Hwf Hnr Hlen.
  induction keys as [|k keys IH]; intros i d Hwf Hnr Hlen.
  { exists d. by repeat split. }
  simpl in Hlen. cbn [fill_cols].
  destruct (set_col_spec d i (dd_get nrow td k))
    as (d1 & -> & Hwf1 & Hnr1 & Hnc1 & Heq & Hne);
    [done|lia|by rewrite Hval|].
  rewrite bind_Ok.
  destruct (IH (S i) d1) as (d' & -> & Hwf' & Hnr' & Hnc' & Hlow & Hkeys);
    [done|congruence|lia|].
  exists d'. repeat split; [done|done|congruence| |].
  - intros j Hj. rewrite Hlow by lia. apply Hne. lia.
  - intros [|j] k'; simpl.
    + intros [= <-]. rewrite Nat.add_0_r, Hlow by lia. done.
    + intros Hj. rewrite <- Nat.add_succ_comm. by apply Hkeys.
Qed.

Lemma contributions_lengths (k : string) (cs : list (string * list num)) n :
  Forall (fun p => length p.2 = n) cs →
  Forall (fun v => length v = n) (contributions k cs).
Proof.
  intros Hcs. unfold contributions. apply Forall_fmap, Forall_forall.
  intros p [_ Hp]%list_elem_of_filter. rewrite Forall_forall in Hcs.
  by apply Hcs.
Qed.

(** What [group_by_taxonomy] returns when every OTU is known. *)
Lemma group_by_taxonomy_spec (self : loc) (t : TaggedTable num)
    (otu_tax_dict : gmap string MothurOtuTaxonomy) (tax_rank : rank_arg)
    (h : gmap loc (TaggedTable num)) :
  h !! self = Some t →
  wf_table t →
  Forall (fun o => is_Some (otu_tax_dict !! o)) (col_tag t) →
  valid_rank tax_rank →
  ∃ ret t',
    group_by_taxonomy self otu_tax_dict tax_rank h = Ok (ret, <[ret := t']> h) ∧
    h !! ret = None ∧
    row_tag t' = row_tag t ∧
    wf_table t' ∧
    NoDup (col_tag t') ∧
    (∀ k, k ∈ col_tag t' ↔
          ∃ o, o ∈ col_tag t ∧ classified otu_tax_dict tax_rank o = Some k) ∧
    (∀ j k, col_tag t' !! j = Some k →
            get_col (data t') j = Ok (column_sum t otu_tax_dict tax_rank k)).
Proof.
  intros Hself (Hwf & Hrow & Hcol & Hpos) Hknown Hrank.
  set (nrow := nrows (data t)).
  set (cs := otu_contributions t otu_tax_dict tax_rank 0 (col_tag t)).
  set (td := dd_accumulate nrow [] cs).
  assert (Hval : ∀ k, dd_get nrow td k = column_sum t otu_tax_dict tax_rank k).
  { intros k. unfold td. rewrite dd_accumulate_get.
    unfold cs. by rewrite contributions_otu. }
  assert (Hvlen : ∀ k, length (dd_get nrow td k) = nrow).
  { intros k. unfold td. rewrite dd_accumulate_get.
    apply length_foldl_iadd; [apply length_zeros|].
    apply contributions_lengths, otu_contributions_lengths. }
  assert (Hnodup : NoDup td.*1).
  { apply dd_accumulate_keys_NoDup. constructor. }
  destruct (wf_zeros2 (num := num) nrow (length td.*1)) as (Hwf0 & Hnr0 & Hnc0).
  destruct (fill_cols_spec nrow td 0 td.*1 (zeros2 nrow (length td.*1)))
    as (d & Hfill & Hwfd & Hnrd & Hncd & _ & Hcols);
    [done|done|by rewrite Hnc0|done|].
  rewrite Hnc0 in Hncd.
  set (ret0 := mkTable (row_tag t) td.*1 d None).
  assert (Hwfret : wf_table ret0).
  { unfold wf_table, ret0. simpl. repeat split;
      [done|by rewrite Hnrd|by rewrite Hncd|].
    rewrite Hnrd. exact Hpos. }
  set (r := fresh (dom h)).
  assert (Hfresh : h !! r = None).
  { apply not_elem_of_dom. apply is_fresh. }
  destruct (sort_cols_descend_inplace r ret0 (<[r := ret0]> h))
    as (idx & t' & Hsort & Hperm & Hrow' & Hwf' & _ & Hct & Hsorted);
    [apply lookup_insert_eq|done|].
  simpl in Hct, Hperm.
  exists r, t'. split.
  { unfold group_by_taxonomy, load. rewrite Hself, bind_Ok.
    rewrite accumulate_ok by (done || (simpl; lia)).
    rewrite bind_Ok. fold nrow cs td. rewrite Hfill, bind_Ok.
    rewrite TaggedTable_init_ok; [|by rewrite Hnrd|by rewrite Hncd|by rewrite Hnrd].
    rewrite bind_Ok. unfold alloc. cbn [fst snd]. fold r ret0.
    rewrite Hsort, bind_Ok. cbn [fst snd]. by rewrite insert_insert_eq. }
  split; [done|]. split; [done|]. split; [done|].
  split; [by rewrite Hct|]. split.
  { intros k. rewrite Hct. unfold td. rewrite dd_accumulate_keys_elem.
    unfold cs. rewrite otu_contributions_keys. split; [|by right].
    by intros [?%elem_of_nil|?]. }
  intros j k Hj.
  assert (j < length idx) as Hjlt.
  { apply lookup_lt_Some in Hj. rewrite Hct in Hj.
    apply Permutation_length in Hperm. rewrite length_seq in Hperm. lia. }
  destruct (lookup_lt_is_Some_2 idx j Hjlt) as [i Hi].
  destruct (Hsorted j i Hi) as [Htag Hdat]. simpl in Htag, Hdat.
  rewrite Hj in Htag. symmetry in Htag.
  rewrite get_col_column.
  2:{ destruct Hwf' as (_ & _ & <- & _). by apply lookup_lt_Some in Hj. }
  pose proof (Hcols i k Htag) as Hci. simpl in Hci.
  unfold ret0 in Hdat. simpl in Hdat. by rewrite Hdat, Hci, Hval.
Qed.

End group_by.

(** ** Table claims *)

Section table_claims.
Context {num : Type} `{Scalar num}.


(** C7. When an OTU of the count table has no entry in the taxonomy
    reference, [group_by_taxonomy] raises, whatever the rank selector; for
    a table that satisfies the invariant of its constructor and a rank that
    is one of the seven rank names or a non-negative rank id, the
    exception is the [KeyError] of the first such OTU, which is a
    [LookupError]. (An OTU whose taxon at the rank is absent is skipped
    without error.) *)
Theorem group_by_taxonomy_unknown_otu (self : loc) (t : TaggedTable num)
    (otu_tax_dict : gmap string MothurOtuTaxonomy) (tax_rank : rank_arg)
    (h : gmap loc (TaggedTable num)) (o : string) :
  h !! self = Some t →
  o ∈ col_tag t →
  otu_tax_dict !! o = None →
  (∃ e, group_by_taxonomy self otu_tax_dict tax_rank h = Err e) ∧
  (wf_table t → valid_rank tax_rank →
   ∃ o', o' ∈ col_tag t ∧ otu_tax_dict !! o' = None ∧
         group_by_taxonomy self otu_tax_dict tax_rank h = Err (KeyError o') ∧
         is_LookupError (KeyError o') = true).
Proof.
  intros Hself Hin Ho. unfold group_by_taxonomy, load.
  rewrite Hself, bind_Ok. split.
  - destruct (accumulate_fails t otu_tax_dict tax_rank 0 (col_tag t) o [])
      as [e ->]; [done|done|]. by exists e.
  - intros (_ & _ & Hcol & _) Hrank.
    destruct (first_unknown otu_tax_dict (col_tag t) o Hin Ho)
      as (pre & o' & post & Hsplit & Hpre & Ho').
    exists o'. split; [rewrite Hsplit; set_solver|]. split; [done|].
    split; [|done].
    rewrite Hsplit, accumulate_missing; try done.
    rewrite <- Hcol, Hsplit, length_app. simpl. lia.
Qed.

(** C4, on the code. For a table with at least one row, sorting the
    columns by rank raises [TypeError]: [len] is applied to the number of
    columns, an [int], in the first turn of the loop over the rows. *)
Theorem sort_cols_descend_by_rank_raises (self : loc) (t : TaggedTable num)
    (inplace : bool) (h : gmap loc (TaggedTable num)) :
  h !! self = Some t →
  0 < nrows (data t) →
  sort_cols_descend self "by_rank" inplace h
  = Err (TypeError "object of type 'int' has no len()").
Proof.
  intros Hself Hrows.
  assert (Hidx : _get_sorted_index (data t) "by_rank"
                 = Err (TypeError "object of type 'int' has no len()")).
  { unfold _get_sorted_index. cbn [String.eqb Ascii.eqb Bool.eqb].
    unfold zeros2, nrows in *. cbn [rows].
    destruct (rows (data t)) as [|r rs]; [simpl in Hrows; lia|]. done. }
  unfold sort_cols_descend. destruct inplace.
  - rewrite bind_Ok. cbn [fst snd]. unfold load.
    by rewrite Hself, bind_Ok, Hidx.
  - unfold deepcopy, load, alloc. rewrite Hself, !bind_Ok. cbn [fst snd].
    by rewrite lookup_insert_eq, bind_Ok, Hidx.
Qed.

End table_claims.

(** The two statements of [main] always end in a [TypeError]:
    [group_by_taxonomy] has no parameter [min_bootstrap]. *)
Lemma main_abundance_raises {num : Type} `{Scalar num} (otu_count : loc)
    (t : TaggedTable num) (taxonomy : gmap string MothurOtuTaxonomy)
    (tax_rank : string) (min_bootstrap : Z) (h : gmap loc (TaggedTable num)) :
  h !! otu_count = Some t →
  main_abundance otu_count taxonomy tax_rank min_bootstrap h
  = Err (TypeError
      "group_by_taxonomy() got an unexpected keyword argument 'min_bootstrap'").
Proof.
  intros Hc. unfold main_abundance, normalize_rows, deepcopy, load, alloc.
  rewrite Hc, !bind_Ok. cbn [fst snd].
  by rewrite lookup_insert_eq, !bind_Ok.
Qed.

(** ** Witnesses and evaluations on the example inputs *)

Lemma scenario_counts_wf : wf_table scenario_counts.
Proof.
  unfold wf_table, wf_ndarray, nrows. simpl.
  repeat split; try lia. repeat constructor.
Defined.

Lemma genus_valid : valid_rank (RStr "genus").
Proof. apply (bool_decide_unpack _). by vm_compute. Defined.


Lemma group_by_taxonomy_unknown_otu_witness :
  (∃ e, group_by_taxonomy 1%positive scenario_taxonomy_short (RStr "genus")
          scenario_heap = Err e) ∧
  ∃ o', group_by_taxonomy 1%positive scenario_taxonomy_short (RStr "genus")
          scenario_heap = Err (KeyError o') ∧
        is_LookupError (KeyError o') = true.
Proof.
  destruct (group_by_taxonomy_unknown_otu 1%positive scenario_counts
              scenario_taxonomy_short (RStr "genus") scenario_heap "Otu3")
    as [Hany Hkey].
  - reflexivity.
  - apply (bool_decide_unpack _). by vm_compute.
  - by vm_compute.
  - split; [exact Hany|].
    destruct (Hkey scenario_counts_wf genus_valid) as (o' & _ & _ & Hrun & Hle).
    by exists o'.
Defined.

Lemma sort_cols_descend_by_rank_raises_witness :
  sort_cols_descend 1%positive "by_rank" false scenario_heap
  = Err (TypeError "object of type 'int' has no len()").
Proof.
  apply (sort_cols_descend_by_rank_raises 1%positive scenario_counts).
  - reflexivity.
  - unfold nrows. simpl. lia.
Defined.

(** C1, on the code. [group_by_taxonomy] takes no confidence threshold and
    never reads a confidence: with a threshold of 90 in mind, the only OTU
    has confidence 85 at the genus, and yet the result has the column of
    its genus, filled with its counts; the call that [main] makes with the
    keyword [min_bootstrap] raises [TypeError]. *)
Theorem min_bootstrap_not_applied :
  get_taxon_by_rank (genus_lineage "Alpha" 85) (RStr "genus")
  = Ok (Some (mkTaxonomy "Alpha" 85 None)) ∧
  (85 < 90)%Z ∧
  (∃ ret h',
     group_by_taxonomy 1%positive low_confidence_taxonomy (RStr "genus")
       low_confidence_heap = Ok (ret, h') ∧
     h' !! ret = Some (mkTable ["s1"] ["Alpha"] (mk_ndarray 1 [[7#1]])%Q None)) ∧
  main_abundance 1%positive low_confidence_taxonomy "genus" 90
    low_confidence_heap
  = Err (TypeError
      "group_by_taxonomy() got an unexpected keyword argument 'min_bootstrap'").
Proof.
  split; [by vm_compute|]. split; [lia|]. split.
  - eexists _, _. split; [by vm_compute|]. by vm_compute.
  - eapply main_abundance_raises. reflexivity.
Qed.

(** ** Normalization *)

(** In place, the object of [self] itself receives the new data. *)
Lemma normalize_rows_inplace {num : Type} `{Scalar num} (self : loc)
    (t : TaggedTable num) (h : gmap loc (TaggedTable num)) :
  h !! self = Some t →
  normalize_rows self true h
  = Ok (self, <[self := mkTable (row_tag t) (col_tag t)
                          (divide_rows (data t) (sum_axis1 (data t)))
                          (shared_attrs t)]> h).
Proof.
  intros Hself. unfold normalize_rows, load. rewrite bind_Ok. cbn [fst snd].
  by rewrite Hself, bind_Ok.
Qed.




(** * Further properties of the sources *)

(** ** Rank lookup by name and by negative position *)

(** X1. A rank name selects the taxon at the position of the name in
    [RANK]: the lookup by name and the lookup by that position agree, and
    both return the taxon stored there, or [None] when the lineage is
    shorter. *)
Theorem get_taxon_by_rank_name_position (self : MothurLineage)
    (name : string) (i : nat) :
  RANK !! i = Some name →
  get_taxon_by_rank self (RStr name) = get_taxon_by_rank self (RInt (Z.of_nat i)) ∧
  get_taxon_by_rank self (RStr name) = Ok (self !! i).
Proof.
  intros Hname. simpl. unfold _get_by_name.
  rewrite (RANK_ID_Some name i Hname). split; [done|].
  unfold _get_by_id, depth.
  destruct (Z.ltb_spec (Z.of_nat i) (Z.of_nat (length self))) as [Hlt|Hge].
  - destruct (list_getitem_lookup_lt self i) as [x Hx]; [lia|].
    rewrite Hx. simpl. by rewrite (list_getitem_lookup _ _ _ Hx).
  - by rewrite lookup_ge_None_2; [|lia].
Qed.

Lemma get_taxon_by_rank_name_position_witness :
  get_taxon_by_rank (genus_lineage "Acinetobacter" 100) (RStr "genus")
  = get_taxon_by_rank (genus_lineage "Acinetobacter" 100) (RInt 5) ∧
  get_taxon_by_rank (genus_lineage "Acinetobacter" 100) (RStr "genus")
  = Ok (Some (mkTaxonomy "Acinetobacter" 100 None)).
Proof.
  apply (get_taxon_by_rank_name_position
           (genus_lineage "Acinetobacter" 100) "genus" 5).
  reflexivity.
Defined.

(** X2. A negative rank id counts from the deepest taxon of the lineage:
    [-1] is the last taxon, [- depth] the first; below [- depth] the
    lookup raises [IndexError]. *)
Theorem get_taxon_by_rank_negative (self : MothurLineage) (i : Z) :
  (i < 0)%Z →
  ((- depth self <= i)%Z →
   ∃ t, self !! Z.to_nat (depth self + i) = Some t ∧
        get_taxon_by_rank self (RInt i) = Ok (Some t)) ∧
  ((i < - depth self)%Z → get_taxon_by_rank self (RInt i) = Err IndexError).
Proof.
  intros Hneg. simpl. unfold _get_by_id, depth, list_getitem.
  destruct (Z.ltb_spec i (Z.of_nat (length self))) as [_|?]; [|lia].
  destruct (Z.ltb_spec i 0) as [_|?]; [|lia].
  split; intros Hi.
  - destruct (Z.leb_spec 0 (Z.of_nat (length self) + i)); [|lia].
    destruct (Z.ltb_spec (Z.of_nat (length self) + i) (Z.of_nat (length self)));
      [|lia].
    simpl.
    destruct (lookup_lt_is_Some_2 self (Z.to_nat (Z.of_nat (length self) + i)))
      as [t Ht]; [lia|].
    exists t. by rewrite Ht.
  - by destruct (Z.leb_spec 0 (Z.of_nat (length self) + i)); [lia|].
Qed.

Lemma get_taxon_by_rank_negative_witness :
  (∃ t, genus_lineage "Acinetobacter" 100 !! 5 = Some t ∧
        get_taxon_by_rank (genus_lineage "Acinetobacter" 100) (RInt (-1))
        = Ok (Some t)) ∧
  get_taxon_by_rank (genus_lineage "Acinetobacter" 100) (RInt (-7))
  = Err IndexError.
Proof.
  split.
  - apply (get_taxon_by_rank_negative (genus_lineage "Acinetobacter" 100) (-1));
      unfold depth; simpl; lia.
  - apply (get_taxon_by_rank_negative (genus_lineage "Acinetobacter" 100) (-7));
      unfold depth; simpl; lia.
Defined.

(** ** What the taxon pattern accepts *)

Lemma greedy_sound {R} (cls : ascii → bool) (k : nat → string → option R)
    (pos : nat) (s : string) (r : R) :
  Re.greedy cls k pos s = Some r →
  ∃ a b p, s = a +:+ b ∧ string_forall cls a = true ∧ k p b = Some r.
Proof.
  revert pos. induction s as [|c s IH]; intros pos Hg; simpl in Hg.
  { by exists "", "", pos. }
  destruct (cls c) eqn:Hc.
  - destruct (Re.greedy cls k (S pos) s) as [r'|] eqn:Hrec.
    + injection Hg as ->. destruct (IH _ Hrec) as (a & b & p & -> & Ha & Hk).
      exists (String c a), b, p. simpl. by rewrite Hc, Ha.
    + by exists "", (String c s), pos.
  - by exists "", (String c s), pos.
Qed.

Lemma int_of_digits_nonneg (s : string) : (0 <= int_of_digits s)%Z.
Proof.
  unfold int_of_digits. destruct (NilEmpty.uint_of_string s) as [d|]; [|done].
  unfold Z.of_uint. lia.
Qed.

(** X3. [MothurTaxonomy.from_str] accepts the empty string, which gives
    the empty taxon with confidence 0, and otherwise only a string of the
    form [name(digits)], possibly followed by one line break: the name has
    no line break, there is at least one digit, and the confidence is the
    value of the digits, never negative. *)
Theorem taxonomy_from_str_sound (s : string) (t : MothurTaxonomy) :
  taxonomy_from_str s = Ok t →
  (s = "" ∧ t = mkTaxonomy "" 0 None) ∨
  ∃ name ds nl,
    s = name +:+ "(" +:+ ds +:+ ")" +:+ nl ∧
    (nl = "" ∨ nl = String Re.newline "") ∧
    string_forall Re.dot name = true ∧
    string_forall Re.digit ds = true ∧ ds ≠ "" ∧
    t = mkTaxonomy name (int_of_digits ds) None ∧
    (0 <= bootstrap t)%Z.
Proof.
  unfold taxonomy_from_str. destruct s as [|c0 s0]; simpl negb; cbv iota.
  { intros [= <-]. by left. }
  set (s := String c0 s0). intros Hm. right.
  destruct (Re.re_match TAX_REGEX s) as [gs|] eqn:Hre; [|done].
  unfold Re.re_match, TAX_REGEX in Hre. cbn [Re.run Nat.eqb] in Hre.
  apply greedy_sound in Hre as (name & b & p & Hs & Hname & Hk).
  cbn [Re.run] in Hk.
  destruct b as [|c1 b1]; [done|].
  destruct (Ascii.eqb_spec c1 "("%char) as [->|]; [|done].
  cbn [Re.run] in Hk.
  destruct b1 as [|d b2]; [done|].
  destruct (Re.digit d) eqn:Hd; [|done].
  apply greedy_sound in Hk as (ds & b3 & p' & Hb2 & Hds & Hk).
  cbn [Re.run] in Hk.
  destruct b3 as [|c2 nl]; [done|].
  destruct (Ascii.eqb_spec c2 ")"%char) as [->|]; [|done].
  cbn [Re.run] in Hk.
  assert (Hnl : (nl = "" ∨ nl = String Re.newline "") ∧
                gs = [Re.captured s (String "(" (String d b2));
                      Re.captured (String d b2) (String ")" nl)]).
  { destruct nl as [|c3 [|]]; [| |done].
    - injection Hk as <-. split; [by left|done].
    - destruct (Ascii.eqb_spec c3 Re.newline) as [->|]; [|done].
      injection Hk as <-. split; [by right|done]. }
  destruct Hnl as [Hnl ->].
  rewrite Hs in Hm. rewrite captured_app in Hm.
  rewrite Hb2 in Hm.
  change (String d (ds +:+ String ")" nl)) with (String d ds +:+ String ")" nl) in Hm.
  rewrite captured_app in Hm. injection Hm as <-.
  exists name, (String d ds), nl. rewrite Hs, Hb2. simpl.
  rewrite Hd, Hds. repeat split; try done.
  apply int_of_digits_nonneg.
Qed.

Lemma taxonomy_from_str_sound_witness :
  ("Bacteria(100)" = "" ∧ mkTaxonomy "Bacteria" 100 None = mkTaxonomy "" 0 None) ∨
  ∃ name ds nl,
    "Bacteria(100)" = name +:+ "(" +:+ ds +:+ ")" +:+ nl ∧
    (nl = "" ∨ nl = String Re.newline "") ∧
    string_forall Re.dot name = true ∧
    string_forall Re.digit ds = true ∧ ds ≠ "" ∧
    mkTaxonomy "Bacteria" 100 None = mkTaxonomy name (int_of_digits ds) None ∧
    (0 <= bootstrap (mkTaxonomy "Bacteria" 100 None))%Z.
Proof.
  apply (taxonomy_from_str_sound "Bacteria(100)" (mkTaxonomy "Bacteria" 100 None)).
  reflexivity.
Defined.

(** ** The depth of a parsed lineage *)

Lemma length_split (c : ascii) (s : string) :
  length (split c s) = S (count_char c s).
Proof.
  induction s as [|a s IH]; simpl; [done|].
  destruct (Ascii.eqb a c); simpl; [by rewrite IH|].
  destruct (split c s); simpl in *; [done|lia].
Qed.

Lemma length_map_result {A B} (f : A → result B) (l : list A) (l' : list B) :
  map_result f l = Ok l' → length l' = length l.
Proof.
  revert l'. induction l as [|x l IH]; intros l' Hl; simpl in Hl.
  { by injection Hl as <-. }
  destruct (f x); simpl in Hl; [|done].
  destruct (map_result f l) as [ys|]; simpl in Hl; [|done].
  injection Hl as <-. simpl. by rewrite (IH ys).
Qed.

Lemma length_resolve_suffix (f : nat) last (suf suf' : MothurLineage) :
  resolve_suffix f last suf = Ok suf' → length suf' = length suf.
Proof.
  intros Hres%resolve_suffix_raw.
  by rewrite <- (length_fmap raw suf'), Hres, length_fmap.
Qed.

(** X4. A parsed lineage has one taxon per segment of the string, the
    segments being counted after the removal of the trailing semicolons;
    so it is never empty: the empty string gives a lineage of depth 1,
    whose only taxon is the empty one. *)
Theorem lineage_from_str_depth (s : string) (l : MothurLineage) :
  lineage_from_str s = Ok l →
  length l = S (count_char ";" (rstrip ";" s)) ∧
  (1 <= depth l)%Z ∧
  lineage_from_str "" = Ok [mkTaxonomy "" 0 None].
Proof.
  intros (new & Hnew & Hres)%lineage_from_str_inv.
  apply length_map_result in Hnew. apply length_resolve_suffix in Hres.
  rewrite length_split in Hnew. unfold depth.
  split; [congruence|]. split; [lia|]. reflexivity.
Qed.

Lemma lineage_from_str_depth_witness :
  length scenario_lineage
  = S (count_char ";" (rstrip ";" "Bacteria(100);uncultured(80);uncultured(70);")) ∧
  (1 <= depth scenario_lineage)%Z ∧
  lineage_from_str "" = Ok [mkTaxonomy "" 0 None].
Proof.
  apply (lineage_from_str_depth "Bacteria(100);uncultured(80);uncultured(70);").
  reflexivity.
Defined.

(** ** What the disambiguation walk writes *)

Lemma set_unique_taxon_names_from_0 (self : MothurLineage) last :
  set_unique_taxon_names self 0 last = resolve_suffix 0 last self.
Proof.
  pose proof (set_unique_taxon_names_suffix [] self last) as H.
  simpl in H. change (Z.of_nat 0) with 0%Z in H.
  rewrite H. by destruct (resolve_suffix 0 last self).
Qed.

Lemma resolve_suffix_writes (f : nat) last (suf suf' : MothurLineage)
    (i : nat) (t t' : MothurTaxonomy) :
  resolve_suffix f last suf = Ok suf' →
  suf !! i = Some t → suf' !! i = Some t' →
  t' = t ∨ (is_uncultured (taxon_name t) = true ∧
            ∃ u, t' = set_unique_taxon_name t u).
Proof.
  revert f last suf' i.
  induction suf as [|t0 rest IH]; intros f last suf' i Hres Hi Hi'; [done|].
  cbn [resolve_suffix] in Hres.
  destruct (negb (taxon_bool t0)).
  { injection Hres as <-. left. congruence. }
  change (String.prefix "uncultured" (taxon_name t0))
    with (is_uncultured (taxon_name t0)) in Hres.
  destruct (is_uncultured (taxon_name t0)) eqn:Hu0.
  - destruct (if last_known_truthy last then _ else _) as [u|e]; [|done].
    destruct (resolve_suffix _ _ rest) as [rest'|] eqn:Hrest; simpl in Hres;
      [|done].
    injection Hres as <-. destruct i as [|i]; simpl in Hi, Hi'.
    + injection Hi as <-. injection Hi' as <-. right. eauto.
    + eapply IH; eauto.
  - destruct (resolve_suffix _ _ rest) as [rest'|] eqn:Hrest; simpl in Hres;
      [|done].
    injection Hres as <-. destruct i as [|i]; simpl in Hi, Hi'.
    + left. congruence.
    + eapply IH; eauto.
Qed.

(** X5. [set_unique_taxon_names] changes no raw name and no confidence,
    and keeps the depth; the only taxa it writes are taxa whose name
    starts with [uncultured], and all it writes there is the resolved
    name. This holds for every lineage and every initial [_last_known]. *)
Theorem set_unique_taxon_names_writes (self l' : MothurLineage)
    (_last_known : option string) :
  set_unique_taxon_names self 0 _last_known = Ok l' →
  raw <$> l' = raw <$> self ∧
  depth l' = depth self ∧
  ∀ i t t', self !! i = Some t → l' !! i = Some t' →
    t' = t ∨ (is_uncultured (taxon_name t) = true ∧
              ∃ u, t' = set_unique_taxon_name t u).
Proof.
  rewrite set_unique_taxon_names_from_0. intros Hres.
  split; [by eapply resolve_suffix_raw|].
  split; [unfold depth; by rewrite (length_resolve_suffix _ _ _ _ Hres)|].
  intros i t t'. by eapply resolve_suffix_writes.
Qed.

Lemma set_unique_taxon_names_writes_witness :
  raw <$> scenario_lineage
  = raw <$> [mkTaxonomy "Bacteria" 100 None; mkTaxonomy "uncultured" 80 None;
             mkTaxonomy "uncultured" 70 None] ∧
  depth scenario_lineage = 3%Z.
Proof.
  destruct (set_unique_taxon_names_writes
              [mkTaxonomy "Bacteria" 100 None; mkTaxonomy "uncultured" 80 None;
               mkTaxonomy "uncultured" 70 None] scenario_lineage None)
    as (Hraw & Hdepth & _); [reflexivity|].
  split; [exact Hraw|exact Hdepth].
Defined.

(** ** Lineages deeper than the seven ranks *)

Lemma list_getitem_Err {A} (l : list A) (i : nat) (e : exn) :
  list_getitem l (Z.of_nat i) = Err e → e = IndexError ∧ length l <= i.
Proof.
  unfold list_getitem.
  destruct (Z.ltb_spec (Z.of_nat i) 0); [lia|].
  destruct (Z.leb_spec 0 (Z.of_nat i)); [|lia].
  destruct (Z.ltb_spec (Z.of_nat i) (Z.of_nat (length l))) as [Hlt|Hge]; simpl.
  - rewrite Nat2Z.id. destruct (lookup_lt_is_Some_2 l i) as [x ->]; [lia|done].
  - intros [= <-]. split; [done|lia].
Qed.

Lemma resolve_suffix_Err (f : nat) last (suf : MothurLineage) (e : exn) :
  resolve_suffix f last suf = Err e →
  e = IndexError ∧
  ∃ i t, length RANK <= f + i ∧ suf !! i = Some t ∧
         is_uncultured (taxon_name t) = true.
Proof.
  revert f last. induction suf as [|t0 rest IH]; intros f last Hres; [done|].
  cbn [resolve_suffix] in Hres.
  destruct (negb (taxon_bool t0)); [done|].
  change (String.prefix "uncultured" (taxon_name t0))
    with (is_uncultured (taxon_name t0)) in Hres.
  assert (Hshift : ∀ last',
    resolve_suffix (S f) last' rest = Err e →
    e = IndexError ∧
    ∃ i t, length RANK <= f + i ∧ (t0 :: rest) !! i = Some t ∧
           is_uncultured (taxon_name t) = true).
  { intros last' (-> & i & t & Hi & Ht & Hu)%IH. split; [done|].
    exists (S i), t. split; [change (length RANK) with 7 in *; lia|by split]. }
  destruct (is_uncultured (taxon_name t0)) eqn:Hu0.
  - destruct (last_known_truthy last).
    + destruct (list_getitem RANK (Z.of_nat f)) as [r|e'] eqn:Hr; simpl in Hres.
      * destruct (resolve_suffix _ _ rest) as [rest'|e'] eqn:Hrest;
          simpl in Hres; [done|].
        injection Hres as ->. by eapply Hshift.
      * injection Hres as ->. apply list_getitem_Err in Hr as [-> Hr].
        split; [done|]. exists 0, t0. split; [change (length RANK) with 7 in *; lia|by split].
    + destruct (resolve_suffix _ _ rest) as [rest'|e'] eqn:Hrest;
        simpl in Hres; [done|].
      injection Hres as ->. by eapply Hshift.
  - destruct (resolve_suffix _ _ rest) as [rest'|e'] eqn:Hrest;
      simpl in Hres; [done|].
    injection Hres as ->. by eapply Hshift.
Qed.

(** X6. The only way [set_unique_taxon_names] can fail is the lookup of a
    rank name beyond the seven ranks: the exception is [IndexError], and
    the lineage then has a taxon named [uncultured...] at position seven
    or later. A lineage of at most seven taxa is always resolved. *)
Theorem set_unique_taxon_names_failure (self : MothurLineage)
    (_last_known : option string) :
  (∀ e, set_unique_taxon_names self 0 _last_known = Err e →
     e = IndexError ∧
     ∃ i t, length RANK <= i ∧ self !! i = Some t ∧
            is_uncultured (taxon_name t) = true) ∧
  (length self <= length RANK →
   ∃ l', set_unique_taxon_names self 0 _last_known = Ok l').
Proof.
  rewrite set_unique_taxon_names_from_0. split.
  - intros e He. by apply resolve_suffix_Err in He.
  - intros Hlen. by apply resolve_suffix_total.
Qed.

Lemma set_unique_taxon_names_failure_witness :
  (IndexError = IndexError ∧
   ∃ i t, length RANK <= i ∧ eight_taxa !! i = Some t ∧
          is_uncultured (taxon_name t) = true) ∧
  ∃ l', set_unique_taxon_names (genus_lineage "uncultured" 60) 0 None = Ok l'.
Proof.
  split.
  - apply (set_unique_taxon_names_failure eight_taxa None). reflexivity.
  - apply (set_unique_taxon_names_failure (genus_lineage "uncultured" 60) None).
    simpl. lia.
Defined.

Lemma resolve_suffix_beyond_ranks (f : nat) last (suf : MothurLineage)
    (i : nat) (t : MothurTaxonomy) :
  suf !! i = Some t →
  length RANK <= f + i →
  is_uncultured (taxon_name t) = true →
  Forall (fun t' => taxon_name t' ≠ "") (take (S i) suf) →
  last_known_truthy last = true ∨
  Exists (fun t' => is_uncultured (taxon_name t') = false) (take i suf) →
  resolve_suffix f last suf = Err IndexError.
Proof.
  revert f last i.
  induction suf as [|t0 rest IH]; intros f last i Hi Hf Hu Hne Hknown; [done|].
  rewrite firstn_cons in Hne. apply Forall_cons in Hne as [Hn0 Hne].
  cbn [resolve_suffix].
  assert (Hb0 : taxon_bool t0 = true).
  { unfold taxon_bool, is_empty_taxon. by destruct (taxon_name t0). }
  rewrite Hb0. simpl negb. cbv iota.
  change (String.prefix "uncultured" (taxon_name t0))
    with (is_uncultured (taxon_name t0)).
  destruct i as [|i]; simpl in Hi.
  - injection Hi as ->. rewrite Hu.
    destruct Hknown as [->|Hex]; [|by apply Exists_nil in Hex].
    unfold list_getitem.
    destruct (Z.ltb_spec (Z.of_nat f) 0); [lia|].
    destruct (Z.leb_spec 0 (Z.of_nat f)); [|lia].
    destruct (Z.ltb_spec (Z.of_nat f) (Z.of_nat (length RANK))); [lia|done].
  - destruct (is_uncultured (taxon_name t0)) eqn:Hu0.
    + assert (Hrec : resolve_suffix (S f) last rest = Err IndexError).
      { eapply IH; eauto; [lia|].
        destruct Hknown as [?|Hex]; [by left|right].
        rewrite firstn_cons in Hex.
        apply Exists_cons in Hex as [Hex|?]; [congruence|done]. }
      rewrite Hrec.
      destruct (last_known_truthy last); [|reflexivity].
      destruct (list_getitem RANK (Z.of_nat f)) eqn:Hr; [reflexivity|].
      apply list_getitem_Err in Hr as [-> _]. reflexivity.
    + rewrite (IH (S f) (Some (taxon_name t0)) i); eauto; [lia|].
      left. simpl. by destruct (taxon_name t0).
Qed.

(** X7. A lineage deeper than the seven ranks cannot be resolved when a
    taxon at position seven or later is named [uncultured...], comes
    after a taxon with a known name, and no taxon up to it has an empty
    name: the walk looks the rank name up in [RANK] and raises
    [IndexError]. *)
Theorem set_unique_taxon_names_beyond_ranks (self : MothurLineage)
    (i : nat) (t : MothurTaxonomy) :
  self !! i = Some t →
  length RANK <= i →
  is_uncultured (taxon_name t) = true →
  Forall (fun t' => taxon_name t' ≠ "") (take (S i) self) →
  Exists (fun t' => is_uncultured (taxon_name t') = false) (take i self) →
  set_unique_taxon_names self 0 None = Err IndexError.
Proof.
  intros Hi Hlen Hu Hne Hex. rewrite set_unique_taxon_names_from_0.
  eapply resolve_suffix_beyond_ranks; eauto.
Qed.

Lemma set_unique_taxon_names_beyond_ranks_witness :
  set_unique_taxon_names eight_taxa 0 None = Err IndexError.
Proof.
  apply (set_unique_taxon_names_beyond_ranks eight_taxa 7
           (mkTaxonomy "uncultured" 80 None)).
  - reflexivity.
  - simpl. lia.
  - reflexivity.
  - repeat constructor; discriminate.
  - apply Exists_cons. left. reflexivity.
Defined.

(** ** No resolved name is left ambiguous *)

Lemma prefix_app_sep (p k r : string) (c : ascii) :
  no_char c p = true →
  String.prefix p (k +:+ String c r) = true → String.prefix p k = true.
Proof.
  revert k. induction p as [|a p IH]; intros k Hp Hpre; [by destruct k|].
  simpl in Hp. apply andb_true_iff in Hp as [Ha Hp].
  destruct k as [|b k]; simpl in Hpre |- *.
  - destruct (ascii_dec a c) as [->|]; [|done].
    by rewrite Ascii.eqb_refl in Ha.
  - destruct (ascii_dec a b); [|done]. by apply IH.
Qed.

Lemma last_known_name_known (names : list string) (k : string) :
  last_known_name names = Some k → is_uncultured k = false.
Proof.
  unfold last_known_name. intros Hl%last_Some_elem_of.
  by apply list_elem_of_filter in Hl as [? _].
Qed.

(** X8. After parsing, a taxon that no empty name precedes never has a
    resolved name that starts with [uncultured]: a known name is kept,
    and an [uncultured] taxon is renamed after the last known name and
    its rank, or [unknown]. *)
Theorem parsed_names_resolved (s : string) (l : MothurLineage)
    (i : nat) (t : MothurTaxonomy) :
  lineage_from_str s = Ok l →
  l !! i = Some t →
  Forall (fun t' => taxon_name t' ≠ "") (take i l) →
  is_uncultured (unique_taxon_name t) = false.
Proof.
  intros (new & Hnew & Hres)%lineage_from_str_inv Hi Hne.
  pose proof (resolve_suffix_names _ _ _ _ Hres) as Hnames.
  destruct (is_uncultured (taxon_name t)) eqn:Hu.
  - pose proof (resolve_suffix_rule [] new l i t (Forall_nil_2 _) Hres Hi) as Hrule.
    simpl in Hrule. rewrite <- Hnames in Hrule.
    specialize (Hrule (Forall_take_names _ _ _ Hnames Hne) Hu).
    unfold rule_resolved_name in Hrule.
    destruct (last_known_name _) as [k|] eqn:Hk.
    + destruct (RANK !! i) as [r|]; simpl in Hrule; [|done].
      injection Hrule as ->.
      apply last_known_name_known in Hk.
      destruct (is_uncultured (k +:+ "_" +:+ r)) eqn:Hkr; [|done].
      unfold is_uncultured in Hkr.
      apply (prefix_app_sep "uncultured" k r "_") in Hkr; [|done].
      unfold is_uncultured in Hk. congruence.
    + by injection Hrule as ->.
  - rewrite (resolve_suffix_unresolved _ _ _ _ i t
               (map_result_fresh _ _ Hnew) Hres Hi); [done|by left].
Qed.

Lemma parsed_names_resolved_witness :
  is_uncultured (unique_taxon_name (mkTaxonomy "uncultured" 70 (Some "Bacteria_class")))
  = false.
Proof.
  apply (parsed_names_resolved
           "Bacteria(100);uncultured(80);uncultured(70);" scenario_lineage 2).
  - reflexivity.
  - reflexivity.
  - repeat constructor; discriminate.
Defined.

(** ** Integers and whitespace *)

Lemma rstrip_ws_no_space (s : string) :
  string_forall (fun a => negb (is_space a)) s = true → rstrip_ws s = s.
Proof.
  induction s as [|a s IH]; [done|]. simpl.
  intros [Ha Hs]%andb_true_iff. rewrite (IH Hs).
  apply negb_true_iff in Ha. rewrite Ha. by destruct s.
Qed.

Lemma int_rstrip_no_space (s : string) :
  string_forall (fun a => negb (is_int_space a)) s = true → int_rstrip s = s.
Proof.
  induction s as [|a s IH]; [done|]. simpl.
  intros [Ha Hs]%andb_true_iff. rewrite (IH Hs).
  apply negb_true_iff in Ha. rewrite Ha. by destruct s.
Qed.

Lemma int_strip_no_space (s : string) :
  string_forall (fun a => negb (is_int_space a)) s = true → int_strip s = s.
Proof.
  intros Hs. unfold int_strip.
  assert (int_lstrip s = s) as ->; [|by apply int_rstrip_no_space].
  destruct s as [|a s]; [done|]. simpl in *.
  apply andb_true_iff in Hs as [Ha _]. apply negb_true_iff in Ha.
  by rewrite Ha.
Qed.

Lemma is_digit_not_int_space (a : ascii) :
  is_digit a = true → negb (is_int_space a) = true.
Proof.
  unfold is_digit, is_int_space. cbv zeta.
  generalize (nat_of_ascii a). intros n Hn.
  apply andb_true_iff in Hn as [H1%Nat.leb_le H2%Nat.leb_le].
  apply negb_true_iff. repeat (apply orb_false_iff; split).
  - apply andb_false_iff. right. apply Nat.leb_gt. lia.
  - apply Nat.eqb_neq. lia.
  - apply Nat.eqb_neq. lia.
  - apply Nat.eqb_neq. lia.
Qed.

Lemma is_digit_not_space (a : ascii) :
  is_digit a = true → negb (is_space a) = true.
Proof.
  unfold is_digit, is_space. cbv zeta.
  generalize (nat_of_ascii a). intros n Hn.
  apply andb_true_iff in Hn as [H1%Nat.leb_le H2%Nat.leb_le].
  apply negb_true_iff. repeat (apply orb_false_iff; split).
  - apply andb_false_iff. right. apply Nat.leb_gt. lia.
  - apply andb_false_iff. right. apply Nat.leb_gt. lia.
  - apply Nat.eqb_neq. lia.
  - apply Nat.eqb_neq. lia.
Qed.

Lemma is_digit_not_char (c a : ascii) :
  is_digit c = false → is_digit a = true → Ascii.eqb a c = false.
Proof.
  intros Hc Ha. destruct (Ascii.eqb_spec a c) as [->|]; [congruence|done].
Qed.

Lemma literal_digits_digits (prev : bool) (ds : string) :
  string_forall is_digit ds = true → prev = true ∨ ds ≠ "" →
  literal_digits prev ds = Some ds.
Proof.
  revert prev. induction ds as [|a ds IH]; intros prev Hds Hne; simpl.
  - by destruct Hne as [->|].
  - simpl in Hds. apply andb_true_iff in Hds as [Ha Hds].
    rewrite Ha, (IH true Hds); [done|by left].
Qed.

Lemma string_of_uint_nonempty (d : Decimal.uint) :
  d ≠ Decimal.Nil → NilEmpty.string_of_uint d ≠ "".
Proof. by destruct d. Qed.

Lemma int_str_digits (ds : string) :
  string_forall is_digit ds = true → ds ≠ "" →
  int_str ds = Ok (int_of_digits ds) ∧
  int_str (String "-" ds) = Ok (- int_of_digits ds)%Z.
Proof.
  intros Hds Hne.
  assert (Hsp : string_forall (fun a => negb (is_int_space a)) ds = true).
  { eapply string_forall_impl; [|exact Hds]. apply is_digit_not_int_space. }
  unfold int_str. split.
  - rewrite int_strip_no_space by done.
    destruct ds as [|a ds]; [done|]. simpl in Hds.
    apply andb_true_iff in Hds as [Ha Hds]. unfold split_sign.
    rewrite (is_digit_not_char "-" a), (is_digit_not_char "+" a) by done.
    cbn [snd fst]. rewrite literal_digits_digits; [done| |by right].
    simpl. by rewrite Ha, Hds.
  - rewrite int_strip_no_space by (simpl; by rewrite Hsp).
    simpl. by rewrite literal_digits_digits; [| |right].
Qed.

(** [int(str(n))] is [n]. *)
Lemma int_str_str_int (n : Z) : int_str (str_int n) = Ok n.
Proof.
  unfold str_int. destruct n as [|p|p]; [done| |].
  - change (Z.to_int (Z.pos p)) with (Decimal.Pos (Pos.to_uint p)).
    cbn [NilEmpty.string_of_int].
    destruct (int_str_digits (NilEmpty.string_of_uint (Pos.to_uint p)))
      as [-> _].
    + apply string_of_uint_digits.
    + apply string_of_uint_nonempty, DecimalPos.Unsigned.to_uint_nonnil.
    + f_equal. apply (int_of_digits_format_u (Z.pos p)). lia.
  - change (Z.to_int (Z.neg p)) with (Decimal.Neg (Pos.to_uint p)).
    cbn [NilEmpty.string_of_int].
    destruct (int_str_digits (NilEmpty.string_of_uint (Pos.to_uint p)))
      as [_ ->].
    + apply string_of_uint_digits.
    + apply string_of_uint_nonempty, DecimalPos.Unsigned.to_uint_nonnil.
    + f_equal.
      change (NilEmpty.string_of_uint (Pos.to_uint p)) with (format_u (Z.pos p)).
      rewrite int_of_digits_format_u; lia.
Qed.

Lemma no_char_str_int (c : ascii) (n : Z) :
  is_digit c = false → Ascii.eqb "-" c = false → no_char c (str_int n) = true.
Proof.
  intros Hc Hm. unfold str_int, no_char.
  assert (Hd : ∀ d, string_forall (fun a => negb (Ascii.eqb a c))
                      (NilEmpty.string_of_uint d) = true).
  { intros d. eapply string_forall_impl; [|apply string_of_uint_digits].
    intros a Ha. apply negb_true_iff. by apply is_digit_not_char. }
  destruct (Z.to_int n) as [d|d]; cbn [NilEmpty.string_of_int string_forall];
    [apply Hd|]. by rewrite Hm, Hd.
Qed.

(** ** One line of the taxonomy file *)

Lemma no_char_join (c : ascii) (sep : string) (l : list string) :
  no_char c sep = true → Forall (fun x => no_char c x = true) l →
  no_char c (join sep l) = true.
Proof.
  intros Hsep. induction 1 as [|x l Hx Hl IH]; [done|].
  destruct l as [|y l]; [done|].
  change (join sep (x :: y :: l)) with (x +:+ sep +:+ join sep (y :: l)).
  unfold no_char in *. by rewrite !string_forall_app, Hx, Hsep, IH.
Qed.

Lemma no_char_lineage_str (c : ascii) (segs : list (string * Z)) :
  is_digit c = false →
  Ascii.eqb "(" c = false → Ascii.eqb ")" c = false → Ascii.eqb ";" c = false →
  Forall (fun p => no_char c p.1 = true ∧ (0 <= p.2)%Z) segs →
  no_char c (lineage_str segs) = true.
Proof.
  intros Hc Ho Hcl Hs Hsegs. unfold lineage_str.
  assert (Hsep : no_char c ";" = true).
  { unfold no_char. cbn [string_forall]. by rewrite Hs. }
  unfold no_char. rewrite string_forall_app. fold (no_char c).
  rewrite Hsep, andb_true_r. apply no_char_join; [done|].
  apply Forall_fmap. eapply Forall_impl; [exact Hsegs|].
  intros p [Hname Hconf]. unfold compose, segment_str, no_char in *.
  cbn beta. rewrite !string_forall_app, Hname. cbn [string_forall].
  rewrite Ho, Hcl. cbn [negb andb]. rewrite andb_true_r.
  eapply string_forall_impl; [|by apply format_u_digits].
  intros a Ha. apply negb_true_iff. by apply is_digit_not_char.
Qed.

(** Parsing the string of well-formed segments gives taxa with these raw
    names and confidences. *)
Lemma lineage_from_str_segments (segs : list (string * Z)) :
  segs ≠ [] →
  length segs <= length RANK →
  Forall well_formed_segment segs →
  ∃ l, lineage_from_str (lineage_str segs) = Ok l ∧ raw <$> l = segs.
Proof.
  intros Hne Hlen Hwf. unfold lineage_from_str, lineage_str.
  assert (Hne' : segment_str <$> segs ≠ []) by (by destruct segs).
  rewrite (rstrip_snoc_same ";"%char).
  destruct (join_ends_with ";" ")"%char (segment_str <$> segs)) as [b Hb];
    [done| |].
  { apply Forall_fmap, Forall_forall. intros p _. apply segment_str_ends. }
  rewrite Hb, rstrip_snoc_other by done. rewrite <- Hb.
  rewrite split_join; [|done|].
  2:{ apply Forall_fmap. eapply Forall_impl; [exact Hwf|].
      intros p Hp. by apply no_char_segment_str. }
  rewrite map_result_segments by done. simpl.
  rewrite set_unique_taxon_names_resolve.
  destruct (resolve_suffix_total 0 None
              ((fun p => mkTaxonomy p.1 p.2 None) <$> segs)) as [l Hl].
  { by rewrite length_fmap. }
  exists l. split; [done|].
  rewrite (resolve_suffix_raw _ _ _ _ Hl), <- list_fmap_compose.
  rewrite <- (list_fmap_id segs) at 2. apply list_fmap_ext.
  by intros i [name conf] _.
Qed.

Lemma list_getitem_Some {A} (l : list A) (i : nat) (x : A) :
  l !! i = Some x → list_getitem l (Z.of_nat i) = Ok x.
Proof.
  intros Hx. destruct (list_getitem_lookup_lt l i) as [y Hy].
  { by eapply lookup_lt_Some. }
  rewrite Hy. apply list_getitem_lookup in Hy. congruence.
Qed.

Lemma otu_from_str_fields (a b c : string) (rest : list string) :
  Forall (fun x => no_char tab x = true) (a :: b :: c :: rest) →
  otu_from_str (join (String tab "") (a :: b :: c :: rest))
  = (size ← int_str b; lineage ← lineage_from_str c;
     Ok (mkOtuTaxonomy a size lineage)).
Proof.
  intros Hf. unfold otu_from_str. rewrite split_join by done.
  rewrite (list_getitem_Some _ 0 a), (list_getitem_Some _ 1 b),
    (list_getitem_Some _ 2 c); done.
Qed.

(** X9. Writing an OTU record as a line and reading the line back gives
    the name, the size (of either sign) and the raw lineage of the
    record, and the record read prints as the same line; resolved names
    are not part of the line and are computed afresh. *)
Theorem otu_line_round_trip (r : MothurOtuTaxonomy) :
  well_formed_record r →
  ∃ r', otu_from_str (otu_to_str r) = Ok r' ∧
        otu_name r' = otu_name r ∧ size r' = size r ∧
        raw <$> taxonomy r' = raw <$> taxonomy r ∧
        otu_to_str r' = otu_to_str r.
Proof.
  intros (Hname & Hne & Hlen & Hwf). unfold otu_to_str.
  destruct (lineage_from_str_segments (raw <$> taxonomy r)) as (l & Hl & Hraw).
  { by destruct (taxonomy r). }
  { by rewrite length_fmap. }
  { apply Forall_fmap. eapply Forall_impl; [exact Hwf|]. by intros t [? _]. }
  rewrite otu_from_str_fields.
  2:{ repeat constructor; [done|by apply no_char_str_int|].
      rewrite lineage_to_str_raw. apply no_char_lineage_str; try done.
      apply Forall_fmap. eapply Forall_impl; [exact Hwf|].
      intros t [(_ & _ & Hconf) Htab]. by split. }
  rewrite int_str_str_int, lineage_to_str_raw, Hl. simpl.
  eexists. split; [done|]. simpl. repeat split; [done|].
  by rewrite !lineage_to_str_raw, Hraw.
Qed.

Lemma otu_line_round_trip_witness :
  ∃ r', otu_from_str (otu_to_str scenario_record) = Ok r' ∧
        otu_name r' = "Otu1" ∧ size r' = 5%Z ∧
        raw <$> taxonomy r' = raw <$> genus_lineage "Alpha" 100 ∧
        otu_to_str r' = otu_to_str scenario_record.
Proof.
  apply (otu_line_round_trip scenario_record).
  split; [reflexivity|]. split; [discriminate|]. split; [simpl; lia|].
  repeat constructor; simpl; lia.
Defined.

Lemma int_str_Err (s : string) (e : exn) :
  int_str s = Err e → ∃ m, e = ValueError m.
Proof.
  unfold int_str. destruct (literal_digits _ _); [done|].
  intros [= <-]. eauto.
Qed.

(** X10. A line with fewer than three fields cannot be read: without any
    tabulation (a blank line, for one) reading raises [IndexError]; with
    one tabulation it raises the [ValueError] of [int] when the second
    field is not an integer for [int] (as a digit followed by the unit
    separator, which [int] does not skip), and [IndexError] otherwise. *)
Theorem otu_from_str_short_line (a b : string) :
  no_char tab a = true → no_char tab b = true →
  otu_from_str a = Err IndexError ∧
  otu_from_str (a +:+ String tab b)
  = match int_str b with
    | Ok _ => Err IndexError
    | Err e => Err e
    end ∧
  (∀ e, int_str b = Err e → ∃ m, e = ValueError m).
Proof.
  intros Ha Hb. unfold otu_from_str. split; [|split].
  - by rewrite split_no_char.
  - rewrite split_app_sep, split_no_char by done.
    unfold list_getitem. simpl. by destruct (int_str b).
  - apply int_str_Err.
Qed.

Lemma otu_from_str_short_line_witness :
  otu_from_str "" = Err IndexError ∧
  otu_from_str ("Otu1" +:+ String tab "5") = Err IndexError ∧
  otu_from_str ("Otu1" +:+ String tab "five")
  = Err (ValueError "invalid literal for int() with base 10") ∧
  otu_from_str ("Otu1" +:+ String tab (String "5" (String "031" "")))
  = Err (ValueError "invalid literal for int() with base 10").
Proof.
  split; [|split; [|split]].
  - apply (otu_from_str_short_line "" ""); reflexivity.
  - apply (otu_from_str_short_line "Otu1" "5"); reflexivity.
  - apply (otu_from_str_short_line "Otu1" "five"); reflexivity.
  - apply (otu_from_str_short_line "Otu1" (String "5" (String "031" "")));
      reflexivity.
Defined.

(** X11. Only the first three fields of a line are read: whatever
    follows a third tabulation is ignored. *)
Theorem otu_from_str_extra_fields (a b c rest : string) :
  no_char tab a = true → no_char tab b = true → no_char tab c = true →
  otu_from_str (a +:+ String tab (b +:+ String tab (c +:+ String tab rest)))
  = otu_from_str (a +:+ String tab (b +:+ String tab c)).
Proof.
  intros Ha Hb Hc. unfold otu_from_str.
  rewrite !split_app_sep by done. rewrite (split_no_char tab c) by done.
  rewrite !(list_getitem_Some _ 0 a), !(list_getitem_Some _ 1 b),
    !(list_getitem_Some _ 2 c); done.
Qed.

Lemma otu_from_str_extra_fields_witness :
  otu_from_str ("Otu1" +:+ String tab ("5" +:+ String tab
                  ("Bacteria(100);" +:+ String tab "a comment")))
  = otu_from_str ("Otu1" +:+ String tab ("5" +:+ String tab "Bacteria(100);")).
Proof.
  apply (otu_from_str_extra_fields "Otu1" "5" "Bacteria(100);" "a comment");
    reflexivity.
Defined.

(** ** The taxonomy file *)

(** X12. The header line is discarded wherever it stands in the file,
    also when whitespace follows it. *)
Theorem from_file_skips_header (pre post : list string) (line : string)
    (new : gmap string MothurOtuTaxonomy) :
  rstrip_ws line = taxonomy_header →
  otu_dict_add_lines (pre ++ line :: post) new
  = otu_dict_add_lines (pre ++ post) new.
Proof.
  intros Hh. revert new. induction pre as [|l pre IH]; intros new; simpl.
  - by rewrite Hh, String.eqb_refl.
  - destruct (String.eqb _ _); [done|].
    destruct (otu_from_str _); simpl; [|done]. apply IH.
Qed.

Lemma from_file_skips_header_witness :
  otu_dict_add_lines
    ([scenario_line +:+ String Re.newline ""]
     ++ (taxonomy_header +:+ String Re.newline "") :: []) ∅
  = otu_dict_add_lines ([scenario_line +:+ String Re.newline ""] ++ []) ∅.
Proof.
  apply (from_file_skips_header [scenario_line +:+ String Re.newline ""] []
           (taxonomy_header +:+ String Re.newline "")).
  reflexivity.
Defined.

Lemma otu_dict_add_lines_lookup (lines : list string)
    (new d : gmap string MothurOtuTaxonomy) (k : string) :
  otu_dict_add_lines lines new = Ok d →
  d !! k = match last (filter (fun r => otu_name r = k) (records lines)) with
           | Some r => Some r
           | None => new !! k
           end.
Proof.
  revert new. induction lines as [|line lines IH]; intros new Hd; simpl in Hd.
  { by injection Hd as <-. }
  unfold records. cbn [omap list_omap]. unfold line_record at 1, is_header.
  destruct (String.eqb _ _); [by apply IH|].
  destruct (otu_from_str _) as [otu|]; simpl in Hd; [|done].
  rewrite (IH _ Hd). fold (records lines).
  rewrite filter_cons. destruct (decide (otu_name otu = k)) as [<-|Hk].
  - rewrite last_cons, lookup_insert_eq.
    by destruct (last (filter _ (records lines))).
  - by rewrite lookup_insert_ne.
Qed.

(** X13. The dictionary read from a file maps a name to the record of
    the last line that carries this name: every record is stored under
    its own name, and a later line replaces an earlier one of the same
    OTU. *)
Theorem from_file_last_record (lines : list string)
    (d : gmap string MothurOtuTaxonomy) :
  otu_dict_from_lines lines = Ok d →
  (∀ k, d !! k = last (filter (fun r => otu_name r = k) (records lines))) ∧
  (∀ k r, d !! k = Some r → otu_name r = k ∧ r ∈ records lines).
Proof.
  intros Hd.
  assert (Hk : ∀ k, d !! k
               = last (filter (fun r => otu_name r = k) (records lines))).
  { intros k. rewrite (otu_dict_add_lines_lookup _ _ _ k Hd).
    by destruct (last _). }
  split; [done|]. intros k r Hr. rewrite Hk in Hr.
  apply last_Some_elem_of, list_elem_of_filter in Hr. done.
Qed.

Lemma from_file_last_record_witness :
  (∀ k, ({[ "Otu1" := scenario_record ]} : gmap string MothurOtuTaxonomy) !! k
        = last (filter (fun r => otu_name r = k) (records scenario_lines))) ∧
  (∀ k r, ({[ "Otu1" := scenario_record ]} : gmap string MothurOtuTaxonomy) !! k
          = Some r → otu_name r = k ∧ r ∈ records scenario_lines).
Proof.
  apply (from_file_last_record scenario_lines {[ "Otu1" := scenario_record ]}).
  vm_compute. reflexivity.
Defined.

(** X14. Reading stops at the first line that is neither the header nor
    a record, with the exception of that line; a file all of whose lines
    are readable gives a dictionary. *)
Theorem from_file_first_error (pre post : list string) (line : string)
    (e : exn) :
  Forall readable pre →
  (is_header line = false → otu_from_str (rstrip_ws line) = Err e →
   otu_dict_from_lines (pre ++ line :: post) = Err e) ∧
  ∃ d, otu_dict_from_lines pre = Ok d.
Proof.
  intros Hpre. unfold otu_dict_from_lines. generalize (∅ : gmap string MothurOtuTaxonomy).
  induction Hpre as [|l pre Hl Hpre IH]; intros new.
  - split; [|by eexists]. intros Hh He. simpl.
    unfold is_header in Hh. by rewrite Hh, He.
  - simpl. destruct Hl as [Hl|Hl]; unfold is_header in Hl.
    + rewrite Hl. apply IH.
    + unfold line_record, is_header in Hl.
      destruct (String.eqb _ _); [apply IH|].
      destruct (otu_from_str (rstrip_ws l)) as [otu|]; simpl; [apply IH|].
      by destruct Hl.
Qed.

Lemma from_file_first_error_witness :
  otu_dict_from_lines ([scenario_line] ++ "" :: [scenario_line]) = Err IndexError ∧
  ∃ d, otu_dict_from_lines [scenario_line] = Ok d.
Proof.
  destruct (from_file_first_error [scenario_line] [scenario_line] "" IndexError)
    as [Herr Hok].
  - constructor; [|constructor]. right. eexists. reflexivity.
  - split; [|exact Hok]. apply Herr; reflexivity.
Defined.

(** ** A record without lineage *)

Lemma rstrip_ws_spaces (ws : string) :
  string_forall is_space ws = true → rstrip_ws ws = "".
Proof.
  induction ws as [|a ws IH]; [done|]. simpl.
  intros [Ha Hws]%andb_true_iff. by rewrite (IH Hws), Ha.
Qed.

Lemma rstrip_ws_app_spaces (s ws : string) :
  string_forall is_space ws = true → rstrip_ws (s +:+ ws) = rstrip_ws s.
Proof.
  intros Hws. induction s as [|a s IH]; simpl.
  - by apply rstrip_ws_spaces.
  - by rewrite IH.
Qed.

Lemma rstrip_ws_app_no_space (a b : string) :
  string_forall (fun c => negb (is_space c)) b = true → b ≠ "" →
  rstrip_ws (a +:+ b) = a +:+ b.
Proof.
  intros Hb Hne. induction a as [|c a IH]; simpl.
  - by apply rstrip_ws_no_space.
  - rewrite IH. destruct (a +:+ b) eqn:Hab; [|done].
    destruct a; [|done]. by destruct b.
Qed.

Lemma str_int_no_space (n : Z) :
  string_forall (fun c => negb (is_space c)) (str_int n) = true ∧
  str_int n ≠ "".
Proof.
  unfold str_int.
  assert (Hd : ∀ d, string_forall (fun c => negb (is_space c))
                      (NilEmpty.string_of_uint d) = true).
  { intros d. eapply string_forall_impl; [|apply string_of_uint_digits].
    apply is_digit_not_space. }
  destruct n as [|p|p]; [done| |].
  - change (Z.to_int (Z.pos p)) with (Decimal.Pos (Pos.to_uint p)).
    cbn [NilEmpty.string_of_int]. split; [apply Hd|].
    apply string_of_uint_nonempty, DecimalPos.Unsigned.to_uint_nonnil.
  - change (Z.to_int (Z.neg p)) with (Decimal.Neg (Pos.to_uint p)).
    cbn [NilEmpty.string_of_int string_forall]. by rewrite Hd.
Qed.

(** X15. A line whose third field is empty holds a record for
    [MothurOtuTaxonomy.from_str]: its lineage is the single empty taxon.
    The reader of the file does not accept it: [rstrip] removes the
    tabulation before the empty field with the line break, the line is
    left with two fields, and reading it raises [IndexError]. *)
Theorem from_file_empty_lineage (name : string) (n : Z) (ws : string) :
  no_char tab name = true →
  string_forall is_space ws = true →
  otu_from_str (name +:+ String tab (str_int n +:+ String tab ""))
  = Ok (mkOtuTaxonomy name n [mkTaxonomy "" 0 None]) ∧
  otu_dict_from_lines [name +:+ String tab (str_int n +:+ String tab ws)]
  = Err IndexError.
Proof.
  intros Hname Hws.
  pose proof (no_char_str_int tab n eq_refl eq_refl) as Hn.
  destruct (str_int_no_space n) as [Hsp Hne]. split.
  - unfold otu_from_str. rewrite !split_app_sep by done.
    change (split tab "") with [""].
    rewrite (list_getitem_Some _ 0 name), (list_getitem_Some _ 1 (str_int n)),
      (list_getitem_Some _ 2 "") by done.
    rewrite !bind_Ok, int_str_str_int, bind_Ok.
    change (lineage_from_str "") with (Ok [mkTaxonomy "" 0 None]).
    done.
  - unfold otu_dict_from_lines. cbn [otu_dict_add_lines].
    assert (Hstrip : rstrip_ws (name +:+ String tab (str_int n +:+ String tab ws))
                     = name +:+ String tab (str_int n)).
    { replace (name +:+ String tab (str_int n +:+ String tab ws))
        with ((name +:+ String tab (str_int n)) +:+ String tab ws)
        by (by rewrite string_app_assoc).
      rewrite rstrip_ws_app_spaces by (cbn [string_forall]; by rewrite Hws).
      rewrite <- (string_app_snoc name tab (str_int n)).
      by apply rstrip_ws_app_no_space. }
    rewrite Hstrip.
    destruct (String.eqb_spec (name +:+ String tab (str_int n)) taxonomy_header)
      as [Heq|_].
    { apply (f_equal (split tab)) in Heq.
      rewrite split_app_sep, split_no_char in Heq by done.
      change (split tab taxonomy_header) with ["OTU"; "Size"; "Taxonomy"] in Heq.
      discriminate. }
    unfold otu_from_str. rewrite split_app_sep, split_no_char by done.
    rewrite (list_getitem_Some _ 0 name), (list_getitem_Some _ 1 (str_int n))
      by done.
    rewrite !bind_Ok, int_str_str_int, bind_Ok. done.
Qed.

Lemma from_file_empty_lineage_witness :
  otu_from_str ("Otu1" +:+ String tab ("5" +:+ String tab ""))
  = Ok (mkOtuTaxonomy "Otu1" 5 [mkTaxonomy "" 0 None]) ∧
  otu_dict_from_lines ["Otu1" +:+ String tab ("5" +:+ String tab (String "010" ""))]
  = Err IndexError.
Proof.
  apply (from_file_empty_lineage "Otu1" 5 (String "010" "")); reflexivity.
Defined.

(** ** Construction and normalization of tables *)

Section table_extras.
Context {num : Type} `{Scalar num}.

(** X16. [MothurSharedTable.__init__] accepts exactly the arguments in
    which the labels, the groups and the OTU counts are as many as the
    rows of the data, the OTU names as many as its columns, and there is
    at least one row; the checks of the base class then never fail. The
    table has the groups as row tags and the OTU names as column tags,
    and satisfies the invariant of tables. With no row at all the
    constructor raises [IndexError], not its own error. *)
Theorem MothurSharedTable_init_accepts (label group : list string)
    (num_otus : list Z) (otu : list string) (a : ndarray num) :
  (∀ t, MothurSharedTable_init label group num_otus otu a = Ok t ↔
        length label = nrows a ∧ length group = nrows a ∧
        length num_otus = nrows a ∧ 0 < nrows a ∧ length otu = ncols a ∧
        t = mkTable group otu a (Some (label, num_otus))) ∧
  (∀ t, wf_ndarray a →
        MothurSharedTable_init label group num_otus otu a = Ok t →
        wf_table t) ∧
  (length label = 0 → length group = 0 → length num_otus = 0 → nrows a = 0 →
   MothurSharedTable_init label group num_otus otu a = Err IndexError).
Proof.
  assert (Hiff : ∀ t, MothurSharedTable_init label group num_otus otu a = Ok t ↔
        length label = nrows a ∧ length group = nrows a ∧
        length num_otus = nrows a ∧ 0 < nrows a ∧ length otu = ncols a ∧
        t = mkTable group otu a (Some (label, num_otus))).
  { intros t. unfold MothurSharedTable_init, TaggedTable_init, nrows.
    destruct (Nat.eqb_spec (length label) (length group)) as [Hl|Hl];
      simpl; [|split; [done|lia]].
    destruct (Nat.eqb_spec (length group) (length num_otus)) as [Hg|Hg];
      simpl; [|split; [done|lia]].
    destruct (Nat.eqb_spec (length num_otus) (length (rows a))) as [Hn|Hn];
      simpl; [|split; [done|lia]].
    destruct (rows a) as [|r rs] eqn:Hrows; simpl in *; [split; [done|lia]|].
    destruct (Nat.eqb_spec (length otu) (ncols a)) as [Ho|Ho];
      simpl; [|split; [done|lia]].
    destruct (Nat.eqb_spec (length group) (S (length rs))) as [Hg'|Hg'];
      simpl; [|lia].
    unfold with_shared_attrs. simpl. split.
    - intros [= <-]. repeat split; lia.
    - by intros (_ & _ & _ & _ & _ & ->). }
  split; [done|]. split.
  - intros t Hwf (Hl & Hg & Hn & Hpos & Ho & ->)%Hiff. by repeat split.
  - intros Hl Hg Hn Ha. unfold MothurSharedTable_init, nrows in *.
    rewrite Hl, Hg, Hn, Ha. simpl. by destruct (rows a).
Qed.

(** X17. [normalize_rows], in place or not, leaves the tags and the
    shape of the table as they are and keeps the invariant of tables;
    every entry of the result is the entry of the source divided by the
    sum of its row. In place the result is the object of [self] and the
    store has the same objects; otherwise it is a new object. No other
    object changes. *)
Theorem normalize_rows_entries (self : loc) (t : TaggedTable num)
    (inplace : bool) (h : gmap loc (TaggedTable num)) :
  h !! self = Some t →
  wf_table t →
  ∃ ret t' h',
    normalize_rows self inplace h = Ok (ret, h') ∧
    h' !! ret = Some t' ∧
    wf_table t' ∧
    row_tag t' = row_tag t ∧ col_tag t' = col_tag t ∧
    shared_attrs t' = shared_attrs t ∧
    (∀ i r, rows (data t) !! i = Some r →
       rows (data t') !! i = Some ((fun x => true_divide x (sum r)) <$> r)) ∧
    (∀ l, l ≠ ret → h' !! l = h !! l) ∧
    (if inplace then ret = self ∧ dom h' = dom h
     else h !! ret = None ∧ h' !! self = Some t).
Proof.
  intros Hself (Hwf & Hrow & Hcol & Hpos).
  set (t' := mkTable (row_tag t) (col_tag t)
               (divide_rows (data t) (sum_axis1 (data t))) (shared_attrs t)).
  assert (Hrows : ∀ i r, rows (data t) !! i = Some r →
            rows (data t') !! i = Some ((fun x => true_divide x (sum r)) <$> r)).
  { intros i r Hr. unfold t', divide_rows, sum_axis1. simpl.
    rewrite lookup_zip_with, Hr. simpl. by rewrite list_lookup_fmap, Hr. }
  assert (Hnr : nrows (data t') = nrows (data t)).
  { unfold t', nrows, divide_rows, sum_axis1. simpl.
    rewrite length_zip_with, length_fmap. lia. }
  assert (Hwf' : wf_table t').
  { split; [|by rewrite Hnr]. unfold wf_ndarray. apply Forall_lookup.
    intros i r' Hr'.
    destruct (lookup_lt_is_Some_2 (rows (data t)) i) as [r Hr].
    { apply lookup_lt_Some in Hr'. fold (nrows (data t')) in Hr'.
      fold (nrows (data t)). lia. }
    rewrite (Hrows i r Hr) in Hr'. injection Hr' as <-.
    rewrite length_fmap. unfold wf_ndarray in Hwf.
    by apply (Forall_lookup_1 _ _ _ _ Hwf Hr). }
  destruct inplace.
  - exists self, t', (<[self := t']> h).
    split; [by apply normalize_rows_inplace|].
    split; [apply lookup_insert_eq|]. split; [done|].
    do 3 (split; [done|]). split; [done|].
    split; [by intros l Hl; rewrite lookup_insert_ne|].
    split; [done|]. rewrite dom_insert_L.
    apply elem_of_dom_2 in Hself. apply set_eq. intros l.
    rewrite elem_of_union, elem_of_singleton.
    split; [intros [->|?]; done|by right].
  - set (ret := fresh (dom h)).
    assert (Hfresh : h !! ret = None) by (apply not_elem_of_dom, is_fresh).
    assert (Hne : ret ≠ self) by congruence.
    exists ret, t', (<[ret := t']> h). split.
    { unfold normalize_rows, deepcopy, load, alloc. rewrite Hself, !bind_Ok.
      cbn [fst snd]. fold ret. rewrite lookup_insert_eq, bind_Ok.
      by rewrite insert_insert_eq. }
    split; [apply lookup_insert_eq|]. split; [done|].
    do 3 (split; [done|]). split; [done|].
    split; [by intros l Hl; rewrite lookup_insert_ne|].
    split; [done|]. by rewrite lookup_insert_ne.
Qed.

End table_extras.

Lemma MothurSharedTable_init_accepts_witness :
  MothurSharedTable_init ["0.03"; "0.03"] ["s1"; "s2"] [3%Z; 3%Z]
    ["Otu1"; "Otu2"; "Otu3"] (data scenario_counts) = Ok scenario_counts ∧
  wf_table scenario_counts ∧
  MothurSharedTable_init [] [] [] ["Otu1"] (mk_ndarray 1 ([] : list (list Q)))
  = Err IndexError.
Proof.
  destruct (MothurSharedTable_init_accepts ["0.03"; "0.03"] ["s1"; "s2"]
              [3%Z; 3%Z] ["Otu1"; "Otu2"; "Otu3"] (data scenario_counts))
    as (Hiff & Hwf & _).
  assert (Hok : MothurSharedTable_init ["0.03"; "0.03"] ["s1"; "s2"] [3%Z; 3%Z]
                  ["Otu1"; "Otu2"; "Otu3"] (data scenario_counts)
                = Ok scenario_counts).
  { apply Hiff. repeat split; try reflexivity. unfold nrows. simpl. lia. }
  split; [exact Hok|]. split.
  - apply (Hwf scenario_counts); [|exact Hok].
    repeat constructor.
  - apply (MothurSharedTable_init_accepts [] [] [] ["Otu1"]
             (mk_ndarray 1 ([] : list (list Q)))); reflexivity.
Defined.

Lemma normalize_rows_entries_witness :
  ∃ ret t' h',
    normalize_rows 1%positive true scenario_heap = Ok (ret, h') ∧
    h' !! ret = Some t' ∧ wf_table t' ∧ ret = 1%positive ∧
    rows (data t') !! 0 = Some ((fun x => Qdiv x (sum_Q [1#1; 2#1; 3#1])%Q)
                                  <$> [1#1; 2#1; 3#1])%Q.
Proof.
  destruct (normalize_rows_entries 1%positive scenario_counts true scenario_heap)
    as (ret & t' & h' & Hrun & Hret & Hwf & _ & _ & _ & Hrows & _ & Hself & _).
  - reflexivity.
  - exact scenario_counts_wf.
  - exists ret, t', h'. split; [exact Hrun|]. split; [exact Hret|].
    split; [exact Hwf|]. split; [exact Hself|].
    apply (Hrows 0 [1#1; 2#1; 3#1]%Q). reflexivity.
Defined.

(** ** Sorting of the columns *)

Section sort_extras.
Context {num : Type} `{Scalar num}.

Lemma get_sorted_index_by_average (a : ndarray num) :
  _get_sorted_index a "by_average" = Ok (sorted_index_by_average a).
Proof. done. Qed.

Lemma sort_cols_descend_unfold (self : loc) (t : TaggedTable num)
    (method : string) (inplace : bool) (h : gmap loc (TaggedTable num)) :
  h !! self = Some t →
  sort_cols_descend self method inplace h
  = (idx ← _get_sorted_index (data t) method;
     col_tag' ← take_idx (col_tag t) idx;
     data' ← take_cols (data t) idx;
     let ret := if inplace then self else fresh (dom h) in
     Ok (ret, <[ret := mkTable (row_tag t) col_tag' data' (shared_attrs t)]> h)).
Proof.
  intros Hself. unfold sort_cols_descend. destruct inplace.
  - rewrite bind_Ok. cbn [fst snd]. unfold load. by rewrite Hself, bind_Ok.
  - unfold deepcopy, load, alloc. rewrite Hself, !bind_Ok. cbn [fst snd].
    rewrite lookup_insert_eq, bind_Ok.
    destruct (_get_sorted_index (data t) method) as [idx|]; [|done].
    rewrite !bind_Ok.
    destruct (take_idx (col_tag t) idx) as [ct|]; [|done]. rewrite !bind_Ok.
    destruct (take_cols (data t) idx) as [d|]; [|done]. rewrite !bind_Ok.
    cbv zeta. by rewrite insert_insert_eq.
Qed.

(** X18. [sort_cols_descend] by average, in place or not, permutes the
    columns: each column of the result is a column of the source with
    its own tag, every column of the source occurs once, and the row
    tags, the attributes of the subclass and the invariant of tables are
    kept. In place the result is the object of [self]; otherwise it is a
    new object and the source is as before. No other object changes. *)
Theorem sort_cols_descend_permutes (self : loc) (t : TaggedTable num)
    (inplace : bool) (h : gmap loc (TaggedTable num)) :
  h !! self = Some t →
  wf_table t →
  ∃ ret t' h' idx,
    sort_cols_descend self "by_average" inplace h = Ok (ret, h') ∧
    h' !! ret = Some t' ∧
    wf_table t' ∧
    row_tag t' = row_tag t ∧ shared_attrs t' = shared_attrs t ∧
    Permutation idx (seq 0 (ncols (data t))) ∧
    (∀ j i, idx !! j = Some i →
       col_tag t' !! j = col_tag t !! i ∧
       column (data t') j = column (data t) i) ∧
    (∀ l, l ≠ ret → h' !! l = h !! l) ∧
    (if inplace then ret = self else h !! ret = None ∧ h' !! self = Some t).
Proof.
  intros Hself Hwf.
  destruct (sort_by_average_spec t Hwf)
    as (idx & ct & d & Hperm & Hidx & Hct & Hd & Hwf' & _ & _ & Hcols).
  set (ret := if inplace then self else fresh (dom h)).
  set (t' := mkTable (row_tag t) ct d (shared_attrs t)).
  exists ret, t', (<[ret := t']> h), idx. split.
  { rewrite (sort_cols_descend_unfold _ t) by done.
    by rewrite Hidx, bind_Ok, Hct, bind_Ok, Hd, bind_Ok. }
  split; [apply lookup_insert_eq|]. do 3 (split; [done|]).
  split; [done|]. split; [done|].
  split; [by intros l Hl; rewrite lookup_insert_ne|].
  unfold ret. destruct inplace; [done|].
  assert (Hfresh : h !! fresh (dom h) = None)
    by (apply not_elem_of_dom, is_fresh).
  split; [done|]. rewrite lookup_insert_ne; [done|congruence].
Qed.

(** X19. On a table of the store, [sort_cols_descend] succeeds for the
    method [by_average] and for no other: any name other than
    [by_average] and [by_rank] raises the [ValueError] of an invalid
    sort method, and [by_rank] fails as well. *)
Theorem sort_cols_descend_methods (self : loc) (t : TaggedTable num)
    (method : string) (inplace : bool) (h : gmap loc (TaggedTable num)) :
  h !! self = Some t →
  wf_table t →
  ((∃ r, sort_cols_descend self method inplace h = Ok r)
   ↔ method = "by_average") ∧
  (method ≠ "by_average" → method ≠ "by_rank" →
   sort_cols_descend self method inplace h
   = Err (ValueError ("invalid sort method: '" +:+ method +:+ "'"))).
Proof.
  intros Hself Hwf.
  assert (Hother : method ≠ "by_average" → method ≠ "by_rank" →
    sort_cols_descend self method inplace h
    = Err (ValueError ("invalid sort method: '" +:+ method +:+ "'"))).
  { intros H1 H2. rewrite (sort_cols_descend_unfold _ t) by done.
    unfold _get_sorted_index.
    destruct (String.eqb_spec method "by_average"); [done|].
    destruct (String.eqb_spec method "by_rank"); [done|]. done. }
  split; [|done]. split.
  - intros [r Hr].
    destruct (decide (method = "by_average")) as [|H1]; [done|].
    destruct (decide (method = "by_rank")) as [->|H2].
    + rewrite (sort_cols_descend_unfold _ t) in Hr by done.
      destruct Hwf as (_ & _ & _ & Hpos).
      unfold _get_sorted_index in Hr. cbn [String.eqb Ascii.eqb Bool.eqb] in Hr.
      unfold zeros2, nrows in *. cbn [rows] in Hr.
      destruct (rows (data t)) as [|r0 rs]; [simpl in Hpos; lia|]. done.
    + by rewrite Hother in Hr.
  - intros ->.
    destruct (sort_by_average_spec t Hwf)
      as (idx & ct & d & _ & Hidx & Hct & Hd & _).
    rewrite (sort_cols_descend_unfold _ t) by done.
    rewrite Hidx, bind_Ok, Hct, bind_Ok, Hd, bind_Ok. by eexists.
Qed.

End sort_extras.

Lemma sort_cols_descend_permutes_witness :
  ∃ ret t' h' idx,
    sort_cols_descend 1%positive "by_average" false scenario_heap = Ok (ret, h') ∧
    h' !! ret = Some t' ∧ row_tag t' = ["s1"; "s2"] ∧
    Permutation idx (seq 0 3) ∧
    h' !! 1%positive = Some scenario_counts.
Proof.
  destruct (sort_cols_descend_permutes 1%positive scenario_counts false
              scenario_heap)
    as (ret & t' & h' & idx & Hrun & Hret & _ & Hrow & _ & Hperm & _ & _ & _ & Hself).
  - reflexivity.
  - exact scenario_counts_wf.
  - exists ret, t', h', idx. repeat split; assumption.
Defined.

Lemma sort_cols_descend_methods_witness :
  ((∃ r, sort_cols_descend 1%positive "by_median" true scenario_heap = Ok r)
   ↔ "by_median" = "by_average") ∧
  sort_cols_descend 1%positive "by_median" true scenario_heap
  = Err (ValueError "invalid sort method: 'by_median'").
Proof.
  destruct (sort_cols_descend_methods 1%positive scenario_counts "by_median"
              true scenario_heap) as [Hiff Herr].
  - reflexivity.
  - exact scenario_counts_wf.
  - split; [exact Hiff|]. apply Herr; discriminate.
Defined.

(** ** The order of the sorted columns *)

(** The [argsort] of the instance of the examples lists the positions by
    ascending value. *)
Lemma insert_key_sorted (x : Q * nat) (l : list (Q * nat)) :
  StronglySorted key_le l → StronglySorted key_le (insert_key x l).
Proof.
  induction 1 as [|y l Hl IH Hy]; simpl.
  { repeat constructor. }
  destruct (Qle_bool x.1 y.1) eqn:Hxy.
  - apply Qle_bool_iff in Hxy. constructor; [by constructor|].
    constructor; [done|]. eapply Forall_impl; [exact Hy|].
    intros z Hz. unfold key_le in *. by eapply Qle_trans.
  - assert (Hyx : key_le y x).
    { unfold key_le. apply Qlt_le_weak, Qnot_le_lt. intros Hle.
      apply Qle_bool_iff in Hle. congruence. }
    constructor; [done|]. rewrite insert_key_perm. by constructor.
Qed.

Lemma sort_keys_sorted (l : list (Q * nat)) :
  StronglySorted key_le (sort_keys l).
Proof.
  induction l as [|x l IH]; simpl; [constructor|by apply insert_key_sorted].
Qed.

Lemma StronglySorted_lookup_le (l : list (Q * nat)) (i j : nat) (a b : Q * nat) :
  StronglySorted key_le l → i <= j →
  l !! i = Some a → l !! j = Some b → key_le a b.
Proof.
  intros Hl. revert i j. induction Hl as [|x l Hl IH Hx]; intros i j Hij Hi Hj.
  { done. }
  destruct i as [|i], j as [|j]; simpl in *; try lia.
  - injection Hi as <-. injection Hj as <-. apply Qle_refl.
  - injection Hi as <-. rewrite Forall_forall in Hx. apply Hx.
    by eapply list_elem_of_lookup_2.
  - apply (IH i j); [lia|done|done].
Qed.

Lemma elem_of_zip_seq (v : list Q) (k : nat) (x : Q) (i : nat) :
  (x, i) ∈ zip v (seq k (length v)) → k <= i ∧ v !! (i - k) = Some x.
Proof.
  revert k. induction v as [|y v IH]; intros k Hin; simpl in Hin.
  { by apply elem_of_nil in Hin. }
  apply elem_of_cons in Hin as [[= -> ->]|Hin].
  - split; [lia|]. by rewrite Nat.sub_diag.
  - apply IH in Hin as [Hk Hv]. split; [lia|].
    replace (i - k) with (S (i - S k)) by lia. done.
Qed.

Lemma argsort_Q_ascending (v : list Q) (a b i i' : nat) :
  a <= b → argsort_Q v !! a = Some i → argsort_Q v !! b = Some i' →
  ∃ x x', v !! i = Some x ∧ v !! i' = Some x' ∧ Qle x x'.
Proof.
  unfold argsort_Q. intros Hab Ha Hb.
  rewrite list_lookup_fmap in Ha, Hb.
  destruct (sort_keys _ !! a) as [[x j]|] eqn:Hka; [|done].
  destruct (sort_keys _ !! b) as [[x' j']|] eqn:Hkb; [|done].
  simpl in Ha, Hb. injection Ha as ->. injection Hb as ->.
  pose proof (StronglySorted_lookup_le _ _ _ _ _ (sort_keys_sorted _) Hab Hka Hkb)
    as Hle.
  apply list_elem_of_lookup_2 in Hka, Hkb.
  rewrite sort_keys_perm in Hka, Hkb.
  apply elem_of_zip_seq in Hka as [_ Hka], Hkb as [_ Hkb].
  rewrite Nat.sub_0_r in Hka, Hkb. by exists x, x'.
Qed.

Lemma rev_lookup {A} (l : list A) (j : nat) :
  j < length l → rev l !! j = l !! (length l - S j).
Proof.
  intros Hj. rewrite rev_alt. by apply (reverse_lookup l j).
Qed.

Section sort_order.
Context {num : Type} `{Scalar num}.

Lemma mean_axis0_lookup (a : ndarray num) (i : nat) :
  i < ncols a → mean_axis0 a !! i = Some (mean (column a i)).
Proof.
  intros Hi. unfold mean_axis0. rewrite list_lookup_fmap.
  by rewrite lookup_seq_lt.
Qed.

(** X20. Where [argsort] lists the positions by ascending value, as
    numpy promises, the columns of the result of [sort_cols_descend] by
    average stand in descending order of their averages, as [mean]
    computes them: no column has a larger average than a column to its
    left. *)
Theorem sort_cols_descend_descending (le : num → num → Prop) (self : loc)
    (t : TaggedTable num) (inplace : bool) (h : gmap loc (TaggedTable num)) :
  ascending_argsort le →
  h !! self = Some t →
  wf_table t →
  ∃ ret t' h',
    sort_cols_descend self "by_average" inplace h = Ok (ret, h') ∧
    h' !! ret = Some t' ∧
    ncols (data t') = ncols (data t) ∧
    ∀ j j', j <= j' → j' < ncols (data t') →
      le (mean (column (data t') j')) (mean (column (data t') j)).
Proof.
  intros Hasc Hself Hwf.
  destruct (sort_by_average_spec t Hwf)
    as (idx & ct & d & Hperm & Hidx & Hct & Hd & Hwf' & _ & _ & Hcols).
  rewrite get_sorted_index_by_average in Hidx. injection Hidx as Hidx.
  set (ret := if inplace then self else fresh (dom h)).
  set (t' := mkTable (row_tag t) ct d (shared_attrs t)).
  assert (Hlen : length idx = ncols (data t)).
  { by rewrite Hperm, length_seq. }
  assert (Hnc : ncols d = ncols (data t)).
  { unfold take_cols in Hd.
    destruct (map_result _ _); simpl in Hd; [|done].
    injection Hd as <-. done. }
  exists ret, t', (<[ret := t']> h). split.
  { rewrite (sort_cols_descend_unfold _ t) by done.
    rewrite get_sorted_index_by_average, bind_Ok, Hidx.
    by rewrite Hct, bind_Ok, Hd, bind_Ok. }
  split; [apply lookup_insert_eq|]. split; [done|].
  intros j j' Hjj Hj'. simpl in Hj' |- *. rewrite Hnc in Hj'.
  destruct (lookup_lt_is_Some_2 idx j) as [i Hi]; [lia|].
  destruct (lookup_lt_is_Some_2 idx j') as [i' Hi']; [lia|].
  destruct (Hcols j i Hi) as [_ ->]. destruct (Hcols j' i' Hi') as [_ ->].
  assert (Hi_lt : i < ncols (data t) ∧ i' < ncols (data t)).
  { split.
    - apply list_elem_of_lookup_2 in Hi. rewrite Hperm in Hi.
      apply elem_of_seq in Hi. lia.
    - apply list_elem_of_lookup_2 in Hi'. rewrite Hperm in Hi'.
      apply elem_of_seq in Hi'. lia. }
  destruct Hi_lt as [Hilt Hilt'].
  rewrite <- Hidx in Hi, Hi', Hlen. unfold sorted_index_by_average in *.
  rewrite length_rev in Hlen.
  rewrite rev_lookup in Hi, Hi' by lia.
  destruct (Hasc (mean_axis0 (data t))
              (length (argsort (mean_axis0 (data t))) - S j')
              (length (argsort (mean_axis0 (data t))) - S j) i' i)
    as (x' & x & Hx' & Hx & Hle); [lia|done|done|].
  rewrite mean_axis0_lookup in Hx, Hx' by done.
  injection Hx as <-. injection Hx' as <-. done.
Qed.

End sort_order.

Lemma sort_cols_descend_descending_witness :
  ∃ ret t' h',
    sort_cols_descend 1%positive "by_average" true scenario_heap = Ok (ret, h') ∧
    h' !! ret = Some t' ∧
    Qle (mean_Q (column (data t') 2)) (mean_Q (column (data t') 0)).
Proof.
  destruct (sort_cols_descend_descending Qle 1%positive scenario_counts true
              scenario_heap)
    as (ret & t' & h' & Hrun & Hret & Hnc & Hdesc).
  - intros v a b i i'. apply argsort_Q_ascending.
  - reflexivity.
  - exact scenario_counts_wf.
  - exists ret, t', h'. split; [exact Hrun|]. split; [exact Hret|].
    apply (Hdesc 0 2); [lia|]. rewrite Hnc. simpl. lia.
Defined.

(** ** The rank selector of the aggregation *)

Section group_by_extras.
Context {num : Type} `{Scalar num}.

(** X22. [group_by_taxonomy] looks at the rank selector only when it
    looks an OTU up: with a first OTU that the reference knows, a rank
    name outside the seven names raises the [ValueError] of an invalid
    rank name, and a selector that is neither an [int] nor a [str]
    raises [IndexError]; on a table without columns every selector, also
    an invalid one, gives the empty table. *)
Theorem group_by_taxonomy_rank_checked (self : loc) (t : TaggedTable num)
    (otu_tax_dict : gmap string MothurOtuTaxonomy)
    (h : gmap loc (TaggedTable num)) :
  h !! self = Some t →
  (∀ o otus rec, col_tag t = o :: otus → otu_tax_dict !! o = Some rec →
     (∀ name, name ∉ RANK →
        group_by_taxonomy self otu_tax_dict (RStr name) h
        = Err (ValueError ("invalid rank name: '" +:+ name +:+ "'"))) ∧
     group_by_taxonomy self otu_tax_dict ROther h = Err IndexError) ∧
  (wf_table t → col_tag t = [] →
   ∀ tax_rank, ∃ ret t',
     group_by_taxonomy self otu_tax_dict tax_rank h = Ok (ret, <[ret := t']> h) ∧
     row_tag t' = row_tag t ∧ col_tag t' = [] ∧ ncols (data t') = 0).
Proof.
  intros Hself. split.
  - intros o otus rec Hcol Ho. split.
    + intros name Hname. unfold group_by_taxonomy, load.
      rewrite Hself, bind_Ok, Hcol. cbn [accumulate]. rewrite Ho, bind_Ok.
      simpl. unfold _get_by_name. by rewrite RANK_ID_None.
    + unfold group_by_taxonomy, load.
      rewrite Hself, bind_Ok, Hcol. cbn [accumulate]. by rewrite Ho, bind_Ok.
  - intros Hwf Hcol tax_rank.
    assert (Hsame : group_by_taxonomy self otu_tax_dict tax_rank h
                    = group_by_taxonomy self otu_tax_dict (RInt 0) h).
    { unfold group_by_taxonomy, load. by rewrite Hself, !bind_Ok, Hcol. }
    destruct (group_by_taxonomy_spec self t otu_tax_dict (RInt 0) h)
      as (ret & t' & Hrun & _ & Hrow & Hwf' & _ & Hkeys & _);
      [done|done|by rewrite Hcol|done|].
    exists ret, t'. rewrite Hsame. split; [done|]. split; [done|].
    assert (Hnil : col_tag t' = []).
    { destruct (col_tag t') as [|k ks] eqn:Hk; [done|].
      destruct (proj1 (Hkeys k)) as (o & Ho & _); [by left|].
      rewrite Hcol in Ho. by apply elem_of_nil in Ho. }
    split; [done|]. destruct Hwf' as (_ & _ & <- & _). by rewrite Hnil.
Qed.

End group_by_extras.

Lemma group_by_taxonomy_rank_checked_witness :
  group_by_taxonomy 1%positive scenario_taxonomy (RStr "strain") scenario_heap
  = Err (ValueError "invalid rank name: 'strain'") ∧
  group_by_taxonomy 1%positive scenario_taxonomy ROther scenario_heap
  = Err IndexError ∧
  ∃ ret t',
    group_by_taxonomy 1%positive scenario_taxonomy (RStr "strain") empty_heap
    = Ok (ret, <[ret := t']> empty_heap) ∧
    row_tag t' = ["s1"] ∧ col_tag t' = [] ∧ ncols (data t') = 0.
Proof.
  destruct (group_by_taxonomy_rank_checked 1%positive scenario_counts
              scenario_taxonomy scenario_heap eq_refl) as [Hfirst _].
  destruct (Hfirst "Otu1" ["Otu2"; "Otu3"]
              (mkOtuTaxonomy "Otu1" 5 (genus_lineage "Alpha" 100))
              eq_refl eq_refl) as [Hname Hother].
  split; [|split; [exact Hother|]].
  - apply Hname. apply (bool_decide_unpack _). by vm_compute.
  - destruct (group_by_taxonomy_rank_checked 1%positive empty_table
                scenario_taxonomy empty_heap eq_refl) as [_ Hempty].
    apply Hempty; [|reflexivity].
    split; [repeat constructor|]. split; [reflexivity|].
    split; [reflexivity|]. unfold nrows. simpl. lia.
Defined.

(** ** Totals of the aggregated rows *)

Section totals.
Context {num : Type} `{Scalar num}.

Lemma sum_nil : exact_addition → sum ([] : list num) = zero.
Proof. intros (_ & _ & _ & Hsum). by rewrite Hsum. Qed.

Lemma sum_cons (x : num) (l : list num) :
  exact_addition → sum (x :: l) = add x (sum l).
Proof. intros (_ & _ & _ & Hsum). by rewrite !Hsum. Qed.

Lemma add_zero_r (x : num) : exact_addition → add x zero = x.
Proof. intros (_ & Hcomm & Hzero & _). by rewrite Hcomm. Qed.

Lemma add_interchange (a b c d : num) :
  exact_addition → add (add a b) (add c d) = add (add a c) (add b d).
Proof.
  intros (Hassoc & Hcomm & _ & _).
  rewrite <- Hassoc, (Hassoc b c d), (Hcomm b c), <- (Hassoc c b d).
  by rewrite Hassoc.
Qed.

Lemma sum_ext {A} (f g : A → num) (l : list A) :
  (∀ x, x ∈ l → f x = g x) → sum (f <$> l) = sum (g <$> l).
Proof.
  intros Hfg. f_equal. apply list_fmap_ext. intros i x Hx.
  apply Hfg. by eapply list_elem_of_lookup_2.
Qed.

Lemma sum_plus {A} (f g : A → num) (l : list A) :
  exact_addition →
  sum ((fun x => add (f x) (g x)) <$> l) = add (sum (f <$> l)) (sum (g <$> l)).
Proof.
  intros Hex. induction l as [|x l IH].
  - cbn [fmap list_fmap]. by rewrite sum_nil, add_zero_r.
  - rewrite !fmap_cons, !sum_cons, IH by done. by apply add_interchange.
Qed.

Lemma sum_zero {A} (l : list A) :
  exact_addition → sum ((fun _ => zero) <$> l) = zero.
Proof.
  intros Hex. induction l as [|x l IH]; [by apply sum_nil|].
  rewrite fmap_cons, sum_cons, IH by done. by apply add_zero_r.
Qed.

Lemma sum_indicator (ks : list string) (k0 : string) (x : num) :
  exact_addition → NoDup ks → k0 ∈ ks →
  sum ((fun k => if decide (k = k0) then x else zero) <$> ks) = x.
Proof.
  intros Hex. induction 1 as [|k ks Hk Hnd IH]; intros Hin;
    [by apply elem_of_nil in Hin|].
  rewrite fmap_cons, sum_cons by done. destruct (decide (k = k0)) as [->|Hne].
  - rewrite (sum_ext _ (fun _ => zero)).
    + by rewrite sum_zero, add_zero_r.
    + intros y Hy. by destruct (decide (y = k0)) as [->|].
  - apply elem_of_cons in Hin as [->|Hin]; [done|]. rewrite IH by done.
    by destruct Hex as (_ & _ & -> & _).
Qed.

Lemma at_row_iadd (i : nat) (u v : list num) :
  exact_addition → length u = length v →
  at_row i (iadd u v) = add (at_row i u) (at_row i v).
Proof.
  intros Hex Hlen. unfold at_row, iadd. rewrite lookup_zip_with.
  destruct (u !! i) as [a|] eqn:Hu, (v !! i) as [b|] eqn:Hv; simpl.
  - done.
  - apply lookup_lt_Some in Hu. apply lookup_ge_None in Hv. lia.
  - apply lookup_lt_Some in Hv. apply lookup_ge_None in Hu. lia.
  - by rewrite add_zero_r.
Qed.

Lemma at_row_foldl (i n : nat) (u : list num) (cs : list (list num)) :
  exact_addition → length u = n → Forall (fun c => length c = n) cs →
  at_row i (foldl iadd u cs) = add (at_row i u) (sum (at_row i <$> cs)).
Proof.
  intros Hex Hu Hcs. revert u Hu.
  induction Hcs as [|c cs Hc Hcs IH]; intros u Hu.
  { cbn [foldl fmap list_fmap]. by rewrite sum_nil, add_zero_r. }
  cbn [foldl]. rewrite fmap_cons, sum_cons by done.
  rewrite IH by (by apply length_iadd).
  rewrite at_row_iadd by (done || congruence).
  by destruct Hex as (<- & _).
Qed.

Lemma at_row_zeros (i n : nat) : at_row i (zeros (num := num) n) = zero.
Proof.
  unfold at_row, zeros. destruct (decide (i < n)) as [Hi|Hi].
  - by rewrite lookup_replicate_2.
  - by rewrite (proj1 (lookup_replicate_None n _ i)); [|lia].
Qed.

Lemma at_row_column (a : ndarray num) (i p : nat) (r : list num) :
  rows a !! i = Some r → at_row i (column a p) = at_row p r.
Proof.
  intros Hr. unfold at_row, column. by rewrite list_lookup_fmap, Hr.
Qed.

Variables (t : TaggedTable num)
          (otu_tax_dict : gmap string MothurOtuTaxonomy)
          (tax_rank : rank_arg).

Lemma columns_resolving_to_lengths (k : string) (off : nat) (otus : list string) :
  Forall (fun c => length c = nrows (data t))
    (columns_resolving_to t otu_tax_dict tax_rank k off otus).
Proof.
  revert off. induction otus as [|o otus IH]; intros off; simpl; [done|].
  destruct (decide _); [|done]. constructor; [apply length_column|done].
Qed.

Lemma sum_columns_resolving_to (i : nat) (r : list num) (k : string)
    (off : nat) (otus : list string) :
  exact_addition →
  rows (data t) !! i = Some r →
  off + length otus <= length r →
  sum (at_row i <$> columns_resolving_to t otu_tax_dict tax_rank k off otus)
  = sum ((filter (fun p => classified otu_tax_dict tax_rank p.1 = Some k)
            (zip otus (drop off r))).*2).
Proof.
  intros Hex Hr. revert off. induction otus as [|o otus IH]; intros off Hlen;
    [done|].
  simpl in Hlen.
  destruct (lookup_lt_is_Some_2 r off) as [x Hx]; [lia|].
  rewrite (drop_S _ _ _ Hx). cbn [zip zip_with columns_resolving_to].
  rewrite filter_cons. cbn [fst].
  destruct (decide (classified otu_tax_dict tax_rank o = Some k)).
  - rewrite !fmap_cons, !sum_cons by done. cbn [snd].
    rewrite (at_row_column _ _ _ _ Hr). unfold at_row at 1. rewrite Hx.
    cbn [default]. f_equal. apply IH. lia.
  - apply IH. lia.
Qed.

Lemma sum_by_key (ks : list string) (L : list (string * num)) :
  exact_addition →
  NoDup ks →
  (∀ p k, p ∈ L → classified otu_tax_dict tax_rank p.1 = Some k → k ∈ ks) →
  sum ((fun k => sum
         ((filter (fun p => classified otu_tax_dict tax_rank p.1 = Some k) L).*2))
         <$> ks)
  = sum ((filter (fun p => is_Some (classified otu_tax_dict tax_rank p.1)) L).*2).
Proof.
  intros Hex Hnd. induction L as [|[o x] L IH]; intros Hcover.
  { rewrite (sum_ext _ (fun _ => zero)).
    - rewrite sum_zero by done. symmetry. by apply sum_nil.
    - intros k _. by apply sum_nil. }
  assert (Hcover' : ∀ p k, p ∈ L →
            classified otu_tax_dict tax_rank p.1 = Some k → k ∈ ks).
  { intros p k Hp. apply Hcover. by right. }
  specialize (IH Hcover').
  destruct (classified otu_tax_dict tax_rank o) as [k0|] eqn:Ho.
  - rewrite (filter_cons_True (fun p => is_Some _)) by (simpl; by rewrite Ho).
    rewrite fmap_cons, sum_cons by done. cbn [snd]. rewrite <- IH.
    rewrite <- (sum_indicator ks k0 x) at 1; [|done|done|].
    2:{ apply (Hcover (o, x)); [by left|done]. }
    rewrite <- sum_plus by done. apply sum_ext. intros k _.
    rewrite filter_cons. cbn [fst]. rewrite Ho.
    destruct (decide (Some k0 = Some k)) as [[= ->]|Hne].
    + rewrite decide_True by done. by rewrite fmap_cons, sum_cons.
    + rewrite decide_False by congruence.
      by destruct Hex as (_ & _ & -> & _).
  - rewrite (filter_cons_False (fun p => is_Some _)).
    2:{ simpl. rewrite Ho. by intros [? ?]. }
    rewrite <- IH. apply sum_ext. intros k _.
    rewrite filter_cons_False; [done|]. simpl. by rewrite Ho.
Qed.

(** X23. Where the addition of the data is exact (associative and
    commutative, as that of the int64 counts is), the aggregation keeps
    the totals: every row of the result sums to the sum of the entries
    that the row of the source holds for the classified OTUs. (The
    columns of unclassified OTUs, whose taxon at the rank is absent or
    empty, are left out.) *)
Theorem group_by_taxonomy_row_totals (self : loc)
    (h : gmap loc (TaggedTable num)) :
  exact_addition →
  h !! self = Some t →
  wf_table t →
  Forall (fun o => is_Some (otu_tax_dict !! o)) (col_tag t) →
  valid_rank tax_rank →
  ∃ ret t' h',
    group_by_taxonomy self otu_tax_dict tax_rank h = Ok (ret, h') ∧
    h' !! ret = Some t' ∧
    ∀ i r, rows (data t) !! i = Some r →
      ∃ r', rows (data t') !! i = Some r' ∧
            sum r' = sum (classified_entries t otu_tax_dict tax_rank r).
Proof.
  intros Hex Hself Hwf Hknown Hrank.
  destruct (group_by_taxonomy_spec self t otu_tax_dict tax_rank h)
    as (ret & t' & Hrun & _ & Hrow & Hwf' & Hnd & Hkeys & Hcols); [done..|].
  exists ret, t', (<[ret := t']> h). split; [done|].
  split; [apply lookup_insert_eq|]. intros i r Hr.
  destruct Hwf as (Hwfd & Hrt & Hct & Hpos).
  destruct Hwf' as (Hwfd' & Hrt' & Hct' & Hpos').
  destruct (lookup_lt_is_Some_2 (rows (data t')) i) as [r' Hr'].
  { apply lookup_lt_Some in Hr. fold (nrows (data t)) in Hr.
    fold (nrows (data t')). rewrite <- Hrt', Hrow, Hrt. done. }
  exists r'. split; [done|].
  assert (Hlen : length r = ncols (data t)).
  { unfold wf_ndarray in Hwfd. by apply (Forall_lookup_1 _ _ _ _ Hwfd Hr). }
  assert (Hlen' : length r' = ncols (data t')).
  { unfold wf_ndarray in Hwfd'. by apply (Forall_lookup_1 _ _ _ _ Hwfd' Hr'). }
  assert (Hr'eq : r' = (fun k => at_row i (column_sum t otu_tax_dict tax_rank k))
                         <$> col_tag t').
  { apply (list_eq_same_length _ _ (length r')); [|done|].
    { rewrite length_fmap. congruence. }
    intros j x y Hj Hx Hy. rewrite list_lookup_fmap in Hy.
    destruct (col_tag t' !! j) as [k|] eqn:Hk; [|done].
    simpl in Hy. injection Hy as <-.
    pose proof (Hcols j k Hk) as Hc. rewrite get_col_column in Hc by lia.
    injection Hc as <-. rewrite (at_row_column _ _ _ _ Hr').
    unfold at_row. by rewrite Hx. }
  rewrite Hr'eq. unfold classified_entries.
  rewrite <- (sum_by_key (col_tag t') (zip (col_tag t) r)); [|done|done|].
  2:{ intros p k Hp Hk. apply Hkeys. exists p.1. split; [|done].
      destruct p as [o x]. by apply elem_of_zip_l in Hp. }
  apply sum_ext. intros k _. unfold column_sum.
  rewrite (at_row_foldl i (nrows (data t)));
    [|done|apply length_zeros|apply columns_resolving_to_lengths].
  rewrite at_row_zeros, (sum_columns_resolving_to i r) by (done || lia).
  rewrite drop_0. by destruct Hex as (_ & _ & -> & _).
Qed.

End totals.

Lemma Q_exact_addition : exact_addition (num := Q).
Proof.
  split; [|split; [|split]].
  - intros [a b] [c d] [e f]. unfold add, Q_scalar, Qplus. simpl. f_equal.
    + lia.
    + apply Pos.mul_assoc.
  - intros [a b] [c d]. unfold add, Q_scalar, Qplus. simpl. f_equal.
    + lia.
    + apply Pos.mul_comm.
  - intros [a b]. unfold add, zero, Q_scalar, Qplus. cbn [Qnum Qden].
    f_equal. lia.
  - done.
Qed.

Lemma group_by_taxonomy_row_totals_witness :
  ∃ ret t' h',
    group_by_taxonomy 1%positive scenario_taxonomy (RStr "genus") scenario_heap
    = Ok (ret, h') ∧
    h' !! ret = Some t' ∧
    ∃ r', rows (data t') !! 0 = Some r' ∧ sum_Q r' = sum_Q [1#1; 2#1; 3#1]%Q.
Proof.
  destruct (group_by_taxonomy_row_totals scenario_counts scenario_taxonomy
              (RStr "genus") 1%positive scenario_heap)
    as (ret & t' & h' & Hrun & Hret & Hrows).
  - exact Q_exact_addition.
  - reflexivity.
  - exact scenario_counts_wf.
  - repeat constructor; by eexists.
  - exact genus_valid.
  - exists ret, t', h'. split; [exact Hrun|]. split; [exact Hret|].
    destruct (Hrows 0 [1#1; 2#1; 3#1]%Q eq_refl) as (r' & Hr' & Hsum).
    exists r'. split; [exact Hr'|]. exact Hsum.
Defined.

(** ** The taxa kept for the plot: the most abundant ones *)

Section max_n_extras.
Context {num : Type} `{Scalar num}.

Lemma hstack_head_rest_spec (a : ndarray num) (n : nat) :
  wf_ndarray a → n < ncols a →
  wf_ndarray (hstack_head_rest a n) ∧
  nrows (hstack_head_rest a n) = nrows a ∧
  ncols (hstack_head_rest a n) = n + 1 ∧
  (∀ j, j < n → column (hstack_head_rest a n) j = column a j) ∧
  column (hstack_head_rest a n) n = (fun r => sum (drop n r)) <$> rows a.
Proof.
  intros Hwf Hn. unfold wf_ndarray in Hwf.
  unfold hstack_head_rest, wf_ndarray, nrows, column. simpl.
  rewrite Nat.min_l by lia. repeat split.
  - apply Forall_fmap. eapply Forall_impl; [exact Hwf|].
    intros r Hr. simpl in Hr |- *. rewrite length_app, length_take.
    simpl. lia.
  - by rewrite length_fmap.
  - intros j Hj. rewrite <- list_fmap_compose. apply list_fmap_ext.
    intros i r Hr. simpl.
    pose proof (Forall_lookup_1 _ _ _ _ Hwf Hr) as Hlen. simpl in Hlen.
    rewrite lookup_app_l by (rewrite length_take; lia).
    by rewrite lookup_take_lt.
  - rewrite <- list_fmap_compose. apply list_fmap_ext.
    intros i r Hr. simpl.
    pose proof (Forall_lookup_1 _ _ _ _ Hwf Hr) as Hlen. simpl in Hlen.
    rewrite lookup_app_r by (rewrite length_take; lia).
    rewrite length_take. by replace (n - n `min` length r) with 0 by lia.
Qed.

Lemma filter_taxons_by_max_n_small (tax_abund : loc) (t : TaggedTable num)
    (n : nat) (h : gmap loc (TaggedTable num)) :
  h !! tax_abund = Some t → wf_table t → n < ncols (data t) →
  _filter_taxons_by_max_n tax_abund (Z.of_nat n) h
  = Ok (alloc (mkTable (row_tag t)
                 (take n (col_tag t) ++ ["[all others classified]"])
                 (hstack_head_rest (data t) n) None) h).
Proof.
  intros Hself (Hwf & Hrow & Hcol & Hpos) Hn.
  destruct (hstack_head_rest_spec (data t) n Hwf Hn)
    as (_ & Hnr & Hnc & _ & _).
  unfold _filter_taxons_by_max_n, load. rewrite Hself, bind_Ok. cbv zeta.
  destruct (Z.ltb_spec (Z.of_nat n) (Z.of_nat (ncols (data t)))); [|lia].
  destruct (Z.ltb_spec (Z.of_nat n + 1) 0); [lia|].
  destruct (Z.ltb_spec (Z.of_nat n) 0); [lia|].
  unfold slice_to.
  destruct (Z.ltb_spec (Z.of_nat n) 0); [lia|].
  rewrite Nat2Z.id, !length_take, length_replicate.
  replace (Z.to_nat (Z.of_nat n + 1)) with (S n) by lia.
  unfold assign_slice. rewrite length_take.
  replace (n `min` length (col_tag t)) with n by lia.
  replace (n `min` S n) with n by lia.
  rewrite Nat.eqb_refl, !bind_Ok. cbn [fst snd].
  rewrite TaggedTable_init_ok; [done| | |].
  - by rewrite Hnr.
  - rewrite length_app, length_take, Hnc. simpl. lia.
  - by rewrite Hnr.
Qed.

Lemma filter_taxons_by_max_n_large (tax_abund : loc) (t : TaggedTable num)
    (max_n_taxons : Z) (h : gmap loc (TaggedTable num)) :
  h !! tax_abund = Some t → wf_table t →
  (Z.of_nat (ncols (data t)) <= max_n_taxons)%Z →
  _filter_taxons_by_max_n tax_abund max_n_taxons h
  = Ok (alloc (mkTable (row_tag t) (col_tag t) (data t) None) h).
Proof.
  intros Hself (Hwf & Hrow & Hcol & Hpos) Hn.
  unfold _filter_taxons_by_max_n, load. rewrite Hself, bind_Ok. cbv zeta.
  destruct (Z.ltb_spec max_n_taxons (Z.of_nat (ncols (data t)))); [lia|].
  rewrite bind_Ok. cbn [fst snd]. by rewrite TaggedTable_init_ok.
Qed.

(** X24. With fewer taxa to keep than the table has columns,
    [_filter_taxons_by_max_n] returns a new table with the same row
    tags: its first columns are the first columns of the source with
    their tags, and one more column, tagged [[all others classified]],
    holds for every row the sum of the remaining entries. The source is
    not changed. *)
Theorem filter_taxons_by_max_n_combines (tax_abund : loc)
    (t : TaggedTable num) (n : nat) (h : gmap loc (TaggedTable num)) :
  h !! tax_abund = Some t →
  wf_table t →
  n < ncols (data t) →
  ∃ ret t',
    _filter_taxons_by_max_n tax_abund (Z.of_nat n) h = Ok (ret, <[ret := t']> h) ∧
    h !! ret = None ∧
    wf_table t' ∧
    row_tag t' = row_tag t ∧
    col_tag t' = take n (col_tag t) ++ ["[all others classified]"] ∧
    (∀ j, j < n → column (data t') j = column (data t) j) ∧
    column (data t') n = (fun r => sum (drop n r)) <$> rows (data t).
Proof.
  intros Hself Hwft Hn.
  pose proof Hwft as (Hwf & Hrow & Hcol & Hpos).
  destruct (hstack_head_rest_spec (data t) n Hwf Hn)
    as (Hwf' & Hnr & Hnc & Hhead & Hrest).
  eexists _, _. split; [by apply filter_taxons_by_max_n_small|].
  split; [apply not_elem_of_dom, is_fresh|]. split.
  { split; [done|]. cbn [row_tag col_tag data].
    rewrite Hnr, Hnc, length_app, length_take. cbn [length].
    repeat split; lia. }
  done.
Qed.

(** X25. With at least as many taxa to keep as the table has columns,
    [_filter_taxons_by_max_n] returns a new table with the tags and the
    data of the source, and without the attributes of the subclass. *)
Theorem filter_taxons_by_max_n_keeps (tax_abund : loc)
    (t : TaggedTable num) (max_n_taxons : Z) (h : gmap loc (TaggedTable num)) :
  h !! tax_abund = Some t →
  wf_table t →
  (Z.of_nat (ncols (data t)) <= max_n_taxons)%Z →
  ∃ ret,
    _filter_taxons_by_max_n tax_abund max_n_taxons h
    = Ok (ret, <[ret := mkTable (row_tag t) (col_tag t) (data t) None]> h) ∧
    h !! ret = None ∧ ret ≠ tax_abund.
Proof.
  intros Hself Hwft Hn. eexists.
  split; [by apply filter_taxons_by_max_n_large|].
  assert (Hfresh : h !! fresh (dom h) = None)
    by (apply not_elem_of_dom, is_fresh).
  split; [done|]. congruence.
Qed.

(** X26. A negative number of taxa to keep is never accepted:
    [_filter_taxons_by_max_n] raises [ValueError] (a negative dimension,
    or tags that cannot be stored in an empty array) or [IndexError]
    (no place for the tag of the combined column). *)
Theorem filter_taxons_by_max_n_negative (tax_abund : loc)
    (t : TaggedTable num) (max_n_taxons : Z) (h : gmap loc (TaggedTable num)) :
  h !! tax_abund = Some t →
  (max_n_taxons < 0)%Z →
  (_filter_taxons_by_max_n tax_abund max_n_taxons h = Err IndexError ∨
   ∃ m, _filter_taxons_by_max_n tax_abund max_n_taxons h = Err (ValueError m)) ∧
  ((max_n_taxons < -1)%Z →
   _filter_taxons_by_max_n tax_abund max_n_taxons h
   = Err (ValueError "negative dimensions are not allowed")).
Proof.
  intros Hself Hneg.
  unfold _filter_taxons_by_max_n, load. rewrite Hself, bind_Ok. cbv zeta.
  destruct (Z.ltb_spec max_n_taxons (Z.of_nat (ncols (data t)))); [|lia].
  destruct (Z.ltb_spec (max_n_taxons + 1) 0) as [Hlt|Hge].
  { split; [right; by eexists|done]. }
  split; [|lia].
  destruct (Z.ltb_spec max_n_taxons 0); [|lia].
  destruct (assign_slice _ _) as [head|e] eqn:Hassign.
  - by left.
  - right. unfold assign_slice in Hassign.
    destruct (_ =? _)%nat; [done|].
    destruct (slice_to (col_tag t) max_n_taxons) as [|x [|y l]];
      [|discriminate|]; injection Hassign as <-; by eexists.
Qed.

End max_n_extras.

Lemma filter_taxons_by_max_n_combines_witness :
  ∃ ret t',
    _filter_taxons_by_max_n 1%positive 1 scenario_heap
    = Ok (ret, <[ret := t']> scenario_heap) ∧
    row_tag t' = ["s1"; "s2"] ∧
    col_tag t' = ["Otu1"; "[all others classified]"] ∧
    column (data t') 1 = [sum_Q [2#1; 3#1]; sum_Q [5#1; 6#1]]%Q.
Proof.
  destruct (filter_taxons_by_max_n_combines 1%positive scenario_counts 1
              scenario_heap)
    as (ret & t' & Hrun & _ & _ & Hrow & Hcol & _ & Hrest).
  - reflexivity.
  - exact scenario_counts_wf.
  - simpl. lia.
  - exists ret, t'. split; [exact Hrun|]. split; [exact Hrow|].
    split; [exact Hcol|exact Hrest].
Defined.

Lemma filter_taxons_by_max_n_keeps_witness :
  ∃ ret,
    _filter_taxons_by_max_n 1%positive 20 scenario_heap
    = Ok (ret, <[ret := mkTable ["s1"; "s2"] ["Otu1"; "Otu2"; "Otu3"]
                          (data scenario_counts) None]> scenario_heap) ∧
    scenario_heap !! ret = None ∧ ret ≠ 1%positive.
Proof.
  apply (filter_taxons_by_max_n_keeps 1%positive scenario_counts 20
           scenario_heap).
  - reflexivity.
  - exact scenario_counts_wf.
  - simpl. lia.
Defined.

Lemma filter_taxons_by_max_n_negative_witness :
  _filter_taxons_by_max_n 1%positive (-1) scenario_heap
  = Err (ValueError "could not broadcast input array") ∧
  _filter_taxons_by_max_n 1%positive (-1) empty_heap = Err IndexError ∧
  _filter_taxons_by_max_n 1%positive (-2) scenario_heap
  = Err (ValueError "negative dimensions are not allowed").
Proof.
  split; [reflexivity|]. split; [reflexivity|].
  apply (filter_taxons_by_max_n_negative 1%positive scenario_counts (-2)
           scenario_heap); [reflexivity|lia|lia].
Defined.

(** ** The taxa kept for the plot: the listed ones *)

Lemma user_tax_order_snoc (l : list string) (u : string) :
  user_tax_order (l ++ [u]) = <[u := length l]> (user_tax_order l).
Proof.
  unfold user_tax_order. rewrite imap_app, foldl_app. simpl.
  by rewrite Nat.add_0_r.
Qed.

(** The dictionary of the positions maps a name to its last position in
    the list. *)
Lemma user_tax_order_lookup (l : list string) (u : string) (j : nat) :
  user_tax_order l !! u = Some j ↔
  l !! j = Some u ∧ ∀ j', j < j' → l !! j' ≠ Some u.
Proof.
  revert j. induction l as [|v l IH] using rev_ind; intros j.
  { split; [done|by intros [? _]]. }
  rewrite user_tax_order_snoc.
  destruct (decide (v = u)) as [->|Hne].
  - rewrite lookup_insert_eq. split.
    + intros [= <-]. split; [by rewrite list_lookup_middle|].
      intros j' Hj'. rewrite lookup_ge_None_2; [done|].
      rewrite length_app. simpl. lia.
    + intros [Hj Hlast]. f_equal.
      destruct (decide (j < length l)) as [Hlt|Hge].
      * exfalso. apply (Hlast (length l) Hlt). by rewrite list_lookup_middle.
      * apply lookup_lt_Some in Hj. rewrite length_app in Hj. simpl in Hj. lia.
  - rewrite lookup_insert_ne by done. rewrite IH. split.
    + intros [Hj Hlast]. split; [by apply lookup_app_l_Some|].
      intros j' Hj' Hu. apply lookup_app_Some in Hu as [Hu|[_ Hu]].
      * by apply (Hlast j').
      * destruct (j' - length l) as [|[|]]; simpl in Hu; congruence.
    + intros [Hj Hlast]. apply lookup_app_Some in Hj as [Hj|[_ Hj]].
      * split; [done|]. intros j' Hj' Hu. apply (Hlast j' Hj').
        by apply lookup_app_l_Some.
      * destruct (j - length l) as [|[|]]; simpl in Hj; congruence.
Qed.

Lemma last_source_None (order : gmap string nat) (i : nat)
    (tags : list string) (j : nat) :
  (∀ tag, tag ∈ tags → order !! tag ≠ Some j) →
  last_source order i tags j = None.
Proof.
  revert i. induction tags as [|tag tags IH]; intros i Hno; [done|].
  simpl. rewrite IH by (intros tag' Htag'; apply Hno; by right).
  rewrite decide_False; [done|]. apply Hno. by left.
Qed.

Lemma last_source_Some (order : gmap string nat) (i : nat)
    (tags : list string) (j q : nat) (u : string) :
  tags !! q = Some u → order !! u = Some j →
  (∀ q' tag', q < q' → tags !! q' = Some tag' → order !! tag' ≠ Some j) →
  last_source order i tags j = Some (i + q).
Proof.
  revert i q. induction tags as [|tag tags IH]; intros i q Hq Hu Hlast; [done|].
  destruct q as [|q]; simpl in Hq |- *.
  - injection Hq as ->. rewrite last_source_None.
    + rewrite decide_True by done. by rewrite Nat.add_0_r.
    + intros tag' [q' Hq']%list_elem_of_lookup_1.
      apply (Hlast (S q') tag'); [lia|done].
  - rewrite (IH (S i) q); [f_equal; lia|done|done|].
    intros q' tag' Hlt Hq'. apply (Hlast (S q') tag'); [lia|done].
Qed.

Section by_list_extras.
Context {num : Type} `{Scalar num}.

Lemma column_zeros2 (nrow ncol j : nat) :
  column (zeros2 (num := num) nrow ncol) j = zeros nrow.
Proof.
  unfold column, zeros2, zeros. simpl. rewrite fmap_replicate. f_equal.
  destruct (decide (j < ncol)) as [Hj|Hj].
  - by rewrite lookup_replicate_2.
  - by rewrite (proj1 (lookup_replicate_None ncol _ j)); [|lia].
Qed.

Lemma copy_listed_spec (t : TaggedTable num) (order : gmap string nat)
    (i : nat) (tags : list string) (d : ndarray num) :
  wf_ndarray d → nrows d = nrows (data t) →
  (∀ u j, order !! u = Some j → j < ncols d) →
  i + length tags <= ncols (data t) →
  ∃ d', copy_listed t order i tags d = Ok d' ∧ wf_ndarray d' ∧
        nrows d' = nrows d ∧ ncols d' = ncols d ∧
        ∀ j, column d' j = match last_source order i tags j with
                           | Some p => column (data t) p
                           | None => column d j
                           end.
Proof.
  revert i d. induction tags as [|tag tags IH]; intros i d Hwf Hnr Hlt Hlen.
  { by exists d. }
  simpl in Hlen. cbn [copy_listed last_source].
  destruct (order !! tag) as [j0|] eqn:Htag.
  - rewrite get_col_column by lia. rewrite bind_Ok.
    destruct (set_col_spec d j0 (column (data t) i))
      as (d1 & Hset & Hwf1 & Hnr1 & Hnc1 & Hcol1 & Hother);
      [done|by eapply Hlt|by rewrite length_column|].
    rewrite Hset, bind_Ok.
    destruct (IH (S i) d1) as (d' & Hrun & Hwf' & Hnr' & Hnc' & Hcols);
      [done|congruence|by rewrite Hnc1|lia|].
    exists d'. split; [done|]. split; [done|].
    split; [congruence|]. split; [congruence|].
    intros j. rewrite Hcols. destruct (last_source order (S i) tags j); [done|].
    destruct (decide (Some j0 = Some j)) as [[= ->]|Hne]; [done|].
    apply Hother. congruence.
  - destruct (IH (S i) d) as (d' & Hrun & Hwf' & Hnr' & Hnc' & Hcols);
      [done|done|done|lia|].
    exists d'. split; [done|]. do 3 (split; [done|]).
    intros j. rewrite Hcols. by destruct (last_source order (S i) tags j).
Qed.

(** X28. [_filter_taxons_by_list] returns a new table with the row tags
    of the source and one column for every listed name, in the order of
    the list. The column of a listed name holds the column that the
    source has for this name (the last one, should the source have
    several), and zeros when the source has none. A name listed twice
    receives the data at its last position only; its earlier columns
    hold zeros. *)
Theorem filter_taxons_by_list_columns (tax_abund : loc)
    (t : TaggedTable num) (user_tax : list string)
    (h : gmap loc (TaggedTable num)) :
  h !! tax_abund = Some t →
  wf_table t →
  ∃ ret t',
    _filter_taxons_by_list tax_abund user_tax h = Ok (ret, <[ret := t']> h) ∧
    h !! ret = None ∧
    wf_table t' ∧
    row_tag t' = row_tag t ∧ col_tag t' = user_tax ∧
    (∀ j u i,
       user_tax !! j = Some u → (∀ j', j < j' → user_tax !! j' ≠ Some u) →
       col_tag t !! i = Some u → (∀ i', i < i' → col_tag t !! i' ≠ Some u) →
       column (data t') j = column (data t) i) ∧
    (∀ j u, user_tax !! j = Some u → u ∉ col_tag t →
       column (data t') j = zeros (nrows (data t))) ∧
    (∀ j j' u, user_tax !! j = Some u → j < j' → user_tax !! j' = Some u →
       column (data t') j = zeros (nrows (data t))).
Proof.
  intros Hself (Hwf & Hrow & Hcol & Hpos).
  set (order := user_tax_order user_tax).
  set (nrow := length (row_tag t)).
  destruct (wf_zeros2 (num := num) nrow (length user_tax)) as (Hwf0 & Hnr0 & Hnc0).
  destruct (copy_listed_spec t order 0 (col_tag t)
              (zeros2 nrow (length user_tax)))
    as (d & Hrun & Hwfd & Hnrd & Hncd & Hcols).
  { done. }
  { by rewrite Hnr0. }
  { intros u j Hu. rewrite Hnc0. unfold order in Hu.
    apply user_tax_order_lookup in Hu as [Hu _]. by eapply lookup_lt_Some. }
  { simpl. lia. }
  rewrite Hnr0 in Hnrd. rewrite Hnc0 in Hncd.
  exists (fresh (dom h)), (mkTable (row_tag t) user_tax d None).
  split.
  { unfold _filter_taxons_by_list, load. rewrite Hself, bind_Ok. cbv zeta.
    fold order nrow. rewrite Hrun, bind_Ok.
    rewrite TaggedTable_init_ok; [done|by rewrite Hnrd|by rewrite Hncd|].
    rewrite Hnrd. unfold nrow. lia. }
  split; [apply not_elem_of_dom, is_fresh|]. split.
  { split; [done|]. cbn [row_tag col_tag data]. rewrite Hnrd.
    unfold nrow. repeat split; lia. }
  split; [done|]. split; [done|]. cbn [data].
  assert (Hzero : ∀ j, last_source order 0 (col_tag t) j = None →
                       column d j = zeros (nrows (data t))).
  { intros j Hj. rewrite Hcols, Hj, column_zeros2. unfold nrow. by rewrite Hrow. }
  split; [|split].
  - intros j u i Hj Hjlast Hi Hilast. rewrite Hcols.
    rewrite (last_source_Some order 0 (col_tag t) j i u); [done|done| |].
    + apply user_tax_order_lookup. by split.
    + intros i' tag' Hlt Hi' Htag'.
      apply user_tax_order_lookup in Htag' as [Htag' _].
      apply (Hilast i' Hlt). congruence.
  - intros j u Hj Hu. apply Hzero, last_source_None.
    intros tag Htag Hord. apply user_tax_order_lookup in Hord as [Hord _].
    congruence.
  - intros j j' u Hj Hlt Hj'. apply Hzero, last_source_None.
    intros tag Htag Hord. apply user_tax_order_lookup in Hord as [Hord Hlast].
    apply (Hlast j' Hlt). congruence.
Qed.

End by_list_extras.

Lemma filter_taxons_by_list_columns_witness :
  ∃ ret t',
    _filter_taxons_by_list 1%positive ["Otu3"; "Otu9"; "Otu1"] scenario_heap
    = Ok (ret, <[ret := t']> scenario_heap) ∧
    col_tag t' = ["Otu3"; "Otu9"; "Otu1"] ∧
    column (data t') 0 = column (data scenario_counts) 2 ∧
    column (data t') 1 = zeros 2.
Proof.
  destruct (filter_taxons_by_list_columns 1%positive scenario_counts
              ["Otu3"; "Otu9"; "Otu1"] scenario_heap)
    as (ret & t' & Hrun & _ & _ & _ & Hcol & Hcopy & Hzero & _).
  - reflexivity.
  - exact scenario_counts_wf.
  - exists ret, t'. split; [exact Hrun|]. split; [exact Hcol|]. split.
    + apply (Hcopy 0 "Otu3" 2).
      * reflexivity.
      * intros [|[|[|j']]] Hj'; try lia; discriminate.
      * reflexivity.
      * intros [|[|[|i']]] Hi'; try lia; discriminate.
    + apply (Hzero 1 "Otu9"); [reflexivity|].
      apply (bool_decide_unpack _). by vm_compute.
Defined.
